(** * SyncNotionCalendar: the reconciliation core, embedded and verified

    A shallow embedding of [src/CalendarClient.py], [src/notionClient.py] and
    [src/Database.py].  Python objects become Rocq values:

    - a [str] is a [string]: its characters are the code points below
      256;
    - a pandas cell is a [cell]: a string, a timestamp, or the missing value
      (Python [None], [NaN] and [NaT] are one constructor, [Null]);
    - a [pd.Series] is a finite map from labels to cells, a [pd.DataFrame]
      indexed by [id] is a finite map from ids to rows;
    - methods that talk to the outside world (Notion, AppleScript, the csv
      file, the logger) run in a small monad [M] that threads the state of
      the [Database] object, may raise, and records every effect as an
      [Event].

    The answers of Notion and of AppleScript are parameters ([Env]); so are
    [strptime] and [strftime] ([PyDatetime]).  The table lives in memory
    from one run to the next: reading the csv file back is not modelled. *)

From Stdlib Require Import ZArith Ascii.
From stdpp Require Import base gmap strings list fin_maps pretty.

Local Open Scope Z_scope.

(** ** Python string primitives *)

Module Py.

(** The two characters that cannot be written inside a literal. *)
Definition dquote : string := String "034"%char "".
Definition newline : string := String "010"%char "".
Definition cr : string := String "013"%char "".
Definition backslash : string := String "092"%char "".

(** [s.startswith(p)] *)
Fixpoint startswith (p s : string) : bool :=
  match p, s with
  | EmptyString, _ => true
  | String a p', String b s' => if decide (a = b) then startswith p' s' else false
  | String _ _, EmptyString => false
  end.

(** [s[n:]] and [s[:n]] for [n >= 0] *)
Fixpoint drop (n : nat) (s : string) : string :=
  match n, s with
  | O, _ => s
  | S n', String _ s' => drop n' s'
  | S _, EmptyString => EmptyString
  end.

Fixpoint take (n : nat) (s : string) : string :=
  match n, s with
  | O, _ => EmptyString
  | S n', String a s' => String a (take n' s')
  | S _, EmptyString => EmptyString
  end.

Definition len (s : string) : nat := String.length s.

(** [sub in s] *)
Fixpoint contains (sub s : string) : bool :=
  startswith sub s ||
  match s with
  | EmptyString => false
  | String _ s' => contains sub s'
  end.

(** [s.endswith(p)] *)
Definition endswith (p s : string) : bool :=
  startswith (String.rev p) (String.rev s).

(** [s.replace(old, new)] for a non-empty [old]: the occurrences are found
    from the left and do not overlap.  [fuel] bounds the recursion by the
    length of the text still to scan. *)
Fixpoint replace_go (fuel : nat) (old new s : string) : string :=
  match fuel with
  | O => s
  | S fuel' =>
      match s with
      | EmptyString => EmptyString
      | String a s' =>
          if startswith old s
          then new +:+ replace_go fuel' old new (drop (len old) s)
          else String a (replace_go fuel' old new s')
      end
  end.

Definition replace (old new s : string) : string :=
  replace_go (len s) old new s.

(** [s.split(sep)] for a one-character separator. *)
Fixpoint split_go (sep : ascii) (cur : string) (s : string) : list string :=
  match s with
  | EmptyString => [String.rev cur]
  | String a s' =>
      if decide (a = sep)
      then String.rev cur :: split_go sep EmptyString s'
      else split_go sep (String a cur) s'
  end.

Definition split (sep : ascii) (s : string) : list string :=
  split_go sep EmptyString s.

(** [c.isspace()]: tab, newline, vertical tab, form feed, carriage
    return, the four separators 28 to 31, space, next line (133) and
    no-break space (160). *)
Definition isspace (a : ascii) : bool :=
  let n := nat_of_ascii a in
  ((9 <=? n) && (n <=? 13) || (28 <=? n) && (n <=? 32)
   || (n =? 133) || (n =? 160))%nat.

(** [s.split()]: the maximal runs of characters that are not whitespace.
    [cur] holds, in reverse, the run being read. *)
Fixpoint split_ws_go (cur : string) (s : string) : list string :=
  let flush := match cur with EmptyString => [] | _ => [String.rev cur] end in
  match s with
  | EmptyString => flush
  | String a s' =>
      if isspace a then flush ++ split_ws_go EmptyString s'
      else split_ws_go (String a cur) s'
  end.

Definition split_ws (s : string) : list string := split_ws_go EmptyString s.

(** [str.strip()] *)
Fixpoint lstrip (s : string) : string :=
  match s with
  | String a s' => if isspace a then lstrip s' else s
  | EmptyString => EmptyString
  end.

Definition strip (s : string) : string :=
  String.rev (lstrip (String.rev (lstrip s))).

(** Truth value of a string: [if s:] *)
Definition truthy (s : string) : bool :=
  match s with EmptyString => false | _ => true end.

(** Decimal rendering of a non-negative field, left-padded with zeros. *)
Definition zfill (width : nat) (s : string) : string :=
  String.string_of_list_ascii (replicate (width - len s)%nat "0"%char) +:+ s.

Definition digits (width : nat) (z : Z) : string := zfill width (pretty (Z.to_N z)).

End Py.

(** ** Exceptions and results *)

Record exn := Exn { exn_class : string; exn_msg : string }.

Inductive Res (A : Type) : Type :=
| Ok (a : A)
| Raise (e : exn).
Arguments Ok {A} a.
Arguments Raise {A} e.

Definition is_ok {A} (r : Res A) : bool :=
  match r with Ok _ => true | Raise _ => false end.

(** [str(e)] *)
Definition str_exn (e : exn) : string := exn_msg e.

(** ** [datetime] values *)

Record datetime := Datetime {
  year : Z; month : Z; day : Z;
  hour : Z; minute : Z; second : Z
}.

Global Instance datetime_eq_dec : EqDecision datetime.
Proof. solve_decision. Defined.

Module Calendar.

(** Days since 1970-01-01 of a proleptic Gregorian date. *)
Definition days_from_civil (y m d : Z) : Z :=
  let y' := if m <=? 2 then y - 1 else y in
  let era := y' / 400 in
  let yoe := y' - era * 400 in
  let mp := if 2 <? m then m - 3 else m + 9 in
  let doy := (153 * mp + 2) / 5 + d - 1 in
  let doe := yoe * 365 + yoe / 4 - yoe / 100 + doy in
  era * 146097 + doe - 719468.

Definition civil_from_days (z : Z) : Z * Z * Z :=
  let z := z + 719468 in
  let era := z / 146097 in
  let doe := z - era * 146097 in
  let yoe := (doe - doe / 1460 + doe / 36524 - doe / 146096) / 365 in
  let y := yoe + era * 400 in
  let doy := doe - (365 * yoe + yoe / 4 - yoe / 100) in
  let mp := (5 * doy + 2) / 153 in
  let d := doy - (153 * mp + 2) / 5 + 1 in
  let m := if mp <? 10 then mp + 3 else mp - 9 in
  (if m <=? 2 then y + 1 else y, m, d).

Definition is_leap (y : Z) : bool :=
  (y mod 4 =? 0) && (negb (y mod 100 =? 0) || (y mod 400 =? 0)).

Definition days_in_month (y m : Z) : Z :=
  if m =? 2 then (if is_leap y then 29 else 28)
  else if (m =? 4) || (m =? 6) || (m =? 9) || (m =? 11) then 30 else 31.

Definition valid_date (y m d : Z) : bool :=
  (1 <=? y) && (y <=? 9999) && (1 <=? m) && (m <=? 12) &&
  (1 <=? d) && (d <=? days_in_month y m).

(** 0 is Sunday. *)
Definition weekday (y m d : Z) : Z := (days_from_civil y m d + 4) mod 7.

Definition seconds_of_day (t : datetime) : Z :=
  hour t * 3600 + minute t * 60 + second t.

(** [dt + timedelta(days=dd, seconds=ds)]; Python raises [OverflowError]
    outside of years 1 to 9999. *)
Definition add_timedelta (t : datetime) (dd ds : Z) : Res datetime :=
  let total := seconds_of_day t + ds in
  let z := days_from_civil (year t) (month t) (day t) + dd + total / 86400 in
  let s := total mod 86400 in
  let '(y, m, d) := civil_from_days z in
  if (1 <=? y) && (y <=? 9999)
  then Ok (Datetime y m d (s / 3600) ((s mod 3600) / 60) (s mod 60))
  else Raise (Exn "OverflowError" "date value out of range").

(** [datetime.combine(a.date(), b.time())] *)
Definition combine (a b : datetime) : datetime :=
  Datetime (year a) (month a) (day a) (hour b) (minute b) (second b).

(** [str(pd.Timestamp)] for a timestamp with whole seconds and no zone. *)
Definition str_timestamp (t : datetime) : string :=
  Py.digits 4 (year t) +:+ "-" +:+ Py.digits 2 (month t) +:+ "-" +:+
  Py.digits 2 (day t) +:+ " " +:+ Py.digits 2 (hour t) +:+ ":" +:+
  Py.digits 2 (minute t) +:+ ":" +:+ Py.digits 2 (second t).

End Calendar.

(** The two functions of Python's [datetime] module that read and write
    text.  The development is parametric in them; [Reference.py_datetime]
    below is an executable instance. *)
Class PyDatetime := {
  (** [datetime.strptime(text, format)], raising [ValueError] *)
  strptime : string → string → Res datetime;
  (** [dt.strftime(format)] *)
  strftime : datetime → string → string
}.

(** ** pandas values *)

Inductive cell :=
| Null                      (* None, NaN, NaT *)
| Str (s : string)
| Ts (t : datetime).        (* pd.Timestamp *)

Global Instance cell_eq_dec : EqDecision cell.
Proof. solve_decision. Defined.

Abbreviation Series := (gmap string cell).
Abbreviation DataFrame := (gmap string (gmap string cell)).

Module Pd.

(** [pd.isna(c)], [pd.isnull(c)] *)
Definition isna (c : cell) : bool :=
  match c with Null => true | _ => false end.

(** Element-wise [a != b]: a missing value differs from everything,
    itself included. *)
Definition ne (a b : cell) : bool :=
  isna a || isna b || negb (bool_decide (a = b)).

(** Element-wise [a == b]: a missing value equals nothing. *)
Definition eq (a b : cell) : bool :=
  negb (isna a) && negb (isna b) && bool_decide (a = b).

(** [str(c)], as used by f-strings. *)
Definition str (c : cell) : string :=
  match c with
  | Null => "None"
  | Str s => s
  | Ts t => Calendar.str_timestamp t
  end.

(** Truth value of a cell holding [None] or a [str]. *)
Definition truthy (c : cell) : bool :=
  match c with
  | Null => false
  | Str s => Py.truthy s
  | Ts _ => true
  end.

(** [getattr(series, label, default)] *)
Definition getattr (s : Series) (label : string) (default : cell) : cell :=
  match s !! label with Some c => c | None => default end.

(** [series.label], raising [AttributeError] for an unknown label. *)
Definition attr (s : Series) (label : string) : Res cell :=
  match s !! label with
  | Some c => Ok c
  | None => Raise (Exn "AttributeError"
                       ("'Series' object has no attribute '" +:+ label +:+ "'"))
  end.

(** One cell of the column [label] of a frame: rows that lack the label
    hold the missing value there. *)
Definition col (row : Series) (label : string) : cell :=
  getattr row label Null.

(** [series.reindex(columns)]: the labels of [columns], missing ones filled
    with the missing value, other labels dropped.  This is the alignment
    pandas performs in [df.loc[id] = series]. *)
Definition reindex (columns : list string) (s : Series) : Series :=
  list_to_map ((λ c, (c, col s c)) <$> columns).

(** [df.loc[id]] *)
Definition loc (df : DataFrame) (id : string) : Res Series :=
  match df !! id with
  | Some row => Ok row
  | None => Raise (Exn "KeyError" id)
  end.

(** [df.loc[id, label]] *)
Definition loc_cell (df : DataFrame) (id label : string) : Res cell :=
  match df !! id with
  | Some row => Ok (col row label)
  | None => Raise (Exn "KeyError" id)
  end.

(** [df.loc[list_id]] followed by [iterrows()]: the rows in the order of
    [list_id]; an unknown id raises [KeyError]. *)
Fixpoint loc_list (df : DataFrame) (list_id : list string)
  : Res (list (string * Series)) :=
  match list_id with
  | [] => Ok []
  | id :: rest =>
      match df !! id, loc_list df rest with
      | Some row, Ok rows => Ok ((id, row) :: rows)
      | None, _ => Raise (Exn "KeyError" id)
      | _, Raise e => Raise e
      end
  end.

(** [df.drop(id)] *)
Definition drop (df : DataFrame) (id : string) : Res DataFrame :=
  match df !! id with
  | Some _ => Ok (delete id df)
  | None => Raise (Exn "KeyError" id)
  end.

(** [not df[mask].empty] for a row-wise mask *)
Definition any_row (mask : Series → bool) (df : DataFrame) : bool :=
  existsb (λ kv, mask kv.2) (map_to_list df).

(** [list(df[mask].index)].  The ids come in the order the finite map
    keeps them, pandas gives them in the order of the rows; nothing below
    depends on it. *)
Definition index_where (mask : string → Series → bool) (df : DataFrame)
  : list string :=
  (filter (λ kv, mask kv.1 kv.2 = true) (map_to_list df)).*1.

End Pd.

(** ** The outside world and the trace of effects *)

(** What [applescript.run] returns: [r.out] and [r.err]. *)
Record AppleResult := { out : string; err : string }.

(** Raw Notion record, reduced to the paths [Card.__init__] reads. *)
Record Page := {
  page_id : string;                     (* page['id'] *)
  name_title : list string;             (* plain_text of properties.Name.title *)
  page_last_edited_time : option string;(* last_edited_time *)
  date_prop : option (option string * option string);
                                        (* properties.Date.date: start, end *)
  url_prop : option string;             (* properties.URL.url *)
  description_rich : list string        (* plain_text of Description.rich_text *)
}.

(** Answers of the collaborators.  The [n]-th query of Notion and the
    [n]-th script handed to AppleScript get the answer chosen here; the
    clock is read from [now].  [pdb_continues] tells how a session of the
    debugger ends: with the command continue, or else with quit or for
    want of input. *)
Record Env := {
  notion_query : nat → string → Res (list Page);
  applescript_run : nat → string → AppleResult;
  now : datetime;
  pdb_continues : bool
}.

Inductive Level := DEBUG | INFO | WARNING | ERROR.

Inductive CalOp := MakeEvent | DeleteEvent.

Inductive Event :=
| EvQuery (database_id : string)
    (* NotionClient.get_live_cards was called *)
| EvAppleScript (op : CalOp) (cmd : string) (r : AppleResult)
    (* applescript.run(cmd) returned r *)
| EvSave (table : DataFrame)
    (* Database.save wrote the table to the csv file *)
| EvLog (lvl : Level) (msg : string).
    (* logging.debug / info / warning / error *)

Global Instance Level_eq_dec : EqDecision Level.
Proof. solve_decision. Defined.

(** The mutable part of a [Database] object and of its surroundings. *)
Record State := {
  df : DataFrame;       (* self.df *)
  csv : DataFrame;      (* content of the file at self._path *)
  queries : nat;        (* Notion queries made so far *)
  scripts : nat         (* AppleScript runs made so far *)
}.

Record Outcome (A : Type) := {
  result : Res A;
  final : State;
  events : list Event
}.
Arguments result {A} _.
Arguments final {A} _.
Arguments events {A} _.

(** Computations of the embedding: state passing, exceptions, trace. *)
Definition M (A : Type) : Type := State → Outcome A.

Definition ret {A} (a : A) : M A :=
  λ st, {| result := Ok a; final := st; events := [] |}.

Definition bind {A B} (m : M A) (f : A → M B) : M B :=
  λ st,
    let o := m st in
    match result o with
    | Ok a =>
        let o' := f a (final o) in
        {| result := result o'; final := final o';
           events := events o ++ events o' |}
    | Raise e => {| result := Raise e; final := final o; events := events o |}
    end.

Global Instance M_ret : MRet M := @ret.
Global Instance M_bind : MBind M := λ A B f m, bind m f.

(** [raise e] *)
Definition raise {A} (e : exn) : M A :=
  λ st, {| result := Raise e; final := st; events := [] |}.

(** A pure computation that may raise. *)
Definition lift {A} (r : Res A) : M A :=
  match r with Ok a => ret a | Raise e => raise e end.

(** [try: body except Exception as e: handler(e)] *)
Definition try_except {A} (body : M A) (handler : exn → M A) : M A :=
  λ st,
    let o := body st in
    match result o with
    | Ok a => o
    | Raise e =>
        let o' := handler e (final o) in
        {| result := result o'; final := final o';
           events := events o ++ events o' |}
    end.

Definition emit (e : Event) : M unit :=
  λ st, {| result := Ok tt; final := st; events := [e] |}.

Definition log (lvl : Level) (msg : string) : M unit := emit (EvLog lvl msg).

Definition get_df : M DataFrame :=
  λ st, {| result := Ok (df st); final := st; events := [] |}.

Definition set_df (d : DataFrame) : M unit :=
  λ st, {| result := Ok tt;
           final := {| df := d; csv := csv st;
                       queries := queries st; scripts := scripts st |};
           events := [] |}.

(** [for x in xs: body(x)] *)
Fixpoint for_each {X} (xs : list X) (body : X → M unit) : M unit :=
  match xs with
  | [] => ret tt
  | x :: rest => body x ;; for_each rest body
  end.

(** A loop that carries local variables [acc] from one round to the next. *)
Fixpoint for_fold {X S} (xs : list X) (acc : S) (body : X → S → M S) : M S :=
  match xs with
  | [] => ret acc
  | x :: rest => acc' ← body x acc; for_fold rest acc' body
  end.

(** Concatenation of the pieces of an f-string. *)
Definition fstr (pieces : list string) : string :=
  foldr String.append "" pieces.

(** ** [src/CalendarClient.py] *)

Module CalendarClient.
Section CalendarClient.
Context `{PyDatetime} (env : Env).

(** [self.name] *)
Variable name : string.

(** [applescript_escape(self, s, max_length=900)] *)
Definition applescript_escape_len (s : cell) (max_length : nat) : string :=
  let s := Pd.str s in
  let s := if (max_length <? Py.len s)%nat
           then Py.take max_length s +:+ "..." else s in
  let s := Py.replace Py.cr ""
             (Py.replace Py.newline " "
                (Py.replace (Py.backslash +:+ "n") " " s)) in
  Py.replace Py.dquote (Py.backslash +:+ Py.dquote)
    (Py.replace Py.backslash (Py.backslash +:+ Py.backslash) s).

Definition applescript_escape (s : cell) : string :=
  applescript_escape_len s 900.

(** [applescript.run(cmd)]: the next answer of the environment. *)
Definition run_script (op : CalOp) (cmd : string) : M AppleResult :=
  λ st,
    let r := applescript_run env (scripts st) cmd in
    {| result := Ok r;
       final := {| df := df st; csv := csv st; queries := queries st;
                   scripts := S (scripts st) |};
       events := [EvAppleScript op cmd r] |}.

Definition applescript_date : string := "%A, %B %d, %Y at %I:%M:%S %p".

(** The end of the event and the end time kept for the all-day test:
    lines 56 to 69 of [add_event]. *)
Definition end_of_event (end_date start_time end_time : string)
  : M (datetime * string) :=
  let is_all_day :=
    bool_decide (start_time = "00:00:00") && bool_decide (end_time = "00:00:00") in
  if is_all_day then
    d ← lift (strptime end_date "%Y-%m-%d");
    end_dt ← lift (Calendar.add_timedelta d 1 0);
    let end_time_str := "00:00:00" in
    t ← lift (strptime end_time_str "%H:%M:%S");
    mret (Calendar.combine end_dt t, end_time)
  else
    let end_time :=
      if bool_decide (end_time = "00:00:00") then "23:59:59" else end_time in
    end_dt ← lift (strptime (fstr [end_date; " "; end_time]) "%Y-%m-%d %H:%M:%S");
    mret (end_dt, end_time).

(** The [make new event] line: lines 79 to 82. *)
Definition make_event_line (title : cell) (is_all_day : bool) : string :=
  if is_all_day then
    fstr ["                set newEvent to make new event with properties {summary:";
          Py.dquote; applescript_escape title; Py.dquote;
          ", start date:theStartDate, end date:theEndDate, allday event:true}";
          Py.newline]
  else
    fstr ["                set newEvent to make new event with properties {summary:";
          Py.dquote; applescript_escape title; Py.dquote;
          ", start date:theStartDate, end date:theEndDate}";
          Py.newline].

(** The script of [add_event] from the two dates on: lines 53 to 96. *)
Definition add_event_script (title : cell) (start_dt end_dt : datetime)
    (is_all_day : bool) (url_str description_str : string) : string :=
  fstr [
    "set theStartDate to date "; Py.dquote;
      strftime start_dt applescript_date; Py.dquote; Py.newline;
    "set theEndDate to date "; Py.dquote;
      strftime end_dt applescript_date; Py.dquote; Py.newline;
    Py.newline;
    "        tell application "; Py.dquote; "Calendar"; Py.dquote; Py.newline;
    "            tell calendar "; Py.dquote; applescript_escape (Str name);
      Py.dquote; Py.newline;
    make_event_line title is_all_day;
    (if Py.truthy url_str then
       fstr ["                set url of newEvent to "; Py.dquote;
             applescript_escape (Str url_str); Py.dquote; Py.newline]
     else "");
    (if Py.truthy description_str then
       fstr ["                set description of newEvent to "; Py.dquote;
             applescript_escape (Str description_str); Py.dquote; Py.newline]
     else "");
    Py.newline;
    "                set eventId to id of newEvent"; Py.newline;
    "                return eventId"; Py.newline;
    "            end tell"; Py.newline;
    "            save"; Py.newline;
    "        end tell"; Py.newline;
    "        "].

(** [r.out.strip().split()[-1]] *)
Definition last_token (s : string) : Res string :=
  match last (Py.split_ws (Py.strip s)) with
  | Some w => Ok w
  | None => Raise (Exn "IndexError" "list index out of range")
  end.

(** [add_event(self, title, start_date, end_date, start_time, end_time,
    url_str, description_str)]; the result is the id of the new event, or
    [None]. *)
Definition add_event (title : cell)
    (start_date end_date start_time end_time url_str description_str : string)
  : M cell :=
  start_dt ← lift (strptime (fstr [start_date; " "; start_time])
                            "%Y-%m-%d %H:%M:%S");
  '(end_dt, end_time) ← end_of_event end_date start_time end_time;
  let is_all_day :=
    bool_decide (start_time = "00:00:00") && bool_decide (end_time = "00:00:00") in
  let cmd :=
    add_event_script title start_dt end_dt is_all_day url_str description_str in
  log DEBUG (fstr ["Adding event - calendar: "; name; ", title: "; Pd.str title;
                   ", dates: "; start_date; " to "; end_date]);;
  log DEBUG (fstr ["AppleScript command:"; Py.newline; cmd]);;
  try_except
    (r ← run_script MakeEvent cmd;
     if Py.truthy (err r) then
       log ERROR (fstr ["AppleScript error while adding '"; Pd.str title;
                        "': "; err r]);;
       log DEBUG (fstr ["AppleScript output: "; out r]);;
       raise (Exn "Exception"
                  (fstr ["Failed to add event to "; name; " calendar"]))
     else if Py.truthy (out r) then
       event_id ← lift (last_token (out r));
       log INFO (fstr ["Successfully added '"; Pd.str title; "' to "; name;
                       " calendar, event_id: "; event_id]);;
       mret (Str event_id)
     else
       log WARNING (fstr ["Added '"; Pd.str title; "' to "; name;
                          " calendar but no event_id was returned"]);;
       mret Null)
    (λ e,
       log ERROR (fstr ["Unexpected error while adding event '"; Pd.str title;
                        "': "; str_exn e]);;
       raise e).

(** [delete_event(self, id)] *)
Definition delete_event (id : cell) : M unit :=
  let cmd := fstr [
    Py.newline;
    "        tell application "; Py.dquote; "Calendar"; Py.dquote; Py.newline;
    "            tell calendar "; Py.dquote; name; Py.dquote; Py.newline;
    "            delete event id "; Py.dquote; Pd.str id; Py.dquote; Py.newline;
    "            save"; Py.newline;
    "            end tell"; Py.newline;
    "        end tell"; Py.newline;
    "        "] in
  r ← run_script DeleteEvent cmd;
  if Py.truthy (err r) then
    log ERROR (fstr ["failed to delete event "; Pd.str id;
                     ". Applescript error : "; err r])
  else
    log INFO (fstr ["event "; Pd.str id; " removed"]).

End CalendarClient.
End CalendarClient.

(** ** [src/notionClient.py] *)

Module NotionClient.
Section NotionClient.
Context `{PyDatetime} (env : Env).

(** The attributes of a [Card]. *)
Record Card := {
  _id : string;
  title : cell;
  last_edited_time : cell;
  start_date : cell;
  end_date : cell;
  url : string;
  description : string
}.

(** [Card._convert_datetime] *)
Definition _convert_datetime (notion_datetime : option string) : Res cell :=
  match notion_datetime with
  | None => Ok Null
  | Some text =>
      match Py.split "T"%char text with
      | [date] =>
          match strptime (fstr [date; " 00:00:00"]) "%Y-%m-%d %H:%M:%S" with
          | Ok t => Ok (Ts t)
          | Raise e => Raise e
          end
      | date :: rest :: _ =>
          let time := Py.take 8 rest in
          match strptime (fstr [date; " "; time]) "%Y-%m-%d %H:%M:%S" with
          | Ok t => Ok (Ts t)
          | Raise e => Raise e
          end
      | [] => Raise (Exn "IndexError" "list index out of range")
      end
  end.

Definition res_bind {A B} (r : Res A) (f : A → Res B) : Res B :=
  match r with Ok a => f a | Raise e => Raise e end.

(** [Card.__init__]: every attribute but the id keeps its default when the
    title property is empty.  On a failure the handler first opens the
    debugger ([pdb.set_trace()]): left with continue, the handler goes on
    and raises the failure again as [Exception]; left with quit, or
    finding nothing to read, the debugger raises [BdbQuit]. *)
Definition Card_init (page : Page) : Res Card :=
  match name_title page with
  | [] =>
      Ok {| _id := page_id page; title := Null; last_edited_time := Null;
            start_date := Null; end_date := Null; url := ""; description := "" |}
  | plain_text :: _ =>
      let body :=
        res_bind (_convert_datetime (page_last_edited_time page)) (λ edited,
        match date_prop page with
        | None =>
            Raise (Exn "AttributeError"
                       "'NoneType' object has no attribute 'get'")
        | Some (start, end_) =>
            res_bind (_convert_datetime start) (λ start_date,
            res_bind (_convert_datetime end_) (λ end_date,
            Ok {| _id := page_id page;
                  title := Str plain_text;
                  last_edited_time := edited;
                  start_date := start_date;
                  end_date := if Pd.isna end_date then start_date else end_date;
                  url := default "" (url_prop page);
                  description :=
                    match description_rich page with
                    | t :: _ => t
                    | [] => ""
                    end |}))
        end) in
      match body with
      | Ok c => Ok c
      | Raise e =>
          if pdb_continues env
          then Raise (Exn "Exception" (str_exn e))
          else Raise (Exn "BdbQuit" "")
      end
  end.

(** [Card.to_dict], the entry [id] apart: it becomes the index. *)
Definition to_dict (c : Card) : Series :=
  list_to_map [
    ("last_edit", last_edited_time c);
    ("start_date", start_date c);
    ("end_date", end_date c);
    ("title", title c);
    ("url", Str (url c));
    ("description", Str (description c))
  ].

Fixpoint cards_of (pages : list Page) : Res (list Card) :=
  match pages with
  | [] => Ok []
  | p :: rest =>
      res_bind (Card_init p) (λ c,
      res_bind (cards_of rest) (λ cs, Ok (c :: cs)))
  end.

(** The paginated [requests.post] loop of [get_live_cards]: the pages of
    all the answers, or the failure of one of them. *)
Definition query (database_id : string) : M (list Page) :=
  λ st,
    {| result := notion_query env (queries st) database_id;
       final := {| df := df st; csv := csv st; queries := S (queries st);
                   scripts := scripts st |};
       events := [EvQuery database_id] |}.

(** [get_live_cards(self, database_id)] *)
Definition get_live_cards (database_id : string) : M (list Card) :=
  _list_page ← try_except (query database_id)
    (λ e, log ERROR "while fetching cards on Notion : {q.text}";; raise e);
  lift (cards_of _list_page).

End NotionClient.
End NotionClient.

(** ** [src/Database.py] *)

Module Database.
Section Database.
Context `{PyDatetime} (env : Env).

(** [self.id] and the name of the calendar of [self.calendar_client] *)
Variables (id_ : string) (apple_calendar : string).

(** The columns of [self.df], as [_empty] and the csv file fix them. *)
Definition columns : list string :=
  ["last_edit"; "start_date"; "end_date"; "title"; "event_id"].

(** [_empty(self)] *)
Definition _empty : DataFrame := ∅.

(** [save(self)]; writing the file is taken to succeed. *)
Definition save : M unit :=
  λ st,
    {| result := Ok tt;
       final := {| df := df st; csv := df st; queries := queries st;
                   scripts := scripts st |};
       events := [EvSave (df st)] |}.

(** [self.df.loc[id] = series] *)
Definition set_row (id : string) (s : Series) : M unit :=
  d ← get_df; set_df (<[id := Pd.reindex columns s]> d).

(** The tuple [_get_card_for_calendar] returns. *)
Record EventDetails := {
  e_title : cell;
  e_start_date : string;
  e_end_date : string;
  e_start_time : string;
  e_end_time : string;
  e_url_str : string;
  e_description_str : string
}.

(** [try: datetime.strptime(text, format) except ValueError: fallback] *)
Definition validated (text format fallback : string) : string :=
  if is_ok (strptime text format) then text else fallback.

(** Lines 68 to 94: the start date and the start time. *)
Definition start_of_card (card_serie : Series) (default_date default_time : string)
  : string * string :=
  let c := Pd.getattr card_serie "start_date" Null in
  if Pd.isna c then (default_date, default_time)
  else
    let start_str := Pd.str c in
    let '(start_date, start_time) :=
      if Py.contains " " start_str && negb (bool_decide (start_str = "NaT"))
         && negb (Py.contains "NaT" start_str)
      then
        match Py.split " "%char start_str with
        | start_date :: start_time :: _ =>
            (start_date, validated start_time "%H:%M:%S" default_time)
        | _ => (default_date, default_time)
        end
      else
        (if bool_decide (start_str = "NaT") then default_date else start_str,
         default_time) in
    (validated start_date "%Y-%m-%d" default_date, start_time).

(** Lines 96 to 137: the end date and the end time. *)
Definition end_of_card (card_serie : Series) (start_date start_time : string)
  : string * string :=
  let c := Pd.getattr card_serie "end_date" Null in
  if Pd.isna c then
    match strptime (fstr [start_date; " "; start_time]) "%Y-%m-%d %H:%M:%S" with
    | Ok start_dt =>
        match Calendar.add_timedelta start_dt 0 3600 with
        | Ok end_dt => (strftime end_dt "%Y-%m-%d", strftime end_dt "%H:%M:%S")
        | Raise _ => (start_date, "23:59:59")
        end
    | Raise _ => (start_date, "23:59:59")
    end
  else
    let end_str := Pd.str c in
    let '(end_date, end_time) :=
      if Py.contains " " end_str && negb (bool_decide (end_str = "NaT"))
         && negb (Py.contains "NaT" end_str)
      then
        match Py.split " "%char end_str with
        | end_date :: end_time :: _ =>
            (end_date, validated end_time "%H:%M:%S" "23:59:59")
        | _ => (start_date, "23:59:59")
        end
      else
        let end_date := if bool_decide (end_str = "NaT") then start_date else end_str in
        let end_date :=
          if Py.contains " " end_str && Py.endswith "00:00:00" end_str then
            match strptime end_date "%Y-%m-%d" with
            | Ok end_date_dt =>
                match Calendar.add_timedelta end_date_dt (-1) 0 with
                | Ok end_date_dt => strftime end_date_dt "%Y-%m-%d"
                | Raise _ => end_date
                end
            | Raise _ => end_date
            end
          else end_date in
        (end_date, "23:59:59") in
    (validated end_date "%Y-%m-%d" start_date, end_time).

(** [_get_card_for_calendar(self, card_serie)].  Every operation that can
    fail sits in a handler of its own, so the function returns for every
    series. *)
Definition _get_card_for_calendar (card_serie : Series) : EventDetails :=
  let title := Pd.getattr card_serie "title" (Str "Untitled Event") in
  let default_date := strftime (now env) "%Y-%m-%d" in
  let default_time := "00:00:00" in
  let '(start_date, start_time) :=
    start_of_card card_serie default_date default_time in
  let '(end_date, end_time) := end_of_card card_serie start_date start_time in
  let url_str := Py.strip (Pd.str (Pd.getattr card_serie "url" (Str ""))) in
  let description_str :=
    Py.strip (Pd.str (Pd.getattr card_serie "description" (Str ""))) in
  {| e_title := title; e_start_date := start_date; e_end_date := end_date;
     e_start_time := start_time; e_end_time := end_time;
     e_url_str := url_str; e_description_str := description_str |}.

(** [self.calendar_client.add_event( *details )] *)
Definition add_event_details (d : EventDetails) : M cell :=
  CalendarClient.add_event env apple_calendar
    (e_title d) (e_start_date d) (e_end_date d) (e_start_time d) (e_end_time d)
    (e_url_str d) (e_description_str d).

(** [get_live(self)].  Ids are taken to be unique, as Notion gives them:
    of two cards with one id the table keeps the first. *)
Definition get_live : M DataFrame :=
  current_cards ← NotionClient.get_live_cards env id_;
  let current_as_dict :=
    (λ card, (NotionClient._id card, NotionClient.to_dict card)) <$> current_cards in
  if (0 <? length current_as_dict)%nat
  then mret (list_to_map current_as_dict)
  else mret _empty.

(** [a.date() < b.date()] *)
Definition date_before (a b : datetime) : bool :=
  (year a <? year b)
  || (year a =? year b)
     && ((month a <? month b) || (month a =? month b) && (day a <? day b)).

(** [get_outdated(self)]: the ids whose end date is before today.  [run]
    does not call it.  The accessor [.dt] raises on a column that holds a
    string (on an empty table of dtype object too, which this model
    leaves out). *)
Definition get_outdated : M (list string) :=
  stored ← get_df;
  if Pd.any_row (λ row, match Pd.col row "end_date" with
                        | Str _ => true
                        | _ => false
                        end) stored
  then raise (Exn "AttributeError"
                  "Can only use .dt accessor with datetimelike values")
  else
    let outdated :=
      Pd.index_where (λ _ row, match Pd.col row "end_date" with
                               | Ts t => date_before t (now env)
                               | _ => false
                               end) stored in
    log INFO (fstr [pretty (length outdated); " outdated events found"]);;
    for_each outdated (λ id, log INFO (fstr [id; " is outdated"]));;
    mret outdated.

(** [current = self.get_live()] when the argument is [None] *)
Definition or_live (current : option DataFrame) : M DataFrame :=
  match current with
  | None => get_live
  | Some current => mret current
  end.

(** [list(set(a.index) - set(b.index))], in some order without
    repetition (Python fixes none). *)
Definition index_difference (a b : DataFrame) : list string :=
  elements (dom a ∖ dom b).

(** [get_deleted(self, current=None)] *)
Definition get_deleted (current : option DataFrame) : M (list string) :=
  current ← or_live current;
  stored ← get_df;
  let index := index_difference stored current in
  log INFO (fstr [pretty (length index); " events have been deleted on Notion"]);;
  for_each index (λ id, log INFO (fstr [id; " has been deleted on Notion"]));;
  mret index.

(** The body of the loop of [remove_events]. *)
Definition remove_event (id : string) : M unit :=
  d ← get_df;
  event_id ← lift (Pd.loc_cell d id "event_id");
  CalendarClient.delete_event env apple_calendar event_id;;
  d ← get_df;
  d' ← lift (Pd.drop d id);
  set_df d';;
  log INFO (fstr ["card "; id; " has been deleted from the database"]).

(** [remove_events(self, list_id)] *)
Definition remove_events (list_id : list string) : M unit :=
  for_each list_id remove_event;;
  save.

(** The mask [_filter] of [get_modified] on the row [stored.join(current)]
    has for one id of [stored]; the columns of an id that [current] lacks
    are missing values. *)
Definition modified_filter (current : DataFrame) (id : string) (stored_row : Series)
  : bool :=
  let joined label :=
    match current !! id with Some row => Pd.col row label | None => Null end in
  let joined_stored label := Pd.col stored_row label in
  let _filter := Pd.ne (joined_stored "last_edit") (joined "last_edit") in
  let _filter := _filter &&
    (Pd.ne (joined "title") (joined_stored "title")
     || Pd.ne (joined "start_date") (joined_stored "start_date")
     || Pd.ne (joined "end_date") (joined_stored "end_date")) in
  _filter && negb (Pd.isna (joined "last_edit"))
          && negb (Pd.isna (joined_stored "last_edit")).

(** [get_modified(self, current=None)] *)
Definition get_modified (current : option DataFrame) : M (list string) :=
  current ← or_live current;
  stored ← get_df;
  let index := Pd.index_where (modified_filter current) stored in
  log INFO (fstr [pretty (length index); " events have been modified on Notion"]);;
  for_each index (λ id, log INFO (fstr [id; " has been modified on Notion"]));;
  mret index.

(** The body of the loop of [modify_events]. *)
Definition modify_event (current : DataFrame) (id : string) : M unit :=
  modified_event ← lift (Pd.loc current id);
  d ← get_df;
  old_event_id ← lift (Pd.loc_cell d id "event_id");
  CalendarClient.delete_event env apple_calendar old_event_id;;
  new_event_id ← add_event_details (_get_card_for_calendar modified_event);
  let modified_event := <["event_id" := new_event_id]> modified_event in
  set_row id modified_event;;
  log INFO (fstr [id; " has been updated on the databese"]);;
  save.

(** [modify_events(self, list_id, current=None)] *)
Definition modify_events (list_id : list string) (current : option DataFrame)
  : M unit :=
  current ← or_live current;
  for_each list_id (modify_event current).

(** [get_new(self, current=None)] *)
Definition get_new (current : option DataFrame) : M (list string) :=
  current ← or_live current;
  stored ← get_df;
  let index := index_difference current stored in
  log INFO (fstr [pretty (length index); " events have been added on Notion"]);;
  for_each index (λ id, log INFO (fstr [id; " has been added on Notion"]));;
  mret index.

(** The rows of [self.df] with the title and the dates of [s]: the mask of
    [existing_event] in [add_events]. *)
Definition same_event (title start_date end_date : cell) (row : Series) : bool :=
  Pd.eq (Pd.col row "title") title
  && Pd.eq (Pd.col row "start_date") start_date
  && Pd.eq (Pd.col row "end_date") end_date.

(** The body of the loop of [add_events]; [counts] are [success_count] and
    [error_count]. *)
Definition add_one (row : string * Series) (counts : nat * nat)
  : M (nat * nat) :=
  let '(id, s) := row in
  let '(success_count, error_count) := counts in
  try_except
    (title ← lift (Pd.attr s "title");
     start_date ← lift (Pd.attr s "start_date");
     end_date ← lift (Pd.attr s "end_date");
     d ← get_df;
     if Pd.any_row (same_event title start_date end_date) d then
       log INFO (fstr ["Skipping duplicate: Event '"; Pd.str title; "' on ";
                       Pd.str start_date; " already exists in database."]);;
       mret (success_count, error_count)
     else if bool_decide (id ∈ dom d) then
       log INFO (fstr ["Skipping: Event ID "; id; " already exists in database."]);;
       mret (success_count, error_count)
     else
       let event_details := _get_card_for_calendar s in
       try_except
         (event_id ← add_event_details event_details;
          if negb (Pd.truthy event_id) then
            raise (Exn "ValueError" "Failed to get event ID from calendar")
          else
            let s := <["event_id" := event_id]> s in
            set_row id s;;
            log INFO (fstr ["Added event '"; Pd.str title; "' (ID: "; id;
                            ") to calendar with event ID: "; Pd.str event_id]);;
            save;;
            mret (S success_count, error_count))
         (λ e,
            log ERROR (fstr ["Failed to add event '";
                             Pd.str (Pd.getattr s "title" (Str "Untitled"));
                             "' (ID: "; id; ") to calendar: "; str_exn e]);;
            mret (success_count, S error_count)))
    (λ e,
       log ERROR (fstr ["Unexpected error processing event ID "; id; ": ";
                        str_exn e]);;
       mret (success_count, S error_count)).

(** [add_events(self, list_id, current=None)] *)
Definition add_events (list_id : list string) (current : option DataFrame)
  : M unit :=
  match list_id with
  | [] => mret tt
  | _ =>
      current ← or_live current;
      to_add ← lift (Pd.loc_list current list_id);
      '(success_count, error_count) ← for_fold to_add (0, 0)%nat add_one;
      if (0 <? success_count)%nat || (0 <? error_count)%nat then
        log INFO (fstr ["Add events summary: "; pretty success_count; " added, ";
                        pretty error_count; " failed, ";
                        pretty (Z.of_nat (length list_id) - Z.of_nat success_count
                                - Z.of_nat error_count);
                        " skipped (duplicates or already exists)"])
      else mret tt
  end.

(** [run(self)] *)
Definition run : M unit :=
  live ← get_live;
  id_news ← get_new (Some live);
  add_events id_news (Some live);;
  id_deleted ← get_deleted (Some live);
  remove_events id_deleted;;
  id_modified ← get_modified (Some live);
  modify_events id_modified (Some live).

End Database.
End Database.

(** ** An executable [datetime] text layer

    [strftime] and [strptime] for the directives the program uses.  Fields
    are read as one or two decimal digits (four for the year); the date read
    must exist in the calendar. *)

Module Reference.

Definition weekday_name (n : Z) : string :=
  nth (Z.to_nat n)
    ["Sunday"; "Monday"; "Tuesday"; "Wednesday"; "Thursday"; "Friday"; "Saturday"]
    "".

Definition month_name (m : Z) : string :=
  nth (Z.to_nat (m - 1))
    ["January"; "February"; "March"; "April"; "May"; "June"; "July";
     "August"; "September"; "October"; "November"; "December"]
    "".

Definition directive (t : datetime) (c : ascii) : string :=
  if decide (c = "Y"%char) then Py.digits 4 (year t)
  else if decide (c = "m"%char) then Py.digits 2 (month t)
  else if decide (c = "d"%char) then Py.digits 2 (day t)
  else if decide (c = "H"%char) then Py.digits 2 (hour t)
  else if decide (c = "M"%char) then Py.digits 2 (minute t)
  else if decide (c = "S"%char) then Py.digits 2 (second t)
  else if decide (c = "I"%char) then
    Py.digits 2 (if hour t mod 12 =? 0 then 12 else hour t mod 12)
  else if decide (c = "p"%char) then (if hour t <? 12 then "AM" else "PM")
  else if decide (c = "A"%char) then
    weekday_name (Calendar.weekday (year t) (month t) (day t))
  else if decide (c = "B"%char) then month_name (month t)
  else String "%"%char (String c "").

Fixpoint format_go (t : datetime) (fmt : string) : string :=
  match fmt with
  | EmptyString => EmptyString
  | String a rest =>
      if decide (a = "%"%char) then
        match rest with
        | String c rest' => directive t c +:+ format_go t rest'
        | EmptyString => String a EmptyString
        end
      else String a (format_go t rest)
  end.

Definition digit (a : ascii) : option Z :=
  Z.of_nat <$> Ascii.is_nat a.

(** The number written by the first [k] characters, all digits. *)
Fixpoint read_digits (k : nat) (acc : Z) (text : string) : option (Z * string) :=
  match k with
  | O => Some (acc, text)
  | S k' =>
      match text with
      | String a text' =>
          match digit a with
          | Some v => read_digits k' (10 * acc + v) text'
          | None => None
          end
      | EmptyString => None
      end
  end.

Definition read_field (c : ascii) (text : string) : option (Z * string) :=
  if decide (c = "Y"%char) then read_digits 4 0 text
  else
    match read_digits 2 0 text with
    | Some r => Some r
    | None => read_digits 1 0 text
    end.

Definition set_field (c : ascii) (v : Z) (t : datetime) : option datetime :=
  let within lo hi := (lo <=? v) && (v <=? hi) in
  if decide (c = "Y"%char) then
    Some (Datetime v (month t) (day t) (hour t) (minute t) (second t))
  else if decide (c = "m"%char) then
    if within 1 12
    then Some (Datetime (year t) v (day t) (hour t) (minute t) (second t)) else None
  else if decide (c = "d"%char) then
    if within 1 31
    then Some (Datetime (year t) (month t) v (hour t) (minute t) (second t)) else None
  else if decide (c = "H"%char) then
    if within 0 23
    then Some (Datetime (year t) (month t) (day t) v (minute t) (second t)) else None
  else if decide (c = "M"%char) then
    if within 0 59
    then Some (Datetime (year t) (month t) (day t) (hour t) v (second t)) else None
  else if decide (c = "S"%char) then
    if within 0 61
    then Some (Datetime (year t) (month t) (day t) (hour t) (minute t) v) else None
  else None.

Fixpoint parse_go (fmt text : string) (t : datetime) : option datetime :=
  match fmt with
  | EmptyString =>
      match text with
      | EmptyString =>
          if Calendar.valid_date (year t) (month t) (day t) then Some t else None
      | _ => None
      end
  | String a rest =>
      if decide (a = "%"%char) then
        match rest with
        | String c rest' =>
            match read_field c text with
            | Some (v, text') =>
                match set_field c v t with
                | Some t' => parse_go rest' text' t'
                | None => None
                end
            | None => None
            end
        | EmptyString => None
        end
      else
        match text with
        | String b text' => if decide (a = b) then parse_go rest text' t else None
        | EmptyString => None
        end
  end.

Definition parse (text fmt : string) : Res datetime :=
  match parse_go fmt text (Datetime 1900 1 1 0 0 0) with
  | Some t => Ok t
  | None =>
      Raise (Exn "ValueError"
                 (fstr ["time data '"; text; "' does not match format '"; fmt; "'"]))
  end.

Global Instance py_datetime : PyDatetime :=
  {| strptime := parse; strftime := format_go |}.

End Reference.

(** * Vocabulary of the properties *)

(** ** Reading traces *)

Definition is_query (e : Event) : bool :=
  match e with EvQuery _ => true | _ => false end.

(** A calendar mutation is a script handed to AppleScript. *)
Definition is_mutation (e : Event) : bool :=
  match e with EvAppleScript _ _ _ => true | _ => false end.

Definition is_make (e : Event) : bool :=
  match e with EvAppleScript MakeEvent _ _ => true | _ => false end.

Definition is_delete (e : Event) : bool :=
  match e with EvAppleScript DeleteEvent _ _ => true | _ => false end.

Definition is_save (e : Event) : bool :=
  match e with EvSave _ => true | _ => false end.

Definition is_log (e : Event) : bool :=
  match e with EvLog _ _ => true | _ => false end.

Definition is_error (e : Event) : bool :=
  match e with EvLog ERROR _ => true | _ => false end.

(** The events of a trace that satisfy a test, in order. *)
Definition only (p : Event → bool) (t : list Event) : list Event :=
  List.filter p t.

Definition mutations := only is_mutation.

Definition queries_of := only is_query.

(** What a trace shows once the log lines are set aside. *)
Definition effects := only (λ e, negb (is_log e)).

(** Events that are neither a query, nor a deletion, nor a save: all that
    creating an event may leave in the trace. *)
Definition creation_event (e : Event) : Prop :=
  is_query e = false ∧ is_delete e = false ∧ is_save e = false.

(** Events of a phase of the run: anything but a query. *)
Definition phase_event (e : Event) : Prop := is_query e = false.

(** Events of the addition phase: no query, no deletion. *)
Definition addition_event (e : Event) : Prop :=
  is_query e = false ∧ is_delete e = false.

(** Events of the removal phase: no query, no creation. *)
Definition removal_event (e : Event) : Prop :=
  is_query e = false ∧ is_make e = false.

(** ** A weakest-precondition reading of [M]

    [wp m st Q]: running [m] from [st] ends in a result, a state and a
    trace that satisfy [Q]. *)

Definition wp {A} (m : M A) (st : State)
    (Q : Res A → State → list Event → Prop) : Prop :=
  Q (result (m st)) (final (m st)) (events (m st)).

(** Two computations that differ by log lines only. *)
Definition same_effects {A} (m1 m2 : M A) : Prop :=
  ∀ st,
    result (m1 st) = result (m2 st) ∧ final (m1 st) = final (m2 st) ∧
    effects (events (m1 st)) = effects (events (m2 st)).

(** ** The reconciler of the specification *)

(** What the addition phase may have done to the row of one id: nothing,
    or the row of [rows] written under an id that was free. *)
Definition added_or_kept (before after : DataFrame)
    (rows : list (string * Series)) (id : string) : Prop :=
  after !! id = before !! id ∨
  before !! id = None ∧
  ∃ row event_id,
    (id, row) ∈ rows ∧
    after !! id
      = Some (Pd.reindex Database.columns (<["event_id" := event_id]> row)).

(** The three sets of the reconciler, each listed in some order. *)
Definition computeNew (stored live : DataFrame) : list string :=
  Database.index_difference live stored.

Definition computeDeleted (stored live : DataFrame) : list string :=
  Database.index_difference stored live.

Definition computeModified (stored live : DataFrame) : list string :=
  Pd.index_where (Database.modified_filter live) stored.

(** A CLASSIFY step: a pure function of the stored table and of the live
    snapshot. *)
Definition classify (compute : DataFrame → DataFrame → list string)
    (live : DataFrame) : M (list string) :=
  stored ← get_df; mret (compute stored live).

Section Reconciler.
Context `{PD : PyDatetime} (env : Env) (id_ apple_calendar : string).

(** The state machine of the run orchestrator,
    FETCH_LIVE, CLASSIFY_NEW, APPLY_NEW, CLASSIFY_DELETED, APPLY_DELETED,
    CLASSIFY_MODIFIED, APPLY_MODIFIED, DONE:
    one fetch, then the three phases on that one snapshot. *)
Definition run_by_phases : M unit :=
  live ← Database.get_live env id_;
  new ← classify computeNew live;
  Database.add_events env id_ apple_calendar new (Some live);;
  deleted ← classify computeDeleted live;
  Database.remove_events env apple_calendar deleted;;
  modified ← classify computeModified live;
  Database.modify_events env id_ apple_calendar modified (Some live).

End Reconciler.

(** How the mask of [get_modified] compares two cells: they count as
    different when they are, and also when either of them is missing. *)
Definition differs_or_missing (a b : cell) : Prop :=
  a = Null ∨ b = Null ∨ a ≠ b.

(** ** Escaped texts *)

(** Replacing characters by texts, one character at a time. *)
Fixpoint expand (f : ascii → string) (s : string) : string :=
  match s with
  | EmptyString => EmptyString
  | String a s' => f a +:+ expand f s'
  end.

Definition replacing (c : ascii) (new : string) (a : ascii) : string :=
  if decide (c = a) then new else String a EmptyString.

(** The characters of a text. *)
Definition chars (s : string) : list ascii := String.list_ascii_of_string s.

(** Neither a newline nor a carriage return. *)
Definition line_char (a : ascii) : Prop := a ≠ "010"%char ∧ a ≠ "013"%char.

(** A text in which quotes and backslashes only occur escaped: a sequence
    of plain characters, of doubled backslashes and of quotes that follow a
    backslash. *)
Fixpoint well_escaped (s : string) : bool :=
  match s with
  | EmptyString => true
  | String a s' =>
      if decide (a = "092"%char) then
        match s' with
        | String b s'' =>
            (bool_decide (b = "092"%char) || bool_decide (b = "034"%char))
            && well_escaped s''
        | EmptyString => false
        end
      else if decide (a = "034"%char) then false
      else well_escaped s'
  end.

(** Reading an escaped text back, the way a double-quoted literal is read:
    a backslash stands for the character that follows it. *)
Fixpoint unescape (s : string) : string :=
  match s with
  | EmptyString => EmptyString
  | String a s' =>
      if decide (a = "092"%char) then
        match s' with
        | String b s'' => String b (unescape s'')
        | EmptyString => EmptyString
        end
      else String a (unescape s')
  end.

(** ** Doubles *)

(** Two rows that the duplicate guard of [add_events] takes for one event:
    the title, the start and the end of the one are present and equal to
    those of the other. *)
Definition same_slot (a b : Series) : bool :=
  Database.same_event
    (Pd.col a "title") (Pd.col a "start_date") (Pd.col a "end_date") b.


(** No two rows of the table stand for one event. *)
Definition distinct_events (d : DataFrame) : Prop :=
  ∀ i j a b, d !! i = Some a → d !! j = Some b → i ≠ j → same_slot a b = false.

(** The duplicate guard of [add_events] skips none of the new entries of
    the snapshot: no new entry has the title, the start and the end of a
    stored row, nor those of another new entry (which the guard would find
    stored when it comes to the second of the two). *)
Definition guard_skips_none (stored live : DataFrame) : bool :=
  let new := computeNew stored live in
  forallb (λ id,
    match live !! id with
    | Some s =>
        negb (Pd.any_row (same_slot s) stored)
        && forallb (λ j,
             bool_decide (j = id)
             || match live !! j with
                | Some s' => negb (same_slot s s')
                | None => true
                end) new
    | None => true
    end) new.

(** ** Handles *)

(** The handle [add_event] draws from the answer of its script: the last
    word of the output, or [None] when there is no output. *)
Definition returned_handle (r : AppleResult) : cell :=
  if Py.truthy (out r) then
    match CalendarClient.last_token (out r) with
    | Ok w => Str w
    | Raise _ => Null
    end
  else Null.

(** ** Tables and collaborators of the scenarios *)

Module Fixtures.

Definition ts (d h : Z) : cell := Ts (Datetime 2024 1 d h 0 0).

(** A row of the stored table. *)
Definition stored_row (last_edit title start_date end_date : cell)
    (event_id : string) : Series :=
  list_to_map [("last_edit", last_edit); ("start_date", start_date);
               ("end_date", end_date); ("title", title);
               ("event_id", Str event_id)].

(** A row of the live table. *)
Definition live_row (last_edit title start_date end_date : cell) : Series :=
  list_to_map [("last_edit", last_edit); ("start_date", start_date);
               ("end_date", end_date); ("title", title);
               ("url", Str ""); ("description", Str "")].

(** A Notion page with a title, an edit time and a start. *)
Definition page (id title edited start : string) : Page :=
  {| page_id := id; name_title := [title];
     page_last_edited_time := Some edited;
     date_prop := Some (Some start, None);
     url_prop := None; description_rich := [] |}.

(** A calendar on which every script succeeds and returns a fresh id. *)
Definition obliging (n : nat) (cmd : string) : AppleResult :=
  {| out := "event id E" +:+ pretty n; err := "" |}.

Definition clock : datetime := Datetime 2026 11 3 12 0 0.

Definition state_of (table : DataFrame) : State :=
  {| df := table; csv := table; queries := 0; scripts := 0 |}.

(** What shows of an event when its texts are set aside. *)
Inductive Kind := Query | Make | Delete | Save | Log (lvl : Level).

Definition kind (e : Event) : Kind :=
  match e with
  | EvQuery _ => Query
  | EvAppleScript MakeEvent _ _ => Make
  | EvAppleScript DeleteEvent _ _ => Delete
  | EvSave _ => Save
  | EvLog lvl _ => Log lvl
  end.

(** Notion has no card. *)
Definition env_quiet : Env :=
  {| notion_query := λ _ _, Ok []; applescript_run := obliging; now := clock;
     pdb_continues := false |}.





(** The stored entry X was deleted on Notion, where B now has its title
    and its dates. *)
Definition env_recreated : Env :=
  {| notion_query := λ _ _,
       Ok [page "B" "Trip" "2024-01-05T10:00:00.000Z" "2024-01-01"];
     applescript_run := obliging; now := clock;
     pdb_continues := false |}.

Definition stored_trip : DataFrame :=
  {[ "X" := stored_row (ts 1 8) (Str "Trip") (ts 1 0) (ts 1 0) "h1" ]}.

Definition live_trip : DataFrame :=
  {[ "B" := live_row (Ts (Datetime 2024 1 5 10 0 0)) (Str "Trip") (ts 1 0) (ts 1 0) ]}.

(** A was edited on Notion, B was created there, and Z was deleted. *)
Definition env_two_cards : Env :=
  {| notion_query := λ _ _,
       Ok [page "A" "Trip v2" "2024-01-02T09:00:00.000Z" "2024-01-05";
           page "B" "Dentist" "2024-01-03T10:00:00.000Z" "2024-01-07T14:30:00.000+01:00"];
     applescript_run := obliging; now := clock;
     pdb_continues := false |}.

Definition stored_two : DataFrame :=
  {[ "A" := stored_row (ts 1 8) (Str "Trip") (ts 5 0) (ts 5 0) "h1";
     "Z" := stored_row (ts 1 8) (Str "Gone") (ts 9 0) (ts 9 0) "h2" ]}.

Definition live_two : DataFrame :=
  {[ "A" := live_row (ts 2 9) (Str "Trip v2") (ts 5 0) (ts 5 0);
     "B" := live_row (ts 3 10) (Str "Dentist")
              (Ts (Datetime 2024 1 7 14 30 0)) (Ts (Datetime 2024 1 7 14 30 0)) ]}.

(** Two stored entries, and the same two edited on Notion. *)
Definition stored_pair : DataFrame :=
  {[ "A" := stored_row (ts 1 8) (Str "Trip") (ts 5 0) (ts 5 0) "h1";
     "B" := stored_row (ts 1 9) (Str "Dentist") (ts 7 0) (ts 7 0) "h2" ]}.

Definition live_pair : DataFrame :=
  {[ "A" := live_row (ts 2 9) (Str "Trip v2") (ts 5 0) (ts 5 0);
     "B" := live_row (ts 2 9) (Str "Dentist v2") (ts 7 0) (ts 7 0) ]}.

(** A calendar that fails on the script numbered [k] and succeeds on the
    others. *)
Definition failing_at (k : nat) (message : string) (n : nat) (cmd : string)
  : AppleResult :=
  if (n =? k)%nat then {| out := ""; err := message |} else obliging n cmd.

(** The calendar deletes the old event of A, then refuses to create the
    new one. *)
Definition env_refusing : Env :=
  {| notion_query := λ _ _, Ok [];
     applescript_run := failing_at 1 "execution error"; now := clock;
     pdb_continues := false |}.

(** The calendar refuses the first creation. *)
Definition env_refusing_first : Env :=
  {| notion_query := λ _ _, Ok [];
     applescript_run := failing_at 0 "execution error"; now := clock;
     pdb_continues := false |}.

(** The calendar fails to delete the first event it is asked to. *)
Definition env_failing_delete : Env :=
  {| notion_query := λ _ _, Ok [];
     applescript_run := failing_at 0 "event not found"; now := clock;
     pdb_continues := false |}.

(** The script of that deletion. *)
Definition failed_script : string :=
  Eval vm_compute in
    match events (CalendarClient.delete_event env_failing_delete "Home"
                    (Str "h1") (state_of stored_pair)) with
    | EvAppleScript _ cmd _ :: _ => cmd
    | _ => ""
    end.

(** A page whose title property is empty. *)
Definition untitled_page : Page :=
  {| page_id := "U"; name_title := [];
     page_last_edited_time := Some "2024-01-02T09:00:00.000Z";
     date_prop := Some (Some "2024-01-05", None);
     url_prop := None; description_rich := [] |}.

Definition env_untitled : Env :=
  {| notion_query := λ _ _, Ok [untitled_page];
     applescript_run := obliging; now := clock;
     pdb_continues := false |}.

(** An entry that ended in January 2024, long before [clock], and is
    still on Notion, unchanged. *)
Definition env_past : Env :=
  {| notion_query := λ _ _,
       Ok [page "A" "Trip" "2024-01-01T08:00:00.000Z" "2024-01-05"];
     applescript_run := obliging; now := clock;
     pdb_continues := false |}.

Definition stored_past : DataFrame :=
  {[ "A" := stored_row (ts 1 8) (Str "Trip") (ts 5 0) (ts 5 0) "h1" ]}.

(** The pages of [env_two_cards]. *)
Definition two_pages : list Page :=
  [page "A" "Trip v2" "2024-01-02T09:00:00.000Z" "2024-01-05";
   page "B" "Dentist" "2024-01-03T10:00:00.000Z" "2024-01-07T14:30:00.000+01:00"].

(** Notion cannot be reached. *)
Definition env_offline : Env :=
  {| notion_query := λ _ _, Raise (Exn "Exception" "Service Unavailable");
     applescript_run := obliging; now := clock;
     pdb_continues := false |}.

(** A page with a title and no date property, after a page in good
    order. *)
Definition undated_page : Page :=
  {| page_id := "N"; name_title := ["Note"];
     page_last_edited_time := Some "2024-01-02T09:00:00.000Z";
     date_prop := None; url_prop := None; description_rich := [] |}.

Definition env_undated : Env :=
  {| notion_query := λ _ _,
       Ok [page "A" "Trip" "2024-01-01T08:00:00.000Z" "2024-01-05"; undated_page];
     applescript_run := obliging; now := clock;
     pdb_continues := false |}.

(** The snapshot of [env_past]. *)
Definition live_past : DataFrame :=
  {[ "A" := live_row (ts 1 8) (Str "Trip") (ts 5 0) (ts 5 0) ]}.

(** The snapshot of [env_untitled]. *)
Definition live_of_untitled : DataFrame :=
  {[ "U" := live_row Null Null Null Null ]}.

End Fixtures.

(** * Verification *)

(** ** Reading traces *)

Lemma only_app p t1 t2 : only p (t1 ++ t2) = only p t1 ++ only p t2.
Proof. apply List.filter_app. Qed.

Lemma only_nil_iff p t : only p t = [] ↔ Forall (λ e, p e = false) t.
Proof.
  induction t as [|e t IH]; simpl.
  - split; [constructor | done].
  - destruct (p e) eqn:E; split.
    + discriminate.
    + inversion 1; congruence.
    + intros Ht. constructor; [done | by apply IH].
    + inversion 1; subst. by apply IH.
Qed.

(** ** Running computations *)

Lemma run_bind {A B} (m : M A) (f : A → M B) st :
  (m ≫= f) st =
  match result (m st) with
  | Ok a =>
      {| result := result (f a (final (m st)));
         final := final (f a (final (m st)));
         events := events (m st) ++ events (f a (final (m st))) |}
  | Raise e =>
      {| result := Raise e; final := final (m st); events := events (m st) |}
  end.
Proof. reflexivity. Qed.

(** A loop of log lines changes nothing and cannot fail. *)
Lemma for_each_log {X} (xs : list X) lvl (msg : X → string) st :
  for_each xs (λ x, log lvl (msg x)) st =
  {| result := Ok tt; final := st; events := (λ x, EvLog lvl (msg x)) <$> xs |}.
Proof.
  induction xs as [|x xs IH]; [done|].
  simpl. rewrite run_bind. simpl. by rewrite IH.
Qed.

(** ** Tables *)

Lemma elem_of_index_where mask (d : DataFrame) id :
  id ∈ Pd.index_where mask d ↔ ∃ row, d !! id = Some row ∧ mask id row = true.
Proof.
  unfold Pd.index_where. rewrite list_elem_of_fmap. split.
  - intros [[i row] [-> Hin]]. apply list_elem_of_filter in Hin as [Hm Hin].
    exists row. split; [by apply elem_of_map_to_list | done].
  - intros (row & Hl & Hm). exists (id, row). split; [done|].
    apply list_elem_of_filter. split; [done | by apply elem_of_map_to_list].
Qed.

Lemma NoDup_index_where mask (d : DataFrame) : NoDup (Pd.index_where mask d).
Proof.
  unfold Pd.index_where.
  apply (NoDup_fmap_2_strong fst).
  - intros [i1 r1] [i2 r2] H1%list_elem_of_filter H2%list_elem_of_filter Heq.
    simpl in Heq. subst i2. destruct H1 as [_ H1], H2 as [_ H2].
    apply elem_of_map_to_list in H1, H2. congruence.
  - apply NoDup_filter, NoDup_map_to_list.
Qed.

Lemma index_where_nil mask (d : DataFrame) :
  (∀ id row, d !! id = Some row → mask id row = false) →
  Pd.index_where mask d = [].
Proof.
  intros Hall. destruct (Pd.index_where mask d) as [|id l] eqn:E; [done|].
  assert (id ∈ Pd.index_where mask d) as Hin by (rewrite E; left).
  apply elem_of_index_where in Hin as (row & Hl & Hm).
  rewrite (Hall _ _ Hl) in Hm. done.
Qed.

(** ** Rules of the weakest-precondition reading *)

Lemma wp_conseq {A} (m : M A) st (Q Q' : Res A → State → list Event → Prop) :
  wp m st Q → (∀ r s ev, Q r s ev → Q' r s ev) → wp m st Q'.
Proof. unfold wp. auto. Qed.

Lemma wp_ret {A} (a : A) st (Q : Res A → State → list Event → Prop) :
  Q (Ok a) st [] → wp (mret a) st Q.
Proof. done. Qed.

Lemma wp_raise {A} e st (Q : Res A → State → list Event → Prop) :
  Q (Raise e) st [] → wp (raise e) st Q.
Proof. done. Qed.

Lemma wp_lift {A} (r : Res A) st (Q : Res A → State → list Event → Prop) :
  Q r st [] → wp (lift r) st Q.
Proof. by destruct r. Qed.

Lemma wp_emit e st (Q : Res unit → State → list Event → Prop) :
  Q (Ok tt) st [e] → wp (emit e) st Q.
Proof. done. Qed.

Lemma wp_log lvl msg st (Q : Res unit → State → list Event → Prop) :
  Q (Ok tt) st [EvLog lvl msg] → wp (log lvl msg) st Q.
Proof. done. Qed.

Lemma wp_get_df st (Q : Res DataFrame → State → list Event → Prop) :
  Q (Ok (df st)) st [] → wp get_df st Q.
Proof. done. Qed.

Lemma wp_set_df d st (Q : Res unit → State → list Event → Prop) :
  Q (Ok tt) {| df := d; csv := csv st; queries := queries st;
               scripts := scripts st |} [] →
  wp (set_df d) st Q.
Proof. done. Qed.

Lemma wp_bind {A B} (m : M A) (f : A → M B) st
    (Q : Res B → State → list Event → Prop) :
  wp m st (λ r s ev,
    match r with
    | Ok a => wp (f a) s (λ r' s' ev', Q r' s' (ev ++ ev'))
    | Raise e => Q (Raise e) s ev
    end) →
  wp (m ≫= f) st Q.
Proof. unfold wp. rewrite run_bind. by destruct (result (m st)). Qed.

Lemma wp_try {A} (body : M A) handler st
    (Q : Res A → State → list Event → Prop) :
  wp body st (λ r s ev,
    match r with
    | Ok a => Q (Ok a) s ev
    | Raise e => wp (handler e) s (λ r' s' ev', Q r' s' (ev ++ ev'))
    end) →
  wp (try_except body handler) st Q.
Proof.
  unfold wp, try_except.
  destruct (result (body st)) eqn:E; [by rewrite E | done].
Qed.

Lemma wp_for_each_log {X} (xs : list X) lvl (msg : X → string) st
    (Q : Res unit → State → list Event → Prop) :
  Q (Ok tt) st ((λ x, EvLog lvl (msg x)) <$> xs) →
  wp (for_each xs (λ x, log lvl (msg x))) st Q.
Proof. unfold wp. by rewrite for_each_log. Qed.

(** One step of symbolic execution. *)
Ltac wp_step :=
  cbv beta iota zeta;
  lazymatch goal with
  | |- wp (mbind _ _) _ _ => apply wp_bind
  | |- wp (mret _) _ _ => apply wp_ret
  | |- wp (ret _) _ _ => apply (wp_ret (A := _))
  | |- wp (raise _) _ _ => apply wp_raise
  | |- wp (lift _) _ _ => apply wp_lift
  | |- wp (log _ _) _ _ => apply wp_log
  | |- wp (emit _) _ _ => apply wp_emit
  | |- wp get_df _ _ => apply wp_get_df
  | |- wp (set_df _) _ _ => apply wp_set_df
  | |- wp (try_except _ _) _ _ => apply wp_try
  | |- wp (for_each _ (λ x, log _ _)) _ _ => apply wp_for_each_log
  end; cbv beta iota.

Lemma creation_phase e : creation_event e → phase_event e.
Proof. by intros [? _]. Qed.

Create HintDb trace.
#[local] Hint Resolve Forall_nil Forall_cons Forall_app_2 : trace.
#[local] Hint Extern 1 (creation_event _) => (repeat split; reflexivity) : trace.
#[local] Hint Extern 1 (phase_event _) => reflexivity : trace.

(** ** The calendar client *)

Section CalendarClientFacts.
Context `{PyDatetime} (env : Env) (name : string).

Lemma wp_run_script op cmd st (Q : Res AppleResult → State → list Event → Prop) :
  Q (Ok (applescript_run env (scripts st) cmd))
    {| df := df st; csv := csv st; queries := queries st;
       scripts := S (scripts st) |}
    [EvAppleScript op cmd (applescript_run env (scripts st) cmd)] →
  wp (CalendarClient.run_script env op cmd) st Q.
Proof. done. Qed.

(** [delete_event] returns whatever AppleScript answers: it runs one
    script, writes one log line, an error line if the script failed, and
    touches neither the table nor the file. *)
Lemma delete_event_spec h st :
  wp (CalendarClient.delete_event env name h) st (λ r s ev,
    r = Ok tt ∧ df s = df st ∧ csv s = csv st ∧
    ∃ cmd lvl msg,
      ev = [EvAppleScript DeleteEvent cmd (applescript_run env (scripts st) cmd);
            EvLog lvl msg] ∧
      (lvl = ERROR ↔ Py.truthy (err (applescript_run env (scripts st) cmd)) = true)).
Proof.
  unfold CalendarClient.delete_event.
  wp_step. apply wp_run_script. cbv beta iota.
  destruct (Py.truthy _) eqn:E; wp_step;
    (split; [done|]); (split; [done|]); (split; [done|]);
    eexists _, _, _; (split; [reflexivity|]); rewrite E; done.
Qed.

Lemma end_of_event_spec end_date start_time end_time st :
  wp (CalendarClient.end_of_event end_date start_time end_time) st (λ r s ev,
    s = st ∧ ev = []).
Proof.
  unfold CalendarClient.end_of_event.
  destruct (_ && _).
  - wp_step. wp_step. destruct (strptime _ _); [|done].
    wp_step. wp_step. destruct (Calendar.add_timedelta _ _ _); [|done].
    wp_step. wp_step. destruct (strptime _ _); [|done].
    by wp_step.
  - wp_step. wp_step. destruct (strptime _ _); [|done]. by wp_step.
Qed.

(** [add_event] never touches the table; its trace holds log lines and at
    most one script, which creates an event. *)
Lemma add_event_spec title sd ed stime etime url_str descr st :
  wp (CalendarClient.add_event env name title sd ed stime etime url_str descr) st
    (λ r s ev, df s = df st ∧ csv s = csv st ∧ Forall creation_event ev).
Proof.
  unfold CalendarClient.add_event.
  wp_step. wp_step. destruct (strptime _ _); [|by auto with trace].
  wp_step. eapply wp_conseq; [apply end_of_event_spec|].
  intros r s ev [-> ->]. destruct r as [[end_dt etime']|]; [|by auto with trace].
  do 2 (wp_step; wp_step). wp_step. wp_step. apply wp_run_script. cbv beta iota.
  destruct (Py.truthy (err _)).
  { do 2 (wp_step; wp_step). wp_step. wp_step. wp_step. wp_step. simpl.
    repeat split; auto 10 with trace. }
  destruct (Py.truthy (out _)).
  - wp_step. wp_step. destruct (CalendarClient.last_token _).
    + wp_step. wp_step. wp_step. simpl. repeat split; auto 10 with trace.
    + wp_step. wp_step. wp_step. simpl. repeat split; auto 10 with trace.
  - wp_step. wp_step. wp_step. simpl. repeat split; auto 10 with trace.
Qed.

End CalendarClientFacts.

(** ** The database *)

Section DatabaseFacts.
Context `{PD : PyDatetime} (env : Env) (id_ apple_calendar : string).

#[local] Abbreviation get_live := (Database.get_live env id_).
#[local] Abbreviation get_new := (Database.get_new env id_).
#[local] Abbreviation get_deleted := (Database.get_deleted env id_).
#[local] Abbreviation get_modified := (Database.get_modified env id_).
#[local] Abbreviation add_one := (Database.add_one env apple_calendar).
#[local] Abbreviation add_events := (Database.add_events env id_ apple_calendar).
#[local] Abbreviation remove_event := (Database.remove_event env apple_calendar).
#[local] Abbreviation remove_events := (Database.remove_events env apple_calendar).
#[local] Abbreviation modify_event := (Database.modify_event env apple_calendar).
#[local] Abbreviation modify_events := (Database.modify_events env id_ apple_calendar).
#[local] Abbreviation run := (Database.run env id_ apple_calendar).
#[local] Abbreviation run_by_phases := (run_by_phases env id_ apple_calendar).

(** The row [df.loc[id] = row] writes once [row] has its event id. *)
#[local] Abbreviation written_row :=
  (λ row event_id, Pd.reindex Database.columns (<["event_id" := event_id]> row)).

(** *** Classification *)

Lemma elem_of_index_difference (a b : DataFrame) id :
  id ∈ Database.index_difference a b ↔ id ∈ dom a ∧ id ∉ dom b.
Proof.
  unfold Database.index_difference.
  by rewrite elem_of_elements, elem_of_difference.
Qed.

Lemma NoDup_index_difference (a b : DataFrame) :
  NoDup (Database.index_difference a b).
Proof. apply NoDup_elements. Qed.

Lemma index_difference_nil (a b : DataFrame) :
  dom a ⊆ dom b → Database.index_difference a b = [].
Proof.
  intros Hsub. unfold Database.index_difference.
  apply elements_empty_iff. intros id. split; [|by intros ?%not_elem_of_empty].
  intros [Ha Hb]%elem_of_difference. by destruct Hb; apply Hsub.
Qed.

(** With the live table at hand the three classifications read the stored
    table, write log lines, and change nothing. *)
Lemma get_new_spec live st :
  wp (get_new (Some live)) st (λ r s ev,
    r = Ok (Database.index_difference live (df st)) ∧ s = st ∧
    Forall (λ e, is_log e = true) ev).
Proof.
  unfold Database.get_new, Database.or_live.
  do 2 (wp_step; wp_step). wp_step. wp_step. wp_step. wp_step.
  repeat split. constructor; [done|]. rewrite app_nil_r.
  apply Forall_fmap, Forall_true. done.
Qed.

Lemma get_deleted_spec live st :
  wp (get_deleted (Some live)) st (λ r s ev,
    r = Ok (Database.index_difference (df st) live) ∧ s = st ∧
    Forall (λ e, is_log e = true) ev).
Proof.
  unfold Database.get_deleted, Database.or_live.
  do 2 (wp_step; wp_step). wp_step. wp_step. wp_step. wp_step.
  repeat split. constructor; [done|]. rewrite app_nil_r.
  apply Forall_fmap, Forall_true. done.
Qed.

Lemma get_modified_spec live st :
  wp (get_modified (Some live)) st (λ r s ev,
    r = Ok (Pd.index_where (Database.modified_filter live) (df st)) ∧ s = st ∧
    Forall (λ e, is_log e = true) ev).
Proof.
  unfold Database.get_modified, Database.or_live.
  do 2 (wp_step; wp_step). wp_step. wp_step. wp_step. wp_step.
  repeat split. constructor; [done|]. rewrite app_nil_r.
  apply Forall_fmap, Forall_true. done.
Qed.

Lemma logs_no_effects logs :
  Forall (λ e, is_log e = true) logs → effects logs = [].
Proof.
  intros Hl. apply only_nil_iff. eapply Forall_impl; [exact Hl|].
  intros e He. by rewrite He.
Qed.

Lemma logs_phase logs :
  Forall (λ e, is_log e = true) logs → Forall phase_event logs.
Proof. intros Hl. eapply Forall_impl; [exact Hl|]. by intros []. Qed.

(** *** Fetching *)

Lemma wp_query st (Q : Res (list Page) → State → list Event → Prop) :
  Q (notion_query env (queries st) id_)
    {| df := df st; csv := csv st; queries := S (queries st);
       scripts := scripts st |}
    [EvQuery id_] →
  wp (NotionClient.query env id_) st Q.
Proof. done. Qed.

(** [get_live] asks Notion once, first of all, and leaves the table, the
    file and the calendar alone. *)
Lemma get_live_spec st :
  wp get_live st (λ r s ev,
    df s = df st ∧ csv s = csv st ∧
    ∃ logs, ev = EvQuery id_ :: logs ∧ Forall (λ e, is_log e = true) logs).
Proof.
  unfold Database.get_live, NotionClient.get_live_cards.
  wp_step. wp_step. wp_step. apply wp_query.
  destruct (notion_query env (queries st) id_) as [pages|e].
  - wp_step. destruct (NotionClient.cards_of env pages) as [cards|e].
    + destruct (0 <? _)%nat; wp_step;
        (do 2 (split; [done|])); eexists; (split; [reflexivity|]); constructor.
    + (do 2 (split; [done|])); eexists; (split; [reflexivity|]); constructor.
  - wp_step. wp_step. wp_step.
    (do 2 (split; [done|])); eexists; (split; [reflexivity|]).
    by repeat constructor.
Qed.

(** *** Rows written to the table *)

Lemma lookup_reindex cols (s : Series) label :
  Pd.reindex cols s !! label =
  if decide (label ∈ cols) then Some (Pd.col s label) else None.
Proof.
  unfold Pd.reindex. induction cols as [|c cols IH].
  - rewrite fmap_nil, list_to_map_nil, lookup_empty. case_decide as Hin; [by apply elem_of_nil in Hin | done].
  - rewrite fmap_cons, list_to_map_cons, lookup_insert. cbn [fst snd].
    destruct (decide (c = label)) as [->|Hne].
    + destruct (decide (label ∈ label :: cols)) as [|Hn]; [done|].
      destruct Hn. left.
    + rewrite IH.
      destruct (decide (label ∈ cols)) as [Hin|Hn],
               (decide (label ∈ c :: cols)) as [Hin'|Hn']; try done.
      * destruct Hn'. by right.
      * apply elem_of_cons in Hin' as [|]; congruence.
Qed.

Lemma col_written_row (row : Series) event_id label :
  label ∈ Database.columns → label ≠ "event_id" →
  Pd.col (written_row row event_id) label = Pd.col row label.
Proof.
  intros Hin Hne. unfold Pd.col at 1, Pd.getattr.
  rewrite lookup_reindex, decide_True by done.
  unfold Pd.col, Pd.getattr. by rewrite lookup_insert_ne.
Qed.

(** A row taken over from the live table is not modified with respect to
    it. *)
Lemma modified_filter_written_row live id row event_id :
  live !! id = Some row →
  Database.modified_filter live id (written_row row event_id) = false.
Proof.
  intros Hl. unfold Database.modified_filter. rewrite Hl.
  rewrite !col_written_row by (done || set_solver).
  unfold Pd.ne. destruct (Pd.isna (Pd.col row "last_edit")) eqn:E.
  - by rewrite !andb_false_r.
  - rewrite bool_decide_true by done. done.
Qed.

(** *** Additions *)

Lemma creation_addition e : creation_event e → addition_event e.
Proof. by intros (? & ? & _). Qed.

#[local] Hint Extern 1 (addition_event _) => (split; reflexivity) : trace.

Lemma wp_save st (Q : Res unit → State → list Event → Prop) :
  Q (Ok tt) {| df := df st; csv := df st; queries := queries st;
               scripts := scripts st |} [EvSave (df st)] →
  wp Database.save st Q.
Proof. done. Qed.

Lemma wp_set_row id s st (Q : Res unit → State → list Event → Prop) :
  Q (Ok tt) {| df := <[id := Pd.reindex Database.columns s]> (df st);
               csv := csv st; queries := queries st; scripts := scripts st |} [] →
  wp (Database.set_row id s) st Q.
Proof. done. Qed.

(** One round of [add_events] never fails; it leaves the table as it is or
    adds the row of the entry under a fresh id, with the handle the
    calendar returned. *)
Lemma add_one_spec id s counts st :
  wp (add_one (id, s) counts) st (λ r s' ev,
    is_ok r = true ∧
    (df s' = df st ∨
     df st !! id = None ∧
     ∃ event_id, df s' = <[id := written_row s event_id]> (df st)) ∧
    Forall addition_event ev).
Proof.
  unfold Database.add_one. destruct counts as [success_count error_count].
  wp_step. wp_step. wp_step. destruct (Pd.attr s "title") as [title|e]; cycle 1.
  { wp_step. wp_step. wp_step. simpl. auto 10 with trace. }
  wp_step. wp_step. destruct (Pd.attr s "start_date") as [start_date|e]; cycle 1.
  { wp_step. wp_step. wp_step. simpl. auto 10 with trace. }
  wp_step. wp_step. destruct (Pd.attr s "end_date") as [end_date|e]; cycle 1.
  { wp_step. wp_step. wp_step. simpl. auto 10 with trace. }
  wp_step. wp_step.
  destruct (Pd.any_row _ _).
  { wp_step. wp_step. wp_step. simpl. auto 10 with trace. }
  destruct (bool_decide (id ∈ dom (df st))) eqn:Hid.
  { wp_step. wp_step. wp_step. simpl. auto 10 with trace. }
  apply bool_decide_eq_false in Hid. apply not_elem_of_dom in Hid.
  wp_step. wp_step. eapply wp_conseq; [apply add_event_spec|].
  intros r s1 ev (Hdf & Hcsv & Hev). destruct r as [event_id|e]; cycle 1.
  { wp_step. wp_step. wp_step. rewrite Hdf, app_nil_r. simpl.
    split; [done|]. split; [by left|].
    apply Forall_app; split; [|auto with trace].
    eapply Forall_impl; [exact Hev | apply creation_addition]. }
  destruct (negb (Pd.truthy event_id)).
  { wp_step. wp_step. wp_step. wp_step. rewrite Hdf, app_nil_r. simpl.
    split; [done|]. split; [by left|].
    apply Forall_app; split; [|auto with trace].
    eapply Forall_impl; [exact Hev | apply creation_addition]. }
  wp_step. apply wp_set_row. cbv beta iota.
  wp_step. wp_step. wp_step. apply wp_save. cbv beta iota. wp_step.
  rewrite Hdf, !app_nil_r. simpl.
  split; [done|]. split; [right; eauto|].
  apply Forall_app; split; [|auto with trace].
  eapply Forall_impl; [exact Hev | apply creation_addition].
Qed.

Lemma loc_list_rows (live : DataFrame) list_id rows :
  Pd.loc_list live list_id = Ok rows →
  ∀ id row, (id, row) ∈ rows → id ∈ list_id ∧ live !! id = Some row.
Proof.
  revert rows. induction list_id as [|i l IH]; simpl; intros rows Hrows id row Hin.
  - injection Hrows as <-. by apply elem_of_nil in Hin.
  - destruct (live !! i) as [r|] eqn:Hi; [|done].
    destruct (Pd.loc_list live l) as [rs|]; [|done].
    injection Hrows as <-. apply elem_of_cons in Hin as [[= -> ->]|Hin].
    + split; [left | done].
    + destruct (IH rs eq_refl id row Hin). split; [by right | done].
Qed.

Lemma loc_list_ok (live : DataFrame) list_id :
  (∀ id, id ∈ list_id → id ∈ dom live) → is_ok (Pd.loc_list live list_id) = true.
Proof.
  induction list_id as [|i l IH]; simpl; intros Hall; [done|].
  assert (i ∈ dom live) as [r Hr]%elem_of_dom by (apply Hall; left).
  rewrite Hr. destruct (Pd.loc_list live l) eqn:E; [done|].
  apply IH. intros id Hid. apply Hall. by right.
Qed.

Lemma add_loop_spec rows counts st :
  wp (for_fold rows counts add_one) st (λ r s' ev,
    is_ok r = true ∧
    (∀ id, added_or_kept (df st) (df s') rows id) ∧
    Forall addition_event ev).
Proof.
  revert counts st.
  induction rows as [|[i s] rows IH]; intros counts st; cbn [for_fold].
  - wp_step. split; [done|]. split; [by left | constructor].
  - wp_step. eapply wp_conseq; [apply add_one_spec|].
    intros r s1 ev (Hok & Hdf & Hev). destruct r as [counts'|]; [|done].
    eapply wp_conseq; [apply IH|].
    intros r' s2 ev' (Hok' & Hdf' & Hev'). split; [done|].
    split; [|by apply Forall_app].
    intros id. unfold added_or_kept in *.
    destruct (Hdf' id) as [Hkept | (Hnone & row & eid & Hin & Hrow)].
    + rewrite Hkept. destruct Hdf as [-> | (Hfree & eid & ->)]; [by left|].
      destruct (decide (i = id)) as [->|Hne].
      * right. split; [done|]. exists s, eid. rewrite lookup_insert_eq.
        split; [left | done].
      * left. by rewrite lookup_insert_ne.
    + right. destruct Hdf as [E | (Hfree & eid' & E)]; rewrite E in Hnone.
      * split; [done|]. exists row, eid. split; [by right | done].
      * apply lookup_insert_None in Hnone as [Hnone _].
        split; [done|]. exists row, eid. split; [by right | done].
Qed.

(** [add_events] with the live table at hand: rows are only added, under
    free ids of the list, as copies of the live rows; the phase fails only
    on an id the live table lacks. *)
Lemma add_events_spec list_id live st :
  wp (add_events list_id (Some live)) st (λ r s' ev,
    (∀ id,
       df s' !! id = df st !! id ∨
       df st !! id = None ∧ id ∈ list_id ∧
       ∃ row event_id,
         live !! id = Some row ∧ df s' !! id = Some (written_row row event_id)) ∧
    ((∀ id, id ∈ list_id → id ∈ dom live) → r = Ok tt) ∧
    Forall addition_event ev).
Proof.
  unfold Database.add_events, Database.or_live.
  destruct list_id as [|i l] eqn:El.
  { wp_step. split; [by left|]. split; [done | constructor]. }
  rewrite <- El. clear El i l.
  wp_step. wp_step. wp_step. wp_step.
  destruct (Pd.loc_list live list_id) as [rows|e] eqn:Hrows.
  2:{ split; [by left|]. split; [|constructor].
      intros Hall%loc_list_ok. by rewrite Hrows in Hall. }
  wp_step. eapply wp_conseq; [apply add_loop_spec|].
  intros r s1 ev (Hok & Hdf & Hev). destruct r as [[success_count error_count]|]; [|done].
  assert (∀ id,
    df s1 !! id = df st !! id ∨
    df st !! id = None ∧ id ∈ list_id ∧
    ∃ row event_id,
      live !! id = Some row ∧ df s1 !! id = Some (written_row row event_id)) as Hrows'.
  { intros id. unfold added_or_kept in Hdf.
    destruct (Hdf id) as [?|(Hnone & row & eid & Hin & Hrow)]; [by left|].
    right. destruct (loc_list_rows _ _ _ Hrows _ _ Hin). eauto 10. }
  destruct (_ || _); wp_step; (do 2 (split; [done|]));
    rewrite ?app_nil_r; [apply Forall_app|]; auto with trace.
Qed.

(** *** Removals *)

#[local] Hint Extern 1 (removal_event _) => (split; reflexivity) : trace.

(** One round of [remove_events]: when the id is in the table, the script
    is run, its outcome is logged whatever it is, and the row is dropped;
    nothing is saved. *)
Lemma remove_event_spec id st :
  wp (remove_event id) st (λ r s' ev,
    Forall removal_event ev ∧ only is_save ev = [] ∧ csv s' = csv st ∧
    match df st !! id with
    | Some row =>
        r = Ok tt ∧ df s' = delete id (df st) ∧ length (mutations ev) = 1%nat
    | None => is_ok r = false ∧ df s' = df st ∧ ev = []
    end).
Proof.
  unfold Database.remove_event, Pd.loc_cell, Pd.drop.
  wp_step. wp_step. wp_step. wp_step.
  destruct (df st !! id) as [row|] eqn:Hrow; [|by (repeat split; try constructor)].
  wp_step. eapply wp_conseq; [apply delete_event_spec|].
  intros r s1 ev (-> & Hdf & Hcsv & cmd & lvl & msg & -> & _).
  wp_step. wp_step. wp_step. wp_step. rewrite Hdf, Hrow.
  wp_step. wp_step. wp_step.
  split; [repeat constructor|]. by repeat split.
Qed.

Lemma remove_loop_spec list_id st :
  wp (for_each list_id remove_event) st (λ r s' ev,
    Forall removal_event ev ∧ only is_save ev = [] ∧ csv s' = csv st ∧
    (NoDup list_id → (∀ id, id ∈ list_id → id ∈ dom (df st)) →
     r = Ok tt ∧
     (∀ id, df s' !! id = if decide (id ∈ list_id) then None else df st !! id) ∧
     length (mutations ev) = length list_id)).
Proof.
  revert st. induction list_id as [|i l IH]; intros st; cbn [for_each].
  - wp_step. split; [constructor|]. do 2 (split; [done|]).
    intros _ _. split; [done|]. split; [|done].
    intros id. by rewrite decide_False by apply not_elem_of_nil.
  - wp_step. eapply wp_conseq; [apply remove_event_spec|].
    intros r s1 ev (Hev & Hsave & Hcsv & Hrow).
    destruct r as [[]|e].
    2:{ do 3 (split; [done|]). intros _ Hall.
        assert (i ∈ dom (df st)) as [row Hi]%elem_of_dom by (apply Hall; left).
        rewrite Hi in Hrow. by destruct Hrow. }
    eapply wp_conseq; [apply IH|].
    intros r' s2 ev' (Hev' & Hsave' & Hcsv' & Hrest).
    split; [by apply Forall_app|].
    split; [by rewrite only_app, Hsave, Hsave'|].
    split; [by rewrite Hcsv'|].
    intros [Hi Hnd]%NoDup_cons Hall.
    assert (i ∈ dom (df st)) as [row Hrow']%elem_of_dom by (apply Hall; left).
    rewrite Hrow' in Hrow. destruct Hrow as (_ & Hdf1 & Hmut).
    destruct Hrest as (-> & Hdf2 & Hmut'); [done| |].
    { intros id Hid. rewrite Hdf1, dom_delete_L.
      apply elem_of_difference. split; [apply Hall; by right|].
      intros ->%elem_of_singleton. done. }
    split; [done|]. split.
    + intros id. rewrite Hdf2, Hdf1.
      destruct (decide (id ∈ l)) as [Hin|Hnin].
      * by rewrite decide_True by (by right).
      * destruct (decide (i = id)) as [->|Hne].
        -- rewrite lookup_delete_eq. by rewrite decide_True by left.
        -- rewrite lookup_delete_ne by done. rewrite decide_False; [done|].
           by intros [|]%elem_of_cons.
    + unfold mutations in *. rewrite only_app, length_app, Hmut, Hmut'. done.
Qed.

(** [remove_events]: the rows of the listed ids are gone whatever the
    calendar answered, and the table is saved once, after the last
    removal. *)
Lemma remove_events_spec list_id st :
  wp (remove_events list_id) st (λ r s' ev,
    Forall removal_event ev ∧
    (NoDup list_id → (∀ id, id ∈ list_id → id ∈ dom (df st)) →
     r = Ok tt ∧
     (∀ id, df s' !! id = if decide (id ∈ list_id) then None else df st !! id) ∧
     csv s' = df s' ∧
     ∃ before, ev = before ++ [EvSave (df s')] ∧ only is_save before = [] ∧
               length (mutations before) = length list_id)).
Proof.
  unfold Database.remove_events. wp_step.
  eapply wp_conseq; [apply remove_loop_spec|].
  intros r s1 ev (Hev & Hsave & Hcsv & Hrest). destruct r as [[]|e].
  - apply wp_save. cbv beta iota. split; [apply Forall_app; auto with trace|].
    intros Hnd Hall. destruct (Hrest Hnd Hall) as (_ & Hdf & Hmut).
    split; [done|]. split; [done|]. split; [done|]. eauto.
  - split; [done|]. intros Hnd Hall. by destruct (Hrest Hnd Hall).
Qed.

(** *** Modifications *)

(** One round of [modify_events]: a failure leaves the table as it was; a
    success replaces the row of an id the table has by the live row. *)
Lemma modify_event_spec live id st :
  wp (modify_event live id) st (λ r s' ev,
    Forall phase_event ev ∧
    match r with
    | Ok _ =>
        is_Some (df st !! id) ∧
        ∃ row event_id,
          live !! id = Some row ∧
          df s' = <[id := written_row row event_id]> (df st)
    | Raise _ => df s' = df st
    end).
Proof.
  unfold Database.modify_event, Pd.loc, Pd.loc_cell.
  wp_step. wp_step. destruct (live !! id) as [row|] eqn:Hlive; [|by split; [constructor|]].
  wp_step. wp_step. wp_step. wp_step.
  destruct (df st !! id) as [old|] eqn:Hold; [|by split; [constructor|]].
  wp_step. eapply wp_conseq; [apply delete_event_spec|].
  intros r s1 ev (-> & Hdf & Hcsv & cmd & lvl & msg & -> & _).
  wp_step. eapply wp_conseq; [apply add_event_spec|].
  intros r s2 ev (Hdf2 & Hcsv2 & Hev). destruct r as [new_event_id|e].
  - wp_step. apply wp_set_row. wp_step. wp_step.
    apply wp_save. cbv beta iota. cbn [app df]. split.
    + do 2 (constructor; [done|]). apply Forall_app. split.
      * eapply Forall_impl; [exact Hev | apply creation_phase].
      * by repeat constructor.
    + rewrite Hdf2, Hdf. split; [done|]. eauto.
  - cbn [app]. split; [|congruence].
    do 2 (constructor; [done|]).
    eapply Forall_impl; [exact Hev | apply creation_phase].
Qed.

Lemma modify_loop_spec live list_id st :
  wp (for_each list_id (modify_event live)) st (λ r s' ev,
    Forall phase_event ev ∧
    (∀ id, id ∉ list_id → df s' !! id = df st !! id) ∧
    (∀ id,
       df s' !! id = df st !! id ∨
       is_Some (df st !! id) ∧
       ∃ row event_id,
         live !! id = Some row ∧ df s' !! id = Some (written_row row event_id)) ∧
    (is_ok r = true → ∀ id, id ∈ list_id →
       ∃ row event_id,
         live !! id = Some row ∧ df s' !! id = Some (written_row row event_id))).
Proof.
  revert st. induction list_id as [|i l IH]; intros st; cbn [for_each].
  - wp_step. split; [constructor|]. split; [done|]. split; [by left|].
    intros _ id Hin. by apply elem_of_nil in Hin.
  - wp_step. eapply wp_conseq; [apply modify_event_spec|].
    intros r s1 ev (Hev & Hrow). destruct r as [[]|e].
    2:{ split; [done|]. rewrite Hrow. split; [done|]. split; [by left | done]. }
    destruct Hrow as (Hsome & row & eid & Hlive & Hdf1).
    eapply wp_conseq; [apply IH|].
    intros r' s2 ev' (Hev' & Hout & Hin & Hok).
    split; [by apply Forall_app|]. split; [|split].
    + intros id Hid. rewrite Hout, Hdf1.
      * apply lookup_insert_ne. intros ->. apply Hid. left.
      * intros ?. apply Hid. by right.
    + intros id. destruct (decide (i = id)) as [->|Hne].
      * right. split; [done|].
        destruct (Hin id) as [E | (_ & row' & eid' & ? & ?)]; [|eauto].
        rewrite E, Hdf1, lookup_insert_eq. eauto.
      * destruct (Hin id) as [E | (Hs & row' & eid' & ? & ?)].
        -- left. by rewrite E, Hdf1, lookup_insert_ne.
        -- right. rewrite Hdf1, lookup_insert_ne in Hs by done. eauto.
    + intros Hr id Hid. destruct (decide (id ∈ l)) as [Hl|Hl]; [by apply Hok|].
      apply elem_of_cons in Hid as [->|]; [|done].
      rewrite Hout, Hdf1, lookup_insert_eq by done. eauto.
Qed.

Lemma modify_events_spec list_id live st :
  wp (modify_events list_id (Some live)) st (λ r s' ev,
    Forall phase_event ev ∧
    (∀ id, id ∉ list_id → df s' !! id = df st !! id) ∧
    (∀ id,
       df s' !! id = df st !! id ∨
       is_Some (df st !! id) ∧
       ∃ row event_id,
         live !! id = Some row ∧ df s' !! id = Some (written_row row event_id)) ∧
    (is_ok r = true → ∀ id, id ∈ list_id →
       ∃ row event_id,
         live !! id = Some row ∧ df s' !! id = Some (written_row row event_id))).
Proof.
  unfold Database.modify_events, Database.or_live. wp_step. wp_step.
  eapply wp_conseq; [apply modify_loop_spec|]. by intros r s ev ?.
Qed.

(** *** Saving *)

Lemma creation_no_save ev : Forall creation_event ev → only is_save ev = [].
Proof.
  intros Hev. apply only_nil_iff. eapply Forall_impl; [exact Hev|].
  by intros e (_ & _ & ?).
Qed.

(** A round of [add_events] either leaves the table and the file as they
    are, or ends with the new table saved. *)
Lemma add_one_saves id s counts st :
  wp (add_one (id, s) counts) st (λ r s' ev,
    df s' = df st ∧ csv s' = csv st ∧ only is_save ev = [] ∨
    csv s' = df s' ∧ only is_save ev = [EvSave (df s')]).
Proof.
  unfold Database.add_one. destruct counts as [success_count error_count].
  wp_step. wp_step. wp_step. destruct (Pd.attr s "title") as [title|e]; cycle 1.
  { repeat wp_step. by left. }
  wp_step. wp_step. destruct (Pd.attr s "start_date") as [start_date|e]; cycle 1.
  { repeat wp_step. by left. }
  wp_step. wp_step. destruct (Pd.attr s "end_date") as [end_date|e]; cycle 1.
  { repeat wp_step. by left. }
  wp_step. wp_step.
  destruct (Pd.any_row _ _); [repeat wp_step; by left|].
  destruct (bool_decide (id ∈ dom (df st))); [repeat wp_step; by left|].
  wp_step. wp_step. eapply wp_conseq; [apply add_event_spec|].
  intros r s1 ev (Hdf & Hcsv & Hev%creation_no_save).
  destruct r as [event_id|e]; cycle 1.
  { repeat wp_step. left. by rewrite !only_app, Hev. }
  destruct (negb (Pd.truthy event_id)).
  { repeat wp_step. left. by rewrite !only_app, Hev. }
  wp_step. apply wp_set_row. wp_step. wp_step. wp_step. apply wp_save.
  cbv beta iota. wp_step. right. by rewrite !only_app, Hev.
Qed.

(** A round of [modify_events] that succeeds ends with the new table
    saved; one that fails saves nothing. *)
Lemma modify_event_saves live id st :
  wp (modify_event live id) st (λ r s' ev,
    match r with
    | Ok _ => csv s' = df s' ∧ only is_save ev = [EvSave (df s')]
    | Raise _ => csv s' = csv st ∧ only is_save ev = []
    end).
Proof.
  unfold Database.modify_event, Pd.loc, Pd.loc_cell.
  wp_step. wp_step. destruct (live !! id) as [row|]; [|done].
  wp_step. wp_step. wp_step. wp_step.
  destruct (df st !! id) as [old|]; [|done].
  wp_step. eapply wp_conseq; [apply delete_event_spec|].
  intros r s1 ev (-> & Hdf & Hcsv & cmd & lvl & msg & -> & _).
  wp_step. eapply wp_conseq; [apply add_event_spec|].
  intros r s2 ev (Hdf2 & Hcsv2 & Hev%creation_no_save). destruct r as [new_event_id|e].
  - wp_step. apply wp_set_row. wp_step. wp_step. apply wp_save. cbv beta iota.
    split; [done|]. by rewrite !only_app, Hev.
  - split; [congruence|]. by rewrite !only_app, Hev.
Qed.

(** *** The run and the state machine *)

Lemma same_effects_refl {A} (m : M A) : same_effects m m.
Proof. by intros st. Qed.

Lemma same_effects_bind {A B} (m1 m2 : M A) (f1 f2 : A → M B) :
  same_effects m1 m2 → (∀ a, same_effects (f1 a) (f2 a)) →
  same_effects (m1 ≫= f1) (m2 ≫= f2).
Proof.
  intros Hm Hf st. rewrite !run_bind.
  destruct (Hm st) as (Hr & Hs & He). rewrite <- Hr, <- Hs.
  destruct (result (m1 st)) as [a|e]; cbn [result final events]; [|done].
  destruct (Hf a (final (m1 st))) as (Hr' & Hs' & He').
  split; [done|]. split; [done|].
  unfold effects in *. by rewrite !only_app, He, He'.
Qed.

Lemma classify_new live :
  same_effects (get_new (Some live)) (classify computeNew live).
Proof.
  intros st. destruct (get_new_spec live st) as (Hr & Hs & Hev).
  rewrite Hr, Hs. do 2 (split; [done|]). by apply logs_no_effects.
Qed.

Lemma classify_deleted live :
  same_effects (get_deleted (Some live)) (classify computeDeleted live).
Proof.
  intros st. destruct (get_deleted_spec live st) as (Hr & Hs & Hev).
  rewrite Hr, Hs. do 2 (split; [done|]). by apply logs_no_effects.
Qed.

Lemma classify_modified live :
  same_effects (get_modified (Some live)) (classify computeModified live).
Proof.
  intros st. destruct (get_modified_spec live st) as (Hr & Hs & Hev).
  rewrite Hr, Hs. do 2 (split; [done|]). by apply logs_no_effects.
Qed.

Lemma run_same_effects : same_effects run run_by_phases.
Proof.
  unfold Database.run, run_by_phases.
  apply same_effects_bind; [apply same_effects_refl|]. intros live.
  apply same_effects_bind; [apply classify_new|]. intros new.
  apply same_effects_bind; [apply same_effects_refl|]. intros _.
  apply same_effects_bind; [apply classify_deleted|]. intros deleted.
  apply same_effects_bind; [apply same_effects_refl|]. intros _.
  apply same_effects_bind; [apply classify_modified|]. intros modified.
  apply same_effects_refl.
Qed.

Lemma wp_self {A} (m : M A) st :
  wp m st (λ r s ev, r = result (m st) ∧ s = final (m st) ∧ ev = events (m st)).
Proof. done. Qed.

Lemma wp_and {A} (m : M A) st (Q1 Q2 : Res A → State → list Event → Prop) :
  wp m st Q1 → wp m st Q2 → wp m st (λ r s ev, Q1 r s ev ∧ Q2 r s ev).
Proof. by split. Qed.

Lemma addition_phase e : addition_event e → phase_event e.
Proof. by intros [? _]. Qed.

Lemma removal_phase e : removal_event e → phase_event e.
Proof. by intros [? _]. Qed.

(** After the fetch the run makes no query. *)
Lemma run_trace st :
  ∃ rest, events (run st) = EvQuery id_ :: rest ∧ Forall phase_event rest.
Proof.
  change (wp run st (λ _ _ ev,
    ∃ rest, ev = EvQuery id_ :: rest ∧ Forall phase_event rest)).
  unfold Database.run. wp_step.
  eapply wp_conseq; [apply get_live_spec|].
  intros r s0 ev0 (_ & _ & logs0 & -> & Hlogs0%logs_phase).
  destruct r as [live|e]; [|eauto].
  wp_step. eapply wp_conseq; [apply get_new_spec|].
  intros ? ? ev1 (-> & -> & Hev1%logs_phase).
  wp_step. eapply wp_conseq; [apply add_events_spec|].
  intros r s1 ev2 (_ & _ & Hev2). eapply Forall_impl in Hev2; [|apply addition_phase].
  destruct r as [[]|e].
  2:{ eexists. split; [reflexivity|]. rewrite !Forall_app. auto. }
  wp_step. eapply wp_conseq; [apply get_deleted_spec|].
  intros ? ? ev3 (-> & -> & Hev3%logs_phase).
  wp_step. eapply wp_conseq; [apply remove_events_spec|].
  intros r s2 ev4 (Hev4 & _). eapply Forall_impl in Hev4; [|apply removal_phase].
  destruct r as [[]|e].
  2:{ eexists. split; [reflexivity|]. rewrite !Forall_app. auto 10. }
  wp_step. eapply wp_conseq; [apply get_modified_spec|].
  intros ? ? ev5 (-> & -> & Hev5%logs_phase).
  eapply wp_conseq; [apply modify_events_spec|].
  intros r s3 ev6 (Hev6 & _).
  eexists. split; [reflexivity|]. rewrite !Forall_app. auto 10.
Qed.

(** C1.  Every run asks Notion for the live snapshot exactly once, before
    anything else, and then does what the state machine of the
    specification does: additions computed and applied first, then
    deletions, then modifications, each classification taken against the
    one snapshot fetched; no other phase, so no eviction of outdated
    entries, is run.  The run and the state machine end with the same
    result and the same state, and their traces differ by log lines
    only. *)
Theorem run_fetches_once_then_three_phases st :
  head (events (run st)) = Some (EvQuery id_) ∧
  queries_of (events (run st)) = [EvQuery id_] ∧
  result (run st) = result (run_by_phases st) ∧
  final (run st) = final (run_by_phases st) ∧
  effects (events (run st)) = effects (events (run_by_phases st)).
Proof.
  destruct (run_trace st) as (rest & E & Hrest).
  split; [by rewrite E|]. split.
  - rewrite E. unfold queries_of. cbn. f_equal. apply only_nil_iff.
    eapply Forall_impl; [exact Hrest|]. done.
  - apply (run_same_effects st).
Qed.

(** C2.  For every stored table (the table of the state) and every live
    table, [get_new] returns a duplicate-free list of exactly the ids of
    the live table that the stored table lacks, [get_deleted] one of
    exactly the ids of the stored table that the live table lacks; the
    two lists share no id. *)
Theorem get_new_get_deleted_set_differences live st :
  ∃ new deleted,
    result (get_new (Some live) st) = Ok new ∧
    result (get_deleted (Some live) st) = Ok deleted ∧
    NoDup new ∧ NoDup deleted ∧
    list_to_set new = dom live ∖ dom (df st) ∧
    list_to_set deleted = dom (df st) ∖ dom live ∧
    (∀ id, id ∈ new → id ∈ deleted → False).
Proof.
  destruct (get_new_spec live st) as (Hn & _ & _).
  destruct (get_deleted_spec live st) as (Hd & _ & _).
  eexists _, _. split; [exact Hn|]. split; [exact Hd|].
  split; [apply NoDup_index_difference|]. split; [apply NoDup_index_difference|].
  unfold Database.index_difference. rewrite !list_to_set_elements_L.
  split; [done|]. split; [done|].
  intros id [_ Hn']%elem_of_index_difference [Hd' _]%elem_of_index_difference.
  done.
Qed.

(** *** Modified entries *)

Lemma ne_true_iff a b : Pd.ne a b = true ↔ differs_or_missing a b.
Proof.
  unfold Pd.ne, differs_or_missing.
  destruct a, b; cbn [Pd.isna orb]; try (split; [auto | done]);
    rewrite negb_true_iff, bool_decide_eq_false; split; auto;
    by intros [|[|]].
Qed.

Lemma isna_false_iff c : Pd.isna c = false ↔ c ≠ Null.
Proof. by destruct c. Qed.

(** The mask of [get_modified], read as a proposition. *)
Lemma modified_filter_true_iff live id (s : Series) :
  Database.modified_filter live id s = true ↔
  ∃ r, live !! id = Some r ∧
    Pd.col r "last_edit" ≠ Pd.col s "last_edit" ∧
    (differs_or_missing (Pd.col r "title") (Pd.col s "title")
     ∨ differs_or_missing (Pd.col r "start_date") (Pd.col s "start_date")
     ∨ differs_or_missing (Pd.col r "end_date") (Pd.col s "end_date")) ∧
    Pd.col r "last_edit" ≠ Null ∧ Pd.col s "last_edit" ≠ Null.
Proof.
  unfold Database.modified_filter.
  rewrite !andb_true_iff, !orb_true_iff, !negb_true_iff, !ne_true_iff,
    !isna_false_iff.
  destruct (live !! id) as [r|]; split.
  - intros [[[Hle Hf] Hr] Hs]. exists r. split; [done|].
    split; [destruct Hle as [|[|]]; congruence | tauto].
  - intros (? & [= <-] & Hle & Hf & Hr & Hs).
    assert (differs_or_missing (Pd.col s "last_edit") (Pd.col r "last_edit"))
      by (right; right; congruence).
    tauto.
  - by intros [[_ ?] _].
  - by intros (? & ? & _).
Qed.

(** What [get_modified] computes.  It returns an id exactly when the id
    is in both tables, the live [last_edit] differs from the stored one,
    neither [last_edit] is missing, and one of title, start date and end
    date differs between the two rows or is missing in one of them: the
    mask compares with the operator [!=] of pandas, for which a missing
    value differs from everything, a missing value included. *)
Lemma get_modified_iff live st :
  ∃ modified,
    result (get_modified (Some live) st) = Ok modified ∧ NoDup modified ∧
    ∀ id, id ∈ modified ↔
      ∃ s r, df st !! id = Some s ∧ live !! id = Some r ∧
        Pd.col r "last_edit" ≠ Pd.col s "last_edit" ∧
        (differs_or_missing (Pd.col r "title") (Pd.col s "title")
         ∨ differs_or_missing (Pd.col r "start_date") (Pd.col s "start_date")
         ∨ differs_or_missing (Pd.col r "end_date") (Pd.col s "end_date")) ∧
        Pd.col r "last_edit" ≠ Null ∧ Pd.col s "last_edit" ≠ Null.
Proof.
  destruct (get_modified_spec live st) as (Hm & _ & _).
  eexists. split; [exact Hm|]. split; [apply NoDup_index_where|].
  intros id. rewrite elem_of_index_where. split.
  - intros (s & Hs & (r & Hr & Hrest)%modified_filter_true_iff). eauto.
  - intros (s & r & Hs & Hr & Hrest). exists s. split; [done|].
    apply modified_filter_true_iff. eauto.
Qed.

(** An entry whose title and dates are present and unchanged is not
    modified, whatever its edit time. *)
Lemma unchanged_fields_not_modified live st id s r :
  df st !! id = Some s → live !! id = Some r →
  Pd.col s "title" ≠ Null → Pd.col s "start_date" ≠ Null →
  Pd.col s "end_date" ≠ Null →
  Pd.col r "title" = Pd.col s "title" →
  Pd.col r "start_date" = Pd.col s "start_date" →
  Pd.col r "end_date" = Pd.col s "end_date" →
  id ∉ computeModified (df st) live.
Proof.
  intros Hs Hr Ht Hsd Hed Et Esd Eed.
  intros (s' & Hs' & (r' & Hr' & _ & Hf & _)%modified_filter_true_iff)%elem_of_index_where.
  rewrite Hs in Hs'. rewrite Hr in Hr'. injection Hs' as <-. injection Hr' as <-.
  rewrite Et, Esd, Eed in Hf. unfold differs_or_missing in Hf.
  destruct Hf as [[|[|]]|[[|[|]]|[|[|]]]]; done.
Qed.

(** *** Two runs in a row *)

(** A run that completes leaves in the table only ids of the snapshot it
    fetched, each with a row that is not modified with respect to it. *)
Lemma run_settles live st :
  result (get_live st) = Ok live →
  result (run st) = Ok tt →
  dom (df (final (run st))) ⊆ dom live ∧
  ∀ id row, df (final (run st)) !! id = Some row →
            Database.modified_filter live id row = false.
Proof.
  intros Hlive.
  change (wp run st (λ r s _, r = Ok tt →
    dom (df s) ⊆ dom live ∧
    ∀ id row, df s !! id = Some row →
              Database.modified_filter live id row = false)).
  unfold Database.run. wp_step.
  eapply wp_conseq; [apply wp_self|]. intros r s0 ev0 (-> & _ & _).
  rewrite Hlive. wp_step.
  eapply wp_conseq; [apply get_new_spec|]. intros ? ? ev1 (-> & -> & _).
  wp_step. eapply wp_conseq; [apply add_events_spec|].
  intros r s1 ev2 _. destruct r as [[]|e]; [|done].
  wp_step. eapply wp_conseq; [apply get_deleted_spec|]. intros ? ? ev3 (-> & -> & _).
  wp_step. eapply wp_conseq; [apply remove_events_spec|].
  intros r s2 ev4 (_ & Hrem). destruct r as [[]|e]; [|done].
  destruct Hrem as (_ & Hdf2 & _).
  { apply NoDup_index_difference. }
  { by intros id [? _]%elem_of_index_difference. }
  assert (dom (df s2) ⊆ dom live) as Hdom2.
  { intros id [row Hrow]%elem_of_dom. rewrite Hdf2 in Hrow.
    destruct (decide (id ∈ Database.index_difference (df s1) live)) as [|Hnot];
      [done|].
    destruct (decide (id ∈ dom live)) as [|Hout]; [done|].
    destruct Hnot. apply elem_of_index_difference. split; [|done].
    apply elem_of_dom. eauto. }
  wp_step. eapply wp_conseq; [apply get_modified_spec|]. intros ? ? ev5 (-> & -> & _).
  eapply wp_conseq; [apply modify_events_spec|].
  intros r s3 ev6 (_ & Hout & Hany & Hin) ->. split.
  - intros id [row Hrow]%elem_of_dom. apply Hdom2.
    destruct (Hany id) as [E | (Hs & _)]; apply elem_of_dom; [|done].
    rewrite <- E. eauto.
  - intros id row Hrow.
    destruct (decide (id ∈ Pd.index_where (Database.modified_filter live) (df s2)))
      as [Hmod|Hnot].
    + destruct (Hin eq_refl id Hmod) as (lrow & eid & Hl & Hrow').
      rewrite Hrow in Hrow'. injection Hrow' as ->.
      by apply modified_filter_written_row.
    + rewrite Hout in Hrow by done.
      destruct (Database.modified_filter live id row) eqn:E; [|done].
      destruct Hnot. apply elem_of_index_where. eauto.
Qed.

(** A run from a table that holds exactly the ids of the snapshot, with no
    row modified, classifies nothing and touches nothing. *)
Lemma idle_run live st :
  result (get_live st) = Ok live →
  dom (df st) = dom live →
  (∀ id row, df st !! id = Some row →
             Database.modified_filter live id row = false) →
  computeNew (df st) live = [] ∧ computeDeleted (df st) live = [] ∧
  computeModified (df st) live = [] ∧
  result (run st) = Ok tt ∧ mutations (events (run st)) = [] ∧
  df (final (run st)) = df st.
Proof.
  intros Hlive Hdom Hrows.
  assert (computeNew (df st) live = []) as Hnew
    by (apply index_difference_nil; by rewrite Hdom).
  assert (computeDeleted (df st) live = []) as Hdel
    by (apply index_difference_nil; by rewrite Hdom).
  assert (computeModified (df st) live = []) as Hmod
    by (by apply index_where_nil).
  do 3 (split; [done|]).
  change (wp run st (λ r s ev, r = Ok tt ∧ mutations ev = [] ∧ df s = df st)).
  unfold Database.run. wp_step.
  eapply wp_conseq; [apply wp_and; [apply wp_self | apply get_live_spec]|].
  intros r s0 ev0 ((-> & _ & _) & Hdf0 & _ & logs0 & -> & Hlogs0).
  rewrite Hlive. wp_step.
  eapply wp_conseq; [apply get_new_spec|]. intros ? ? ev1 (-> & -> & Hlogs1).
  rewrite Hdf0. unfold computeNew in Hnew. rewrite Hnew.
  wp_step. unfold Database.add_events. wp_step.
  wp_step. eapply wp_conseq; [apply get_deleted_spec|].
  intros ? ? ev3 (-> & -> & Hlogs3).
  rewrite Hdf0. unfold computeDeleted in Hdel. rewrite Hdel.
  wp_step. unfold Database.remove_events. wp_step. cbn [for_each]. wp_step.
  apply wp_save. cbv beta iota.
  wp_step. eapply wp_conseq; [apply get_modified_spec|].
  intros ? ? ev5 (-> & -> & Hlogs5). cbn [df].
  rewrite Hdf0. unfold computeModified in Hmod. rewrite Hmod.
  unfold Database.modify_events, Database.or_live. wp_step. wp_step.
  cbn [for_each]. wp_step.
  split; [done|]. split; [|done].
  apply only_nil_iff. rewrite !Forall_app, !Forall_cons.
  assert (∀ logs, Forall (λ e, is_log e = true) logs →
                  Forall (λ e, is_mutation e = false) logs) as Hquiet.
  { intros logs Hl. eapply Forall_impl; [exact Hl|]. by intros []. }
  repeat split; auto using Forall_nil.
Qed.

(** *** Failed deletions *)

#[local] Abbreviation delete_event := (CalendarClient.delete_event env apple_calendar).

(** C7.  Take a row of the table whose event the calendar fails to delete
    (the script comes back with an error).  [delete_event] logs the error
    and returns normally, the table and the file untouched.
    [remove_events] drops the row and goes on with the rest of its list;
    given distinct ids of the table it returns normally, and it ends with
    one save, of a table without the row, so that the row is gone from the
    file too.  [modify_events] goes on to create the new event; when that
    succeeds it replaces the row by the live one with the new handle and
    saves that table to the file; only a failure of the creation is
    raised, and it leaves the table and the file as they were. *)
Theorem failed_delete_is_logged_and_row_still_handled id row st cmd r :
  df st !! id = Some row →
  head (events (delete_event (Pd.col row "event_id") st))
    = Some (EvAppleScript DeleteEvent cmd r) →
  Py.truthy (err r) = true →
  let deleted := delete_event (Pd.col row "event_id") st in
  (result deleted = Ok tt ∧ df (final deleted) = df st ∧
   csv (final deleted) = csv st ∧
   ∃ msg, events deleted = [EvAppleScript DeleteEvent cmd r; EvLog ERROR msg]) ∧
  (∀ rest,
     df (final (remove_event id st)) = delete id (df st) ∧
     result (remove_events (id :: rest) st)
       = result (remove_events rest (final (remove_event id st))) ∧
     final (remove_events (id :: rest) st)
       = final (remove_events rest (final (remove_event id st))) ∧
     (NoDup (id :: rest) → (∀ j, j ∈ rest → j ∈ dom (df st)) →
      result (remove_events (id :: rest) st) = Ok tt ∧
      df (final (remove_events (id :: rest) st)) !! id = None ∧
      csv (final (remove_events (id :: rest) st)) !! id = None ∧
      csv (final (remove_events (id :: rest) st))
        = df (final (remove_events (id :: rest) st)) ∧
      only is_save (events (remove_events (id :: rest) st))
        = [EvSave (df (final (remove_events (id :: rest) st)))])) ∧
  (∀ live live_row,
     live !! id = Some live_row →
     match result (Database.add_event_details env apple_calendar
                     (Database._get_card_for_calendar env live_row)
                     (final deleted)) with
     | Ok event_id =>
         result (modify_events [id] (Some live) st) = Ok tt ∧
         df (final (modify_events [id] (Some live) st))
           = <[id := written_row live_row event_id]> (df st) ∧
         csv (final (modify_events [id] (Some live) st))
           = <[id := written_row live_row event_id]> (df st) ∧
         only is_save (events (modify_events [id] (Some live) st))
           = [EvSave (<[id := written_row live_row event_id]> (df st))]
     | Raise e =>
         result (modify_events [id] (Some live) st) = Raise e ∧
         df (final (modify_events [id] (Some live) st)) = df st ∧
         csv (final (modify_events [id] (Some live) st)) = csv st ∧
         only is_save (events (modify_events [id] (Some live) st)) = []
     end).
Proof.
  intros Hrow Hhead Hfail deleted.
  pose proof (delete_event_spec env apple_calendar (Pd.col row "event_id") st)
    as (Hres & Hdf & Hcsv & cmd' & lvl & msg & Hev & Hlvl).
  fold deleted in Hres, Hdf, Hcsv, Hev.
  assert (cmd' = cmd ∧ applescript_run env (scripts st) cmd' = r) as [-> Hr].
  { unfold deleted in Hev. rewrite Hev in Hhead. by injection Hhead as -> ->. }
  rewrite Hr in Hev, Hlvl. apply Hlvl in Hfail as ->.
  split; [eauto|]. split.
  - intros rest.
    pose proof (remove_event_spec id st) as (_ & _ & _ & Hrem).
    rewrite Hrow in Hrem. destruct Hrem as (Hok & Hdf' & _).
    split; [done|]. split; [|split].
    + unfold Database.remove_events. cbn [for_each].
      rewrite !run_bind, Hok. cbn [result final events].
      by destruct (result (for_each rest remove_event _)).
    + unfold Database.remove_events. cbn [for_each].
      rewrite !run_bind, Hok. cbn [result final events].
      by destruct (result (for_each rest remove_event _)).
    + intros Hnodup Hrest.
      pose proof (remove_events_spec (id :: rest) st) as (_ & Hall).
      destruct (Hall Hnodup) as (Hr' & Hrows & Hsaved & before & Hevs & Hnone & _).
      { intros j [->|Hj]%elem_of_cons; [by apply elem_of_dom|by apply Hrest]. }
      split; [done|].
      assert (df (final (remove_events (id :: rest) st)) !! id = None) as Hgone.
      { rewrite Hrows. apply decide_True. left. }
      split; [done|]. split; [by rewrite Hsaved|]. split; [done|].
      by rewrite Hevs, only_app, Hnone.
  - intros live live_row Hlive.
    change (wp (modify_events [id] (Some live)) st (λ res s ev,
      match result (Database.add_event_details env apple_calendar
                      (Database._get_card_for_calendar env live_row)
                      (final deleted)) with
      | Ok event_id =>
          res = Ok tt ∧ df s = <[id := written_row live_row event_id]> (df st) ∧
          csv s = <[id := written_row live_row event_id]> (df st) ∧
          only is_save ev = [EvSave (<[id := written_row live_row event_id]> (df st))]
      | Raise e => res = Raise e ∧ df s = df st ∧ csv s = csv st ∧ only is_save ev = []
      end)).
    unfold Database.modify_events, Database.or_live. wp_step. wp_step.
    cbn [for_each]. wp_step.
    unfold Database.modify_event, Pd.loc, Pd.loc_cell. rewrite Hlive.
    repeat wp_step. rewrite Hrow. repeat wp_step.
    eapply wp_conseq; [apply wp_self|].
    intros ? s1 ? (-> & -> & ->). fold deleted. rewrite Hres, Hev.
    wp_step. eapply wp_conseq; [apply wp_and; [apply wp_self | apply add_event_spec]|].
    intros ? s2 ? ((-> & -> & ->) & Hdf2 & Hcsv2 & Hcreate%creation_no_save).
    fold (Database.add_event_details env apple_calendar
            (Database._get_card_for_calendar env live_row) (final deleted)) in *.
    destruct (result (Database.add_event_details _ _ _ _)) as [eid|e].
    + wp_step. apply wp_set_row. wp_step. wp_step. apply wp_save. cbv beta iota.
      wp_step. cbn [df csv]. rewrite Hdf2, Hdf.
      split; [done|]. split; [done|]. split; [done|].
      by rewrite !only_app, Hcreate.
    + split; [done|]. split; [by rewrite Hdf2|]. split; [by rewrite Hcsv2|].
      by rewrite !only_app, Hcreate.
Qed.

End DatabaseFacts.

(** ** The script of [add_event] *)

Lemma startswith_app p a b :
  Py.startswith p a = true → Py.startswith p (a +:+ b) = true.
Proof.
  revert a. induction p as [|c p IH]; intros [|c' a]; simpl; try done.
  destruct (decide (c = c')); [apply IH | done].
Qed.

Lemma contains_app_l sub a b :
  Py.contains sub a = true → Py.contains sub (a +:+ b) = true.
Proof.
  induction a as [|c a IH].
  - destruct sub; [by destruct b | done].
  - cbn [Py.contains]. intros [Hs|Hc]%orb_true_iff.
    + change (String c a +:+ b) with (String c (a +:+ b)).
      cbn [Py.contains]. apply orb_true_iff. left.
      by apply (startswith_app sub (String c a) b).
    + change (String c a +:+ b) with (String c (a +:+ b)).
      cbn [Py.contains]. apply orb_true_iff. right. by apply IH.
Qed.

Lemma contains_app_r sub a b :
  Py.contains sub b = true → Py.contains sub (a +:+ b) = true.
Proof.
  intros Hb. induction a as [|c a IH]; [done|].
  change (String c a +:+ b) with (String c (a +:+ b)).
  cbn [Py.contains]. apply orb_true_iff. by right.
Qed.

Lemma contains_fstr_skip sub piece rest :
  Py.contains sub (fstr rest) = true → Py.contains sub (fstr (piece :: rest)) = true.
Proof. apply contains_app_r. Qed.

Lemma contains_fstr_here sub piece rest :
  Py.contains sub piece = true → Py.contains sub (fstr (piece :: rest)) = true.
Proof. apply contains_app_l. Qed.

Section AddEventFacts.
Context `{PD : PyDatetime} (env : Env) (name : string).

#[local] Abbreviation add_event := (CalendarClient.add_event env name).
#[local] Abbreviation add_event_script := (CalendarClient.add_event_script name).

(** The script of an all-day event carries the all-day flag. *)
Lemma all_day_script_flag title start_dt end_dt url_str descr :
  Py.contains "allday event:true"
    (add_event_script title start_dt end_dt true url_str descr) = true.
Proof.
  unfold CalendarClient.add_event_script.
  do 21 apply contains_fstr_skip. apply contains_fstr_here.
  unfold CalendarClient.make_event_line.
  do 4 apply contains_fstr_skip. apply contains_fstr_here. reflexivity.
Qed.

(** Once its dates are read, [add_event] hands one script to AppleScript:
    the one built from the start, the end and the all-day flag it is given
    here. *)
Lemma add_event_runs title sd ed stime etime url_str descr st
    start_dt end_dt etime' :
  strptime (fstr [sd; " "; stime]) "%Y-%m-%d %H:%M:%S" = Ok start_dt →
  result (CalendarClient.end_of_event ed stime etime st) = Ok (end_dt, etime') →
  let cmd :=
    add_event_script title start_dt end_dt
      (bool_decide (stime = "00:00:00") && bool_decide (etime' = "00:00:00"))
      url_str descr in
  mutations (events (add_event title sd ed stime etime url_str descr st))
    = [EvAppleScript MakeEvent cmd (applescript_run env (scripts st) cmd)].
Proof.
  intros Hstart Hend cmd.
  change (wp (add_event title sd ed stime etime url_str descr) st (λ _ _ ev,
    mutations ev = [EvAppleScript MakeEvent cmd (applescript_run env (scripts st) cmd)])).
  unfold CalendarClient.add_event. wp_step. wp_step. rewrite Hstart.
  wp_step.
  eapply wp_conseq; [apply wp_and; [apply wp_self | apply end_of_event_spec]|].
  intros ? ? ? ((-> & _ & _) & -> & ->). rewrite Hend.
  repeat wp_step. apply wp_run_script. cbv beta iota. fold cmd.
  destruct (Py.truthy (err _)); [by repeat wp_step|].
  destruct (Py.truthy (out _)); [|by repeat wp_step].
  wp_step. wp_step. destruct (CalendarClient.last_token _); by repeat wp_step.
Qed.

(** C8.  Let [add_event] be given an end time of exactly 00:00:00 and dates
    that Python reads.  If the start time is 00:00:00 too, the script it
    runs sets the end to midnight of the day after the given end date and
    makes the event with the all-day flag set.  Otherwise the end is read
    from the given end date at 23:59:59, and the event is made without the
    flag. *)
Theorem add_event_all_day_and_end_of_day
    title sd ed stime url_str descr st start_dt :
  strptime (fstr [sd; " "; stime]) "%Y-%m-%d %H:%M:%S" = Ok start_dt →
  (stime = "00:00:00" →
   ∀ d next_day midnight,
     strptime ed "%Y-%m-%d" = Ok d →
     Calendar.add_timedelta d 1 0 = Ok next_day →
     strptime "00:00:00" "%H:%M:%S" = Ok midnight →
     let cmd :=
       add_event_script title start_dt (Calendar.combine next_day midnight)
         true url_str descr in
     mutations (events (add_event title sd ed stime "00:00:00" url_str descr st))
       = [EvAppleScript MakeEvent cmd (applescript_run env (scripts st) cmd)] ∧
     Py.contains "allday event:true" cmd = true) ∧
  (stime ≠ "00:00:00" →
   ∀ end_dt,
     strptime (fstr [ed; " "; "23:59:59"]) "%Y-%m-%d %H:%M:%S" = Ok end_dt →
     let cmd := add_event_script title start_dt end_dt false url_str descr in
     mutations (events (add_event title sd ed stime "00:00:00" url_str descr st))
       = [EvAppleScript MakeEvent cmd (applescript_run env (scripts st) cmd)]).
Proof.
  intros Hstart. split.
  - intros -> d next_day midnight Hd Hnext Hmid cmd.
    split; [|apply all_day_script_flag].
    apply (add_event_runs _ _ _ _ _ _ _ _ _ _ "00:00:00" Hstart).
    change (wp (CalendarClient.end_of_event ed "00:00:00" "00:00:00") st
              (λ r _ _, r = Ok (Calendar.combine next_day midnight, "00:00:00"))).
    unfold CalendarClient.end_of_event. rewrite !bool_decide_true by done.
    cbn [andb]. wp_step. wp_step. rewrite Hd.
    wp_step. wp_step. rewrite Hnext. wp_step. wp_step. rewrite Hmid. by wp_step.
  - intros Hne end_dt Hend cmd.
    pose proof (add_event_runs title sd ed stime "00:00:00" url_str descr st
                  start_dt end_dt "23:59:59" Hstart) as Hrun.
    rewrite (bool_decide_false (stime = _)) in Hrun by done.
    apply Hrun.
    change (wp (CalendarClient.end_of_event ed stime "00:00:00") st
              (λ r _ _, r = Ok (end_dt, "23:59:59"))).
    unfold CalendarClient.end_of_event.
    rewrite (bool_decide_false (stime = _)) by done. cbn [andb].
    rewrite bool_decide_true by done. wp_step. wp_step. rewrite Hend. by wp_step.
Qed.

End AddEventFacts.

(** ** The escaped text *)

Lemma replace_go_char c new fuel s :
  (Py.len s ≤ fuel)%nat →
  Py.replace_go fuel (String c EmptyString) new s = expand (replacing c new) s.
Proof.
  revert s. induction fuel as [|fuel IH]; intros [|a s] Hlen; try done.
  - simpl in Hlen. lia.
  - cbn [Py.replace_go Py.startswith expand]. unfold replacing at 1.
    destruct (decide (c = a)) as [->|Hne].
    + cbn [Py.len String.length Py.drop]. rewrite IH; [done|].
      unfold Py.len in *. simpl in Hlen. lia.
    + rewrite IH; [done|]. unfold Py.len in *. simpl in Hlen. lia.
Qed.

Lemma replace_char c new s :
  Py.replace (String c EmptyString) new s = expand (replacing c new) s.
Proof. apply replace_go_char. done. Qed.

Lemma chars_app a b : chars (a +:+ b) = chars a ++ chars b.
Proof.
  induction a as [|c a IH]; [done|].
  change (String c a +:+ b) with (String c (a +:+ b)).
  unfold chars in *. cbn [String.list_ascii_of_string]. by rewrite IH.
Qed.

Lemma chars_expand (P Q : ascii → Prop) f s :
  (∀ a, P a → Forall Q (chars (f a))) →
  Forall P (chars s) → Forall Q (chars (expand f s)).
Proof.
  intros Hf. induction s as [|a s IH]; [done|].
  cbn. intros [Ha Hs]%Forall_cons. rewrite chars_app.
  apply Forall_app. auto.
Qed.

Lemma string_app_assoc (a b c : string) : (a +:+ b) +:+ c = a +:+ (b +:+ c).
Proof.
  induction a as [|x a IH]; [done|].
  change (String x a +:+ b) with (String x (a +:+ b)).
  change (String x (a +:+ b) +:+ c) with (String x ((a +:+ b) +:+ c)).
  by rewrite IH.
Qed.

Lemma expand_app f a b : expand f (a +:+ b) = expand f a +:+ expand f b.
Proof.
  induction a as [|c a IH]; [done|].
  change (String c a +:+ b) with (String c (a +:+ b)). cbn [expand].
  by rewrite IH, string_app_assoc.
Qed.

Lemma well_escaped_expand s :
  well_escaped
    (expand (replacing "034"%char (Py.backslash +:+ Py.dquote))
       (expand (replacing "092"%char (Py.backslash +:+ Py.backslash)) s)) = true.
Proof.
  induction s as [|a s IH]; [done|].
  cbn [expand]. rewrite expand_app.
  destruct (decide (a = "092"%char)) as [->|Hb]; [exact IH|].
  destruct (decide (a = "034"%char)) as [->|Hq]; [exact IH|].
  unfold replacing at 2. rewrite decide_False by congruence.
  cbn [expand]. unfold replacing at 1. rewrite decide_False by congruence.
  change (well_escaped
    (String a (expand (replacing "034"%char (Py.backslash +:+ Py.dquote))
       (expand (replacing "092"%char (Py.backslash +:+ Py.backslash)) s))) = true).
  cbn [well_escaped]. by rewrite !decide_False by done.
Qed.

(** Whatever the text, the escaped text holds no newline and no carriage
    return, and every quote and backslash in it is escaped. *)
Lemma applescript_escape_single_line_and_escaped s max_length :
  Forall line_char (chars (CalendarClient.applescript_escape_len s max_length)) ∧
  well_escaped (CalendarClient.applescript_escape_len s max_length) = true.
Proof.
  unfold CalendarClient.applescript_escape_len.
  set (t := Py.replace (Py.backslash +:+ "n") " " _).
  unfold Py.newline, Py.cr, Py.backslash, Py.dquote. rewrite !replace_char.
  split; [|apply well_escaped_expand].
  assert (∀ c new (P : ascii → Prop),
            Forall P (chars new) → ∀ a, P a → Forall P (chars (replacing c new a)))
    as Hkeep.
  { intros c new P Hnew a Ha. unfold replacing.
    destruct (decide (c = a)); [done | by repeat constructor]. }
  assert (Forall (λ a, a ≠ "010"%char) (chars (expand (replacing "010"%char " ") t)))
    as Hnl.
  { apply (chars_expand (λ _, True)); [|by apply Forall_true].
    intros a _. unfold replacing.
    destruct (decide ("010"%char = a)); by repeat constructor. }
  assert (Forall line_char
            (chars (expand (replacing "013"%char "")
                      (expand (replacing "010"%char " ") t)))) as Hcr.
  { apply (chars_expand (λ a, a ≠ "010"%char)); [|done].
    intros a Ha. unfold replacing.
    destruct (decide ("013"%char = a)); by repeat constructor. }
  apply (chars_expand line_char); [apply Hkeep; by repeat constructor|].
  apply (chars_expand line_char); [apply Hkeep; by repeat constructor|].
  exact Hcr.
Qed.

(** * Further properties

    Of the fetch, of the three apply phases and of the run as a whole; of
    the texts read from Notion and of those handed to the calendar. *)

(** ** Cards *)

Section CardFacts.
Context `{PD : PyDatetime} (env : Env).

Lemma Card_init_id page c :
  NotionClient.Card_init env page = Ok c → NotionClient._id c = page_id page.
Proof.
  unfold NotionClient.Card_init. destruct (name_title page); [by intros [= <-]|].
  destruct (NotionClient._convert_datetime _) as [edited|];
    [|by destruct (pdb_continues env)]. cbn.
  destruct (date_prop page) as [[start end_]|]; [|by destruct (pdb_continues env)].
  destruct (NotionClient._convert_datetime start) as [sd|];
    [|by destruct (pdb_continues env)]. cbn.
  destruct (NotionClient._convert_datetime end_) as [ed|];
    [|by destruct (pdb_continues env)]. cbn.
  by intros [= <-].
Qed.

(** The class of what the constructor of a card raises is settled by the
    debugger. *)
Lemma Card_init_raises page e :
  NotionClient.Card_init env page = Raise e →
  exn_class e = if pdb_continues env then "Exception" else "BdbQuit".
Proof.
  unfold NotionClient.Card_init. destruct (name_title page); [done|].
  destruct (NotionClient.res_bind _ _); [done|].
  destruct (pdb_continues env); by intros [= <-].
Qed.

Lemma Card_init_without_date page :
  name_title page ≠ [] → date_prop page = None →
  is_ok (NotionClient.Card_init env page) = false.
Proof.
  intros Ht Hd. unfold NotionClient.Card_init.
  destruct (name_title page); [done|]. rewrite Hd.
  by destruct (NotionClient._convert_datetime _), (pdb_continues env).
Qed.

Lemma Card_init_end_date page c start :
  NotionClient.Card_init env page = Ok c → date_prop page = Some (start, None) →
  NotionClient.end_date c = NotionClient.start_date c.
Proof.
  unfold NotionClient.Card_init. intros Hc Hd.
  destruct (name_title page); [by injection Hc as <-|].
  rewrite Hd in Hc.
  destruct (NotionClient._convert_datetime _) as [edited|];
    [|by destruct (pdb_continues env)]. cbn in Hc.
  destruct (NotionClient._convert_datetime start) as [sd|];
    [|by destruct (pdb_continues env)]. cbn in Hc.
  by injection Hc as <-.
Qed.

Lemma cards_of_raises pages e :
  NotionClient.cards_of env pages = Raise e →
  exn_class e = if pdb_continues env then "Exception" else "BdbQuit".
Proof.
  induction pages as [|p pages IH]; [done|]. cbn.
  destruct (NotionClient.Card_init env p) eqn:Ep; cbn.
  - destruct (NotionClient.cards_of env pages); cbn; [done|].
    intros [= <-]. by apply IH.
  - intros [= <-]. by eapply Card_init_raises.
Qed.

Lemma cards_of_ok pages cards :
  NotionClient.cards_of env pages = Ok cards →
  Forall2 (λ p c, NotionClient.Card_init env p = Ok c) pages cards.
Proof.
  revert cards. induction pages as [|p pages IH]; intros cards; cbn.
  - intros [= <-]. constructor.
  - destruct (NotionClient.Card_init env p) eqn:Ep; cbn; [|done].
    destruct (NotionClient.cards_of env pages); cbn; [|done].
    intros [= <-]. constructor; [done | by apply IH].
Qed.

Lemma cards_of_total pages :
  Forall (λ p, is_ok (NotionClient.Card_init env p) = true) pages →
  is_ok (NotionClient.cards_of env pages) = true.
Proof.
  induction 1 as [|p pages Hp _ IH]; [done|]. cbn.
  destruct (NotionClient.Card_init env p); [|done]. cbn.
  by destruct (NotionClient.cards_of env pages).
Qed.

End CardFacts.

(** ** The fetch *)

Section FetchFacts.
Context `{PD : PyDatetime} (env : Env) (id_ apple_calendar : string).

#[local] Abbreviation get_live := (Database.get_live env id_).
#[local] Abbreviation get_new := (Database.get_new env id_).
#[local] Abbreviation get_deleted := (Database.get_deleted env id_).
#[local] Abbreviation get_modified := (Database.get_modified env id_).
#[local] Abbreviation run := (Database.run env id_ apple_calendar).

(** The table of the cards, as [get_live] builds it. *)
#[local] Abbreviation table_of cards :=
  (list_to_map ((λ card, (NotionClient._id card, NotionClient.to_dict card))
                  <$> cards) : DataFrame).

Lemma get_live_result st :
  result (get_live st) =
  match notion_query env (queries st) id_ with
  | Ok pages =>
      match NotionClient.cards_of env pages with
      | Ok cards => Ok (table_of cards)
      | Raise e => Raise e
      end
  | Raise e => Raise e
  end.
Proof.
  change (wp get_live st (λ r _ _, r =
    match notion_query env (queries st) id_ with
    | Ok pages =>
        match NotionClient.cards_of env pages with
        | Ok cards => Ok (table_of cards)
        | Raise e => Raise e
        end
    | Raise e => Raise e
    end)).
  unfold Database.get_live, NotionClient.get_live_cards.
  wp_step. wp_step. wp_step. apply wp_query.
  destruct (notion_query env (queries st) id_) as [pages|e].
  - wp_step. destruct (NotionClient.cards_of env pages) as [cards|e]; [|done].
    destruct cards as [|c cards]; cbn; by wp_step.
  - wp_step. wp_step. by wp_step.
Qed.

Lemma card_ids pages cards :
  Forall2 (λ p c, NotionClient.Card_init env p = Ok c) pages cards →
  ((λ card, (NotionClient._id card, NotionClient.to_dict card)) <$> cards).*1
  = page_id <$> pages.
Proof.
  induction 1 as [|p c pages cards Hc _ IH]; [done|].
  rewrite !fmap_cons. cbn [fst]. f_equal; [by eapply Card_init_id | exact IH].
Qed.

Lemma get_live_rows st pages live :
  notion_query env (queries st) id_ = Ok pages →
  NoDup (page_id <$> pages) →
  result (get_live st) = Ok live →
  dom live = list_to_set (page_id <$> pages) ∧
  ∀ p, p ∈ pages →
    ∃ c, NotionClient.Card_init env p = Ok c ∧
         live !! page_id p = Some (NotionClient.to_dict c).
Proof.
  intros Hq Hnd. rewrite get_live_result, Hq.
  destruct (NotionClient.cards_of env pages) as [cards|] eqn:Hc; [|done].
  intros [= <-]. apply cards_of_ok in Hc. pose proof (card_ids _ _ Hc) as Hids.
  split; [by rewrite dom_list_to_map_L, Hids|].
  intros p Hp. rewrite <- Hids in Hnd.
  apply list_elem_of_lookup in Hp as [i Hi].
  destruct (Forall2_lookup_l _ _ _ _ _ Hc Hi) as (c & Hci & Hpc).
  exists c. split; [done|]. rewrite <- (Card_init_id _ _ _ Hpc).
  apply elem_of_list_to_map_1; [done|].
  apply list_elem_of_fmap. exists c. split; [done|].
  by eapply list_elem_of_lookup_2.
Qed.

Lemma col_to_dict c :
  Pd.col (NotionClient.to_dict c) "start_date" = NotionClient.start_date c ∧
  Pd.col (NotionClient.to_dict c) "end_date" = NotionClient.end_date c ∧
  Pd.col (NotionClient.to_dict c) "title" = NotionClient.title c ∧
  Pd.col (NotionClient.to_dict c) "last_edit" = NotionClient.last_edited_time c.
Proof. done. Qed.

Lemma cards_of_fails pages p :
  p ∈ pages → is_ok (NotionClient.Card_init env p) = false →
  is_ok (NotionClient.cards_of env pages) = false.
Proof.
  intros Hp Hbad. induction pages as [|q pages IH]; [by apply elem_of_nil in Hp|].
  cbn. destruct (NotionClient.Card_init env q) eqn:Eq; [|done]. cbn.
  apply elem_of_cons in Hp as [->|Hp]; [by rewrite Eq in Hbad|].
  destruct (NotionClient.cards_of env pages); [|done]. by apply IH.
Qed.

Lemma effects_without_mutation ev l :
  effects ev = l → Forall (λ e, is_mutation e = false) l → mutations ev = [].
Proof.
  revert l. induction ev as [|x ev IH]; intros l; [done|].
  unfold effects, mutations, only. cbn.
  destruct x; cbn; intros <-; rewrite ?Forall_cons; try intros [? ?]; try done;
    by eapply IH.
Qed.

(** A run whose fetch fails ends there. *)
Lemma run_of_failed_fetch st e :
  result (get_live st) = Raise e →
  result (run st) = Raise e ∧ effects (events (run st)) = [EvQuery id_] ∧
  df (final (run st)) = df st ∧ csv (final (run st)) = csv st.
Proof.
  intros Hlive.
  change (wp run st (λ r s ev,
    r = Raise e ∧ effects ev = [EvQuery id_] ∧ df s = df st ∧ csv s = csv st)).
  unfold Database.run. wp_step.
  eapply wp_conseq; [apply wp_and; [apply wp_self | apply get_live_spec]|].
  intros r s0 ev0 ((-> & _ & _) & Hdf & Hcsv & logs & -> & Hlogs).
  rewrite Hlive. split; [done|]. split; [|done].
  unfold effects. cbn. f_equal. by apply logs_no_effects.
Qed.

(** X1.  When Notion answers with pages that have pairwise different ids
    and of which each one makes a card, [get_live] returns a table whose
    index is the set of the page ids, and whose row for a page is the
    dictionary of the card of that page. *)
Theorem get_live_indexes_the_cards_by_page_id st pages :
  notion_query env (queries st) id_ = Ok pages →
  NoDup (page_id <$> pages) →
  Forall (λ p, is_ok (NotionClient.Card_init env p) = true) pages →
  ∃ live, result (get_live st) = Ok live ∧
    dom live = list_to_set (page_id <$> pages) ∧
    ∀ p, p ∈ pages →
      ∃ c, NotionClient.Card_init env p = Ok c ∧
           live !! page_id p = Some (NotionClient.to_dict c).
Proof.
  intros Hq Hnd Hall.
  destruct (result (get_live st)) as [live|e] eqn:Hlive.
  - exists live. split; [done|]. by eapply get_live_rows.
  - rewrite get_live_result, Hq in Hlive. apply cards_of_total in Hall.
    by destruct (NotionClient.cards_of env pages).
Qed.

(** X2.  A page that gives a start but no end for its date has, in the
    table [get_live] returns, a row whose end date is its start date. *)
Theorem live_row_without_end_date_ends_at_its_start st pages live p start :
  notion_query env (queries st) id_ = Ok pages →
  NoDup (page_id <$> pages) →
  result (get_live st) = Ok live →
  p ∈ pages → date_prop p = Some (start, None) →
  ∃ row, live !! page_id p = Some row ∧
         Pd.col row "end_date" = Pd.col row "start_date".
Proof.
  intros Hq Hnd Hlive Hp Hdate.
  destruct (get_live_rows st pages live Hq Hnd Hlive) as [_ Hrows].
  destruct (Hrows p Hp) as (c & Hc & Hrow).
  exists (NotionClient.to_dict c). split; [done|].
  destruct (col_to_dict c) as (-> & -> & _).
  by eapply Card_init_end_date.
Qed.

(** X3.  If the fetch of the live snapshot fails, [run] fails with the
    same exception right after the query: it runs no script, saves nothing
    and leaves the table and the file as they were. *)
Theorem run_stops_when_the_fetch_fails st e :
  result (get_live st) = Raise e →
  result (run st) = Raise e ∧
  effects (events (run st)) = [EvQuery id_] ∧
  df (final (run st)) = df st ∧ csv (final (run st)) = csv st.
Proof. apply run_of_failed_fetch. Qed.

(** X4.  One page that has a title but no date (its date property is
    empty) is enough to make the whole run fail before anything is done to
    the calendar or to the table: the other pages of the answer are not
    synchronised either.  The constructor of the card of that page, or of
    a page before it, opens the debugger; what the run raises is
    [BdbQuit] if the debugger is left with quit or finds nothing to read,
    and an [Exception] if it is left with continue. *)
Theorem one_titled_page_without_date_fails_the_run st pages p :
  notion_query env (queries st) id_ = Ok pages →
  p ∈ pages → name_title p ≠ [] → date_prop p = None →
  ∃ e,
    result (run st) = Raise e ∧
    exn_class e = (if pdb_continues env then "Exception" else "BdbQuit") ∧
    mutations (events (run st)) = [] ∧
    df (final (run st)) = df st ∧ csv (final (run st)) = csv st.
Proof.
  intros Hq Hp Ht Hd.
  pose proof (cards_of_fails pages p Hp (Card_init_without_date env p Ht Hd))
    as Hbad.
  pose proof (get_live_result st) as Hlive. rewrite Hq in Hlive.
  destruct (NotionClient.cards_of env pages) as [|e] eqn:Hc; [done|].
  pose proof (cards_of_raises _ _ _ Hc) as Hclass. exists e.
  destruct (run_of_failed_fetch st _ Hlive) as (Hr & Hev & Hdf & Hcsv).
  do 2 (split; [done|]). split; [|done].
  eapply effects_without_mutation; [exact Hev|]. by repeat constructor.
Qed.

(** X5.  Called without a snapshot, each of the three classifications
    fetches one from Notion, with one query, and classifies against it;
    nothing else is done. *)
Theorem classification_without_a_snapshot_fetches_one st live :
  result (get_live st) = Ok live →
  (result (get_new None st) = Ok (Database.index_difference live (df st)) ∧
   effects (events (get_new None st)) = [EvQuery id_]) ∧
  (result (get_deleted None st) = Ok (Database.index_difference (df st) live) ∧
   effects (events (get_deleted None st)) = [EvQuery id_]) ∧
  (result (get_modified None st)
     = Ok (Pd.index_where (Database.modified_filter live) (df st)) ∧
   effects (events (get_modified None st)) = [EvQuery id_]).
Proof.
  intros Hlive.
  assert (∀ logs logs', Forall (λ e, is_log e = true) logs →
            Forall (λ e, is_log e = true) logs' →
            effects ((EvQuery id_ :: logs) ++ logs') = [EvQuery id_]) as Heff.
  { intros logs logs' Hl Hl'. unfold effects. cbn. f_equal.
    apply logs_no_effects. by apply Forall_app. }
  split; [|split].
  - change (wp (get_new None) st (λ r _ ev,
      r = Ok (Database.index_difference live (df st)) ∧ effects ev = [EvQuery id_])).
    unfold Database.get_new, Database.or_live. wp_step.
    eapply wp_conseq; [apply wp_and; [apply wp_self | apply get_live_spec]|].
    intros r s0 ev0 ((-> & _ & _) & Hdf & _ & logs & -> & Hlogs). rewrite Hlive.
    wp_step. wp_step. wp_step. wp_step. wp_step. wp_step. wp_step.
    rewrite Hdf. split; [done|]. apply Heff; [done|].
    constructor; [done|]. rewrite app_nil_r. apply Forall_fmap, Forall_true. done.
  - change (wp (get_deleted None) st (λ r _ ev,
      r = Ok (Database.index_difference (df st) live) ∧ effects ev = [EvQuery id_])).
    unfold Database.get_deleted, Database.or_live. wp_step.
    eapply wp_conseq; [apply wp_and; [apply wp_self | apply get_live_spec]|].
    intros r s0 ev0 ((-> & _ & _) & Hdf & _ & logs & -> & Hlogs). rewrite Hlive.
    wp_step. wp_step. wp_step. wp_step. wp_step. wp_step. wp_step.
    rewrite Hdf. split; [done|]. apply Heff; [done|].
    constructor; [done|]. rewrite app_nil_r. apply Forall_fmap, Forall_true. done.
  - change (wp (get_modified None) st (λ r _ ev,
      r = Ok (Pd.index_where (Database.modified_filter live) (df st)) ∧
      effects ev = [EvQuery id_])).
    unfold Database.get_modified, Database.or_live. wp_step.
    eapply wp_conseq; [apply wp_and; [apply wp_self | apply get_live_spec]|].
    intros r s0 ev0 ((-> & _ & _) & Hdf & _ & logs & -> & Hlogs). rewrite Hlive.
    wp_step. wp_step. wp_step. wp_step. wp_step. wp_step. wp_step.
    rewrite Hdf. split; [done|]. apply Heff; [done|].
    constructor; [done|]. rewrite app_nil_r. apply Forall_fmap, Forall_true. done.
Qed.

Lemma Card_init_untitled page c :
  NotionClient.Card_init env page = Ok c → name_title page = [] →
  NotionClient.last_edited_time c = Null.
Proof.
  unfold NotionClient.Card_init. intros Hc Ht. rewrite Ht in Hc.
  by injection Hc as <-.
Qed.

(** X6.  A page whose title is empty is never classified modified,
    whatever the table holds for it and whatever else changes on the page:
    its card has no time of last edit, which the classification requires
    on both sides. *)
Theorem untitled_page_is_never_classified_modified st pages live p st' :
  notion_query env (queries st) id_ = Ok pages →
  NoDup (page_id <$> pages) →
  result (get_live st) = Ok live →
  p ∈ pages → name_title p = [] →
  ∃ modified,
    result (get_modified (Some live) st') = Ok modified ∧ page_id p ∉ modified.
Proof.
  intros Hq Hnd Hlive Hp Ht.
  destruct (get_live_rows st pages live Hq Hnd Hlive) as [_ Hrows].
  destruct (Hrows p Hp) as (c & Hc & Hrow).
  pose proof (get_modified_spec env id_ live st') as Hspec. unfold wp in Hspec.
  destruct Hspec as (-> & _ & _). eexists. split; [done|].
  intros (row & _ & Hmod)%elem_of_index_where.
  unfold Database.modified_filter in Hmod. rewrite Hrow in Hmod.
  destruct (col_to_dict c) as (_ & _ & _ & Hedit).
  rewrite Hedit, (Card_init_untitled p c Hc Ht) in Hmod. cbn in Hmod.
  by rewrite andb_false_r in Hmod.
Qed.

End FetchFacts.

(** ** The three apply phases *)

Section ApplyFacts.
Context `{PD : PyDatetime} (env : Env) (id_ apple_calendar : string).

#[local] Abbreviation add_one := (Database.add_one env apple_calendar).
#[local] Abbreviation add_events := (Database.add_events env id_ apple_calendar).
#[local] Abbreviation remove_event := (Database.remove_event env apple_calendar).
#[local] Abbreviation remove_events := (Database.remove_events env apple_calendar).
#[local] Abbreviation modify_event := (Database.modify_event env apple_calendar).
#[local] Abbreviation modify_events := (Database.modify_events env id_ apple_calendar).
#[local] Abbreviation written_row :=
  (λ (row : Series) (event_id : cell),
     Pd.reindex Database.columns (<["event_id" := event_id]> row)).

(** *** Additions *)

Lemma col_written_row_event_id (row : Series) event_id :
  Pd.col (written_row row event_id) "event_id" = event_id.
Proof.
  unfold Pd.col at 1, Pd.getattr. rewrite lookup_reindex, decide_True by set_solver.
  unfold Pd.col, Pd.getattr. by rewrite lookup_insert_eq.
Qed.

(** The row one round of [add_events] writes carries a handle that is
    neither missing nor empty. *)
Lemma add_one_handle id s counts st :
  wp (add_one (id, s) counts) st (λ r s' ev,
    df s' = df st ∨
    df st !! id = None ∧
    ∃ event_id, Pd.truthy event_id = true ∧
                df s' = <[id := written_row s event_id]> (df st)).
Proof.
  unfold Database.add_one. destruct counts as [success_count error_count].
  wp_step. wp_step. wp_step. destruct (Pd.attr s "title") as [title|e]; cycle 1.
  { wp_step. wp_step. wp_step. by left. }
  wp_step. wp_step. destruct (Pd.attr s "start_date") as [start_date|e]; cycle 1.
  { wp_step. wp_step. wp_step. by left. }
  wp_step. wp_step. destruct (Pd.attr s "end_date") as [end_date|e]; cycle 1.
  { wp_step. wp_step. wp_step. by left. }
  wp_step. wp_step.
  destruct (Pd.any_row _ _).
  { wp_step. wp_step. wp_step. by left. }
  destruct (bool_decide (id ∈ dom (df st))) eqn:Hid.
  { wp_step. wp_step. wp_step. by left. }
  apply bool_decide_eq_false in Hid. apply not_elem_of_dom in Hid.
  wp_step. wp_step. eapply wp_conseq; [apply add_event_spec|].
  intros r s1 ev (Hdf & Hcsv & Hev). destruct r as [event_id|e]; cycle 1.
  { wp_step. wp_step. wp_step. by left. }
  destruct (Pd.truthy event_id) eqn:Hhandle; cbn [negb].
  2:{ wp_step. wp_step. wp_step. wp_step. by left. }
  wp_step. apply wp_set_row. cbv beta iota.
  wp_step. wp_step. wp_step. apply wp_save. cbv beta iota. wp_step.
  right. split; [done|]. exists event_id. by rewrite Hdf.
Qed.

Lemma add_loop_handle rows counts st :
  wp (for_fold rows counts add_one) st (λ r s' ev,
    ∀ id row, df s' !! id = Some row →
      df st !! id = Some row ∨
      df st !! id = None ∧ Pd.truthy (Pd.col row "event_id") = true).
Proof.
  revert counts st.
  induction rows as [|[i s] rows IH]; intros counts st; cbn [for_fold].
  - wp_step. intros id row Hrow. by left.
  - wp_step. eapply wp_conseq; [apply wp_and; [apply add_one_spec | apply add_one_handle]|].
    intros r s1 ev ((Hok & _) & Hdf). destruct r as [counts'|]; [|done].
    eapply wp_conseq; [apply IH|].
    intros r' s2 ev' Hrows id row Hrow.
    destruct Hdf as [E | (Hfree & eid & Hhandle & E)]; rewrite E in Hrows;
      [by apply Hrows|].
    destruct (Hrows id row Hrow) as [Hold | [Hnone Hrow']].
    + destruct (decide (i = id)) as [->|Hne].
      * rewrite lookup_insert_eq in Hold. injection Hold as <-.
        right. split; [done|]. by rewrite col_written_row_event_id.
      * rewrite lookup_insert_ne in Hold by done. by left.
    + apply lookup_insert_None in Hnone as [Hnone _]. by right.
Qed.

Lemma loc_list_unknown (live : DataFrame) list_id id :
  id ∈ list_id → id ∉ dom live →
  ∃ e, Pd.loc_list live list_id = Raise e ∧ exn_class e = "KeyError".
Proof.
  intros Hin Hout. induction list_id as [|i l IH]; [by apply elem_of_nil in Hin|].
  cbn. destruct (live !! i) as [row|] eqn:Hi; [|by eexists].
  apply elem_of_cons in Hin as [->|Hin].
  { destruct Hout. apply elem_of_dom. eauto. }
  destruct (IH Hin) as (e & -> & He). by exists e.
Qed.

(** X7.  Every row of the table after [add_events] either was in the table
    before, unchanged, or is new and carries a calendar handle that is
    neither missing nor empty: an entry whose creation returned no handle
    is not stored. *)
Theorem add_events_stores_only_rows_with_a_handle list_id live st :
  map_Forall (λ id row,
      df st !! id = Some row ∨
      df st !! id = None ∧ Pd.truthy (Pd.col row "event_id") = true)
    (df (final (add_events list_id (Some live) st))).
Proof.
  change (wp (add_events list_id (Some live)) st (λ _ s' _,
    map_Forall (λ id row,
      df st !! id = Some row ∨
      df st !! id = None ∧ Pd.truthy (Pd.col row "event_id") = true) (df s'))).
  unfold Database.add_events, Database.or_live.
  destruct list_id as [|i l] eqn:El.
  { wp_step. intros id row Hrow. by left. }
  rewrite <- El. clear El i l.
  wp_step. wp_step. wp_step. wp_step.
  destruct (Pd.loc_list live list_id) as [rows|e] eqn:Hrows.
  2:{ intros id row Hrow. by left. }
  wp_step. eapply wp_conseq; [apply wp_and; [apply add_loop_spec | apply add_loop_handle]|].
  intros r s1 ev ((Hok & _) & Hdf). destruct r as [[success_count error_count]|]; [|done].
  destruct (_ || _); wp_step; exact Hdf.
Qed.

(** X8.  [add_events] only adds: the rows the table held are all still
    there, unchanged, the new ids are taken from the list, no event is
    deleted from the calendar and Notion is not asked again. *)
Theorem add_events_only_adds list_id live st :
  df st ⊆ df (final (add_events list_id (Some live) st)) ∧
  dom (df (final (add_events list_id (Some live) st)))
    ⊆ dom (df st) ∪ list_to_set list_id ∧
  only is_delete (events (add_events list_id (Some live) st)) = [] ∧
  queries_of (events (add_events list_id (Some live) st)) = [].
Proof.
  pose proof (add_events_spec env id_ apple_calendar list_id live st) as Hspec.
  unfold wp in Hspec. destruct Hspec as (Hrows & _ & Hev).
  split; [|split; [|split]].
  - apply map_subseteq_spec. intros id row Hrow.
    destruct (Hrows id) as [-> | [Hnone _]]; [done | by rewrite Hrow in Hnone].
  - intros id [row Hrow]%elem_of_dom.
    destruct (Hrows id) as [E | (_ & Hin & _)].
    + apply elem_of_union_l, elem_of_dom. rewrite <- E. eauto.
    + by apply elem_of_union_r, elem_of_list_to_set.
  - apply only_nil_iff. eapply Forall_impl; [exact Hev|]. by intros e [_ ?].
  - apply only_nil_iff. eapply Forall_impl; [exact Hev|]. by intros e [? _].
Qed.

(** X9.  Given ids of the snapshot, [add_events] returns normally whatever
    the rows hold and whatever the calendar answers: every failure of a
    round is caught in that round. *)
Theorem add_events_never_raises list_id live st :
  (∀ id, id ∈ list_id → id ∈ dom live) →
  result (add_events list_id (Some live) st) = Ok tt.
Proof.
  pose proof (add_events_spec env id_ apple_calendar list_id live st) as Hspec.
  unfold wp in Hspec. destruct Hspec as (_ & Hok & _). exact Hok.
Qed.

(** X10.  An id of the list that the snapshot lacks makes [add_events] fail
    with a [KeyError] before the first round: nothing is created, nothing
    is written, not even for the ids of the list the snapshot has. *)
Theorem add_events_of_an_unknown_id_does_nothing list_id live st id :
  id ∈ list_id → id ∉ dom live →
  ∃ e, exn_class e = "KeyError" ∧
    result (add_events list_id (Some live) st) = Raise e ∧
    final (add_events list_id (Some live) st) = st ∧
    events (add_events list_id (Some live) st) = [].
Proof.
  intros Hin Hout.
  destruct (loc_list_unknown live list_id id Hin Hout) as (e & He & Hclass).
  exists e. split; [done|].
  change (wp (add_events list_id (Some live)) st (λ r s' ev,
    r = Raise e ∧ s' = st ∧ ev = [])).
  unfold Database.add_events, Database.or_live.
  destruct list_id as [|i l] eqn:El; [by apply elem_of_nil in Hin|].
  rewrite <- El in *. clear El i l.
  wp_step. wp_step. wp_step. wp_step. by rewrite He.
Qed.

(** *** Removals *)

Lemma remove_event_unknown id st :
  df st !! id = None →
  wp (remove_event id) st (λ r s' ev,
    r = Raise (Exn "KeyError" id) ∧ s' = st ∧ ev = []).
Proof.
  intros Hid. unfold Database.remove_event, Pd.loc_cell.
  wp_step. wp_step. wp_step. wp_step. by rewrite Hid.
Qed.

Lemma remove_loop_unknown pre id post st :
  NoDup pre → (∀ i, i ∈ pre → i ∈ dom (df st)) →
  id ∉ dom (df st) ∨ id ∈ pre →
  wp (for_each (pre ++ id :: post) remove_event) st (λ r s' ev,
    r = Raise (Exn "KeyError" id) ∧ csv s' = csv st ∧ only is_save ev = [] ∧
    length (mutations ev) = length pre ∧
    ∀ i, df s' !! i = if decide (i ∈ pre) then None else df st !! i).
Proof.
  revert st. induction pre as [|j pre IH]; intros st Hnd Hall Hid;
    cbn [app for_each].
  - destruct Hid as [Hid%not_elem_of_dom | Hid]; [|by apply elem_of_nil in Hid].
    wp_step. eapply wp_conseq; [by apply remove_event_unknown|].
    intros r s1 ev (-> & -> & ->). do 4 (split; [done|]).
    intros i. by rewrite decide_False by apply not_elem_of_nil.
  - apply NoDup_cons in Hnd as [Hj Hnd].
    assert (j ∈ dom (df st)) as [row Hrow]%elem_of_dom by (apply Hall; left).
    wp_step. eapply wp_conseq; [apply remove_event_spec|].
    intros r s1 ev (_ & Hsave & Hcsv & Hone). rewrite Hrow in Hone.
    destruct Hone as (-> & Hdf1 & Hmut).
    eapply wp_conseq; [apply IH|].
    + done.
    + intros i Hi. rewrite Hdf1, dom_delete_L. apply elem_of_difference.
      split; [apply Hall; by right|]. by intros ->%elem_of_singleton.
    + rewrite Hdf1, dom_delete_L.
      destruct Hid as [Hid | [->|Hid]%elem_of_cons].
      * left. intros [? _]%elem_of_difference. done.
      * left. intros [_ Hn]%elem_of_difference. apply Hn. by apply elem_of_singleton.
      * by right.
    + intros r' s2 ev' (-> & Hcsv' & Hsave' & Hmut' & Hdf2).
      split; [done|]. split; [congruence|].
      split; [by rewrite only_app, Hsave, Hsave'|].
      split.
      { unfold mutations in *. rewrite only_app, length_app, Hmut, Hmut'. done. }
      intros i. rewrite Hdf2, Hdf1.
      destruct (decide (i ∈ pre)) as [Hin|Hnin].
      * by rewrite decide_True by (by right).
      * destruct (decide (j = i)) as [->|Hne].
        -- rewrite lookup_delete_eq. by rewrite decide_True by left.
        -- rewrite lookup_delete_ne by done. rewrite decide_False; [done|].
           by intros [|]%elem_of_cons.
Qed.

(** X11.  Given a list without repetition of ids of the table,
    [remove_events] returns normally; the table then holds the rows of the
    other ids, unchanged, and is saved; one deletion script was run for
    each id of the list, and no event was created. *)
Theorem remove_events_removes_the_listed_rows list_id st :
  NoDup list_id → (∀ id, id ∈ list_id → id ∈ dom (df st)) →
  result (remove_events list_id st) = Ok tt ∧
  (∀ id, df (final (remove_events list_id st)) !! id
         = if decide (id ∈ list_id) then None else df st !! id) ∧
  csv (final (remove_events list_id st)) = df (final (remove_events list_id st)) ∧
  length (only is_delete (events (remove_events list_id st))) = length list_id ∧
  only is_make (events (remove_events list_id st)) = [].
Proof.
  intros Hnd Hall.
  pose proof (remove_events_spec env apple_calendar list_id st) as Hspec.
  unfold wp in Hspec. destruct Hspec as (Hev & Hrest).
  destruct (Hrest Hnd Hall) as (Hr & Hdf & Hcsv & before & Hbefore & _ & Hmut).
  do 3 (split; [done|]).
  assert (only is_make (events (remove_events list_id st)) = []) as Hmake.
  { apply only_nil_iff. eapply Forall_impl; [exact Hev|]. by intros e [_ ?]. }
  split; [|done]. rewrite <- Hmut.
  rewrite Hbefore in Hmake |- *. unfold mutations. rewrite !only_app in Hmake |- *.
  cbn. rewrite app_nil_r. apply app_eq_nil in Hmake as [Hmake _].
  clear -Hmake. induction before as [|e ev IH]; [done|].
  unfold only in *. cbn in *. destruct e as [| [] | |]; cbn in *; try done; auto.
Qed.

(** X12.  When the list reaches an id that is not in the table, or that it
    has named before, [remove_events] fails there with a [KeyError] and
    saves nothing: the ids that come before have lost their event (one
    script each) and their row in memory, while the file still holds the
    table as it was. *)
Theorem remove_events_of_an_unknown_id_saves_nothing pre id post st :
  NoDup pre → (∀ i, i ∈ pre → i ∈ dom (df st)) →
  id ∉ dom (df st) ∨ id ∈ pre →
  result (remove_events (pre ++ id :: post) st) = Raise (Exn "KeyError" id) ∧
  csv (final (remove_events (pre ++ id :: post) st)) = csv st ∧
  only is_save (events (remove_events (pre ++ id :: post) st)) = [] ∧
  length (mutations (events (remove_events (pre ++ id :: post) st))) = length pre ∧
  ∀ i, df (final (remove_events (pre ++ id :: post) st)) !! i
       = if decide (i ∈ pre) then None else df st !! i.
Proof.
  intros Hnd Hall Hid.
  change (wp (remove_events (pre ++ id :: post)) st (λ r s' ev,
    r = Raise (Exn "KeyError" id) ∧ csv s' = csv st ∧ only is_save ev = [] ∧
    length (mutations ev) = length pre ∧
    ∀ i, df s' !! i = if decide (i ∈ pre) then None else df st !! i)).
  unfold Database.remove_events. wp_step.
  eapply wp_conseq; [by apply remove_loop_unknown|].
  by intros r s1 ev (-> & ? & ? & ? & ?).
Qed.

(** *** Modifications *)

Lemma modify_loop_saves live list_id st :
  wp (for_each list_id (modify_event live)) st (λ r s' ev,
    is_ok r = true → csv st = df st → csv s' = df s').
Proof.
  revert st. induction list_id as [|i l IH]; intros st; cbn [for_each].
  - by wp_step.
  - wp_step. eapply wp_conseq; [apply modify_event_saves|].
    intros r s1 ev Hsaved. destruct r as [[]|e]; [|done].
    destruct Hsaved as [Hcsv _].
    eapply wp_conseq; [apply IH|]. intros r' s2 ev' Hrest Hok _. by apply Hrest.
Qed.

(** X13.  [modify_events] neither adds nor removes an id, whether it
    returns or fails on the way; the rows of the ids it is not given are
    left as they are, and Notion is not asked again. *)
Theorem modify_events_keeps_the_index list_id live st :
  dom (df (final (modify_events list_id (Some live) st))) = dom (df st) ∧
  (∀ id, id ∉ list_id →
     df (final (modify_events list_id (Some live) st)) !! id = df st !! id) ∧
  queries_of (events (modify_events list_id (Some live) st)) = [].
Proof.
  pose proof (modify_events_spec env id_ apple_calendar list_id live st) as Hspec.
  unfold wp in Hspec. destruct Hspec as (Hev & Hout & Hany & _).
  split; [|split; [done|]].
  - apply set_eq. intros id. rewrite !elem_of_dom.
    destruct (Hany id) as [-> | (Hsome & row & eid & _ & ->)]; [done|]. by split.
  - apply only_nil_iff. eapply Forall_impl; [exact Hev|]. done.
Qed.

(** X14.  An id that the snapshot or the table lacks makes its round of
    [modify_events] fail with a [KeyError] before any script is run: no
    event is deleted for it, and the ids that follow are not handled. *)
Theorem modify_events_of_an_unknown_id_runs_no_script id rest live st :
  live !! id = None ∨ df st !! id = None →
  result (modify_events (id :: rest) (Some live) st) = Raise (Exn "KeyError" id) ∧
  final (modify_events (id :: rest) (Some live) st) = st ∧
  events (modify_events (id :: rest) (Some live) st) = [].
Proof.
  intros Hid.
  change (wp (modify_events (id :: rest) (Some live)) st (λ r s' ev,
    r = Raise (Exn "KeyError" id) ∧ s' = st ∧ ev = [])).
  unfold Database.modify_events, Database.or_live. wp_step. wp_step.
  cbn [for_each]. wp_step.
  unfold Database.modify_event, Pd.loc, Pd.loc_cell.
  wp_step. wp_step. destruct (live !! id) as [row|] eqn:Hlive; [|done].
  destruct Hid as [|Hid]; [done|].
  wp_step. wp_step. wp_step. wp_step. by rewrite Hid.
Qed.

(** X15.  Lists without entries: [add_events] returns at once, without
    even fetching the snapshot it was not given; [remove_events] still
    writes the file; [modify_events] does nothing once it has a snapshot,
    which it fetches with one query if it was given none. *)
Theorem apply_phases_on_empty_lists current live st :
  add_events [] current st = {| result := Ok tt; final := st; events := [] |} ∧
  (result (remove_events [] st) = Ok tt ∧
   events (remove_events [] st) = [EvSave (df st)] ∧
   df (final (remove_events [] st)) = df st ∧
   csv (final (remove_events [] st)) = df st) ∧
  (result (modify_events [] (Some live) st) = Ok tt ∧
   final (modify_events [] (Some live) st) = st ∧
   events (modify_events [] (Some live) st) = []) ∧
  effects (events (modify_events [] None st)) = [EvQuery id_].
Proof.
  split; [done|]. split; [done|]. split; [done|].
  change (wp (modify_events [] None) st (λ _ _ ev, effects ev = [EvQuery id_])).
  unfold Database.modify_events, Database.or_live. wp_step.
  eapply wp_conseq; [apply get_live_spec|].
  intros r s0 ev0 (_ & _ & logs & -> & Hlogs).
  assert (effects (EvQuery id_ :: logs) = [EvQuery id_]) as Heff.
  { unfold effects. cbn. f_equal. by apply logs_no_effects. }
  destruct r as [live0|e]; [|done]. cbn [for_each]. wp_step. by rewrite app_nil_r.
Qed.

(** *** The run *)

#[local] Abbreviation get_live := (Database.get_live env id_).
#[local] Abbreviation run := (Database.run env id_ apple_calendar).

(** X16.  An entry that is stored, is still in the snapshot and is not
    classified modified keeps its row through the run, handle included,
    whatever happens to the other entries and whether the run returns or
    fails. *)
Theorem run_leaves_unmodified_entries_alone live st id row :
  result (get_live st) = Ok live →
  df st !! id = Some row → id ∈ dom live →
  Database.modified_filter live id row = false →
  df (final (run st)) !! id = Some row.
Proof.
  intros Hlive Hrow Hin Hsame.
  change (wp run st (λ _ s _, df s !! id = Some row)).
  unfold Database.run. wp_step.
  eapply wp_conseq; [apply wp_and; [apply wp_self | apply get_live_spec]|].
  intros r s0 ev0 ((-> & _ & _) & Hdf0 & _). rewrite Hlive.
  rewrite <- Hdf0 in Hrow. clear Hdf0.
  wp_step. eapply wp_conseq; [apply get_new_spec|]. intros ? ? ev1 (-> & -> & _).
  wp_step. eapply wp_conseq; [apply add_events_spec|].
  intros r s1 ev2 (Hadd & _ & _).
  assert (df s1 !! id = Some row) as Hrow1.
  { destruct (Hadd id) as [-> | [Hnone _]]; [done | by rewrite Hrow in Hnone]. }
  destruct r as [[]|e]; [|done].
  wp_step. eapply wp_conseq; [apply get_deleted_spec|]. intros ? ? ev3 (-> & -> & _).
  wp_step. eapply wp_conseq; [apply remove_events_spec|].
  intros r s2 ev4 (_ & Hrem).
  destruct Hrem as (-> & Hdf2 & _).
  { apply NoDup_index_difference. }
  { by intros i [? _]%elem_of_index_difference. }
  assert (df s2 !! id = Some row) as Hrow2.
  { rewrite Hdf2, decide_False; [done|]. by intros [_ ?]%elem_of_index_difference. }
  wp_step. eapply wp_conseq; [apply get_modified_spec|]. intros ? ? ev5 (-> & -> & _).
  eapply wp_conseq; [apply modify_events_spec|].
  intros r s3 ev6 (_ & Hout & _). rewrite Hout; [done|].
  intros (row' & Hrow' & Hmod)%elem_of_index_where.
  rewrite Hrow2 in Hrow'. injection Hrow' as <-. by rewrite Hsame in Hmod.
Qed.

(** X17.  When the run returns normally the file holds the table: the
    last write of the run came after its last change to the table.  The
    table then has no id that the snapshot of the run lacks. *)
Theorem run_ends_with_the_table_saved st :
  result (run st) = Ok tt →
  csv (final (run st)) = df (final (run st)) ∧
  ∃ live, result (get_live st) = Ok live ∧ dom (df (final (run st))) ⊆ dom live.
Proof.
  intros Hok. split.
  - revert Hok.
    change (wp run st (λ r s _, r = Ok tt → csv s = df s)).
    unfold Database.run. wp_step.
    eapply wp_conseq; [apply get_live_spec|]. intros r s0 ev0 _.
    destruct r as [live|e]; [|done].
    wp_step. eapply wp_conseq; [apply get_new_spec|]. intros ? ? ev1 (-> & -> & _).
    wp_step. eapply wp_conseq; [apply add_events_spec|].
    intros r s1 ev2 _. destruct r as [[]|e]; [|done].
    wp_step. eapply wp_conseq; [apply get_deleted_spec|]. intros ? ? ev3 (-> & -> & _).
    wp_step. eapply wp_conseq; [apply remove_events_spec|].
    intros r s2 ev4 (_ & Hrem). destruct r as [[]|e]; [|done].
    destruct Hrem as (_ & _ & Hcsv2 & _).
    { apply NoDup_index_difference. }
    { by intros i [? _]%elem_of_index_difference. }
    wp_step. eapply wp_conseq; [apply get_modified_spec|]. intros ? ? ev5 (-> & -> & _).
    unfold Database.modify_events, Database.or_live. wp_step. wp_step.
    eapply wp_conseq; [apply modify_loop_saves|].
    intros r s3 ev6 Hsaved ->. by apply Hsaved.
  - destruct (result (get_live st)) as [live|e] eqn:Hlive.
    + exists live. split; [done|].
      by destruct (run_settles env id_ apple_calendar live st Hlive Hok).
    + destruct (run_of_failed_fetch env id_ apple_calendar st e Hlive) as [Hr _].
      by rewrite Hr in Hok.
Qed.

(** X18.  A run that finds nothing to do (the table has exactly the ids
    of the snapshot and no row is classified modified) still writes the
    file: besides log lines, its trace is the query followed by one save of
    the unchanged table. *)
Theorem idle_run_queries_and_saves_once live st :
  result (get_live st) = Ok live →
  dom (df st) = dom live →
  (∀ id row, df st !! id = Some row →
             Database.modified_filter live id row = false) →
  effects (events (run st)) = [EvQuery id_; EvSave (df st)].
Proof.
  intros Hlive Hdom Hrows.
  assert (Database.index_difference live (df st) = []) as Hnew
    by (apply index_difference_nil; by rewrite Hdom).
  assert (Database.index_difference (df st) live = []) as Hdel
    by (apply index_difference_nil; by rewrite Hdom).
  assert (Pd.index_where (Database.modified_filter live) (df st) = []) as Hmod
    by (by apply index_where_nil).
  change (wp run st (λ _ _ ev, effects ev = [EvQuery id_; EvSave (df st)])).
  unfold Database.run. wp_step.
  eapply wp_conseq; [apply wp_and; [apply wp_self | apply get_live_spec]|].
  intros r s0 ev0 ((-> & _ & _) & Hdf0 & _ & logs0 & -> & Hlogs0).
  rewrite Hlive. wp_step.
  eapply wp_conseq; [apply get_new_spec|]. intros ? ? ev1 (-> & -> & Hlogs1).
  rewrite Hdf0, Hnew.
  wp_step. unfold Database.add_events. wp_step.
  wp_step. eapply wp_conseq; [apply get_deleted_spec|].
  intros ? ? ev3 (-> & -> & Hlogs3).
  rewrite Hdf0, Hdel.
  wp_step. unfold Database.remove_events. wp_step. cbn [for_each]. wp_step.
  apply wp_save. cbv beta iota.
  wp_step. eapply wp_conseq; [apply get_modified_spec|].
  intros ? ? ev5 (-> & -> & Hlogs5). cbn [df].
  rewrite Hdf0, Hmod.
  unfold Database.modify_events, Database.or_live. wp_step. wp_step.
  cbn [for_each]. wp_step.
  apply logs_no_effects in Hlogs0, Hlogs1, Hlogs3, Hlogs5.
  unfold effects in *. change (EvQuery id_ :: logs0) with ([EvQuery id_] ++ logs0).
  rewrite !only_app, Hlogs0, Hlogs1, Hlogs3, Hlogs5. done.
Qed.

End ApplyFacts.

(** ** The duplicate guard *)

Section GuardFacts.
Context `{PD : PyDatetime} (env : Env) (id_ apple_calendar : string).

#[local] Abbreviation add_one := (Database.add_one env apple_calendar).
#[local] Abbreviation add_events := (Database.add_events env id_ apple_calendar).
#[local] Abbreviation written_row :=
  (λ (row : Series) (event_id : cell),
     Pd.reindex Database.columns (<["event_id" := event_id]> row)).

Lemma eq_sym_cell a b : Pd.eq a b = Pd.eq b a.
Proof.
  unfold Pd.eq. destruct (Pd.isna a), (Pd.isna b); cbn; try done.
  by rewrite (bool_decide_ext (a = b) (b = a)).
Qed.

Lemma same_slot_sym a b : same_slot a b = same_slot b a.
Proof.
  unfold same_slot, Database.same_event.
  by rewrite (eq_sym_cell (Pd.col b "title")), (eq_sym_cell (Pd.col b "start_date")),
    (eq_sym_cell (Pd.col b "end_date")).
Qed.

Lemma same_slot_written_l s event_id b :
  same_slot (written_row s event_id) b = same_slot s b.
Proof.
  unfold same_slot. by rewrite !col_written_row by (done || set_solver).
Qed.

Lemma any_row_false mask (d : DataFrame) i r :
  Pd.any_row mask d = false → d !! i = Some r → mask r = false.
Proof.
  unfold Pd.any_row. intros Hnone Hr.
  destruct (mask r) eqn:E; [|done].
  assert (existsb (λ kv : string * Series, mask kv.2) (map_to_list d) = true) as Hex.
  { apply existsb_exists. exists (i, r). split; [|done].
    apply list_elem_of_In. by apply elem_of_map_to_list. }
  congruence.
Qed.

Lemma attr_col (s : Series) label c : Pd.attr s label = Ok c → Pd.col s label = c.
Proof.
  unfold Pd.attr, Pd.col, Pd.getattr. destruct (s !! label); [|done]. by intros [= <-].
Qed.

(** A round of [add_events] writes a row only if no stored row stands for
    the same event. *)
Lemma add_one_guard id s counts st :
  wp (add_one (id, s) counts) st (λ r s' ev,
    df s' = df st ∨
    df st !! id = None ∧
    (∀ i r, df st !! i = Some r → same_slot s r = false) ∧
    ∃ event_id, df s' = <[id := written_row s event_id]> (df st)).
Proof.
  unfold Database.add_one. destruct counts as [success_count error_count].
  wp_step. wp_step. wp_step.
  destruct (Pd.attr s "title") as [title|e] eqn:Ht; cycle 1.
  { wp_step. wp_step. wp_step. by left. }
  wp_step. wp_step.
  destruct (Pd.attr s "start_date") as [start_date|e] eqn:Hs; cycle 1.
  { wp_step. wp_step. wp_step. by left. }
  wp_step. wp_step.
  destruct (Pd.attr s "end_date") as [end_date|e] eqn:He; cycle 1.
  { wp_step. wp_step. wp_step. by left. }
  apply attr_col in Ht, Hs, He.
  wp_step. wp_step.
  destruct (Pd.any_row _ _) eqn:Hguard.
  { wp_step. wp_step. wp_step. by left. }
  destruct (bool_decide (id ∈ dom (df st))) eqn:Hid.
  { wp_step. wp_step. wp_step. by left. }
  apply bool_decide_eq_false in Hid. apply not_elem_of_dom in Hid.
  wp_step. wp_step. eapply wp_conseq; [apply add_event_spec|].
  intros r s1 ev (Hdf & Hcsv & Hev). destruct r as [event_id|e]; cycle 1.
  { wp_step. wp_step. wp_step. by left. }
  destruct (negb (Pd.truthy event_id)).
  { wp_step. wp_step. wp_step. wp_step. by left. }
  wp_step. apply wp_set_row. cbv beta iota.
  wp_step. wp_step. wp_step. apply wp_save. cbv beta iota. wp_step.
  right. split; [done|]. split.
  - intros i r Hr. unfold same_slot. rewrite Ht, Hs, He.
    by eapply any_row_false.
  - exists event_id. by rewrite Hdf.
Qed.

Lemma add_loop_distinct rows counts st :
  wp (for_fold rows counts add_one) st (λ r s' ev,
    distinct_events (df st) → distinct_events (df s')).
Proof.
  revert counts st.
  induction rows as [|[i s] rows IH]; intros counts st; cbn [for_fold].
  - by wp_step.
  - wp_step.
    eapply wp_conseq; [apply wp_and; [apply add_one_spec | apply add_one_guard]|].
    intros r s1 ev ((Hok & _) & Hdf). destruct r as [counts'|]; [|done].
    eapply wp_conseq; [apply IH|].
    intros r' s2 ev' Hrest Hst. apply Hrest. clear Hrest.
    destruct Hdf as [-> | (Hfree & Hguard & eid & ->)]; [done|].
    intros j k a b Ha Hb Hne.
    destruct (decide (i = j)) as [<-|Hj], (decide (i = k)) as [<-|Hk].
    + done.
    + rewrite lookup_insert_eq in Ha. rewrite lookup_insert_ne in Hb by done.
      injection Ha as <-. rewrite same_slot_written_l. by eapply Hguard.
    + rewrite lookup_insert_eq in Hb. rewrite lookup_insert_ne in Ha by done.
      injection Hb as <-. rewrite same_slot_sym, same_slot_written_l.
      by eapply Hguard.
    + rewrite lookup_insert_ne in Ha, Hb by done. by eapply Hst.
Qed.

(** X19.  The duplicate guard keeps the table free of doubles: if no two
    rows of the table stand for one event (a present title, start and end
    that are the same), this is still so after [add_events], whatever the
    snapshot holds. *)
Theorem add_events_keeps_events_distinct list_id live st :
  distinct_events (df st) →
  distinct_events (df (final (add_events list_id (Some live) st))).
Proof.
  change (wp (add_events list_id (Some live)) st (λ _ s' _,
    distinct_events (df st) → distinct_events (df s'))).
  unfold Database.add_events, Database.or_live.
  destruct list_id as [|i l] eqn:El; [by wp_step|].
  rewrite <- El. clear El i l.
  wp_step. wp_step. wp_step. wp_step.
  destruct (Pd.loc_list live list_id) as [rows|e] eqn:Hrows; [|done].
  wp_step.
  eapply wp_conseq; [apply wp_and; [apply add_loop_spec | apply add_loop_distinct]|].
  intros r s1 ev ((Hok & _) & Hdf). destruct r as [[success_count error_count]|]; [|done].
  destruct (_ || _); wp_step; exact Hdf.
Qed.

End GuardFacts.

(** ** Two runs in a row *)

Lemma any_row_true mask (d : DataFrame) :
  Pd.any_row mask d = true → ∃ i r, d !! i = Some r ∧ mask r = true.
Proof.
  unfold Pd.any_row. intros [[i r] [Hin Hm]]%existsb_exists.
  exists i, r. split; [|done]. apply elem_of_map_to_list. by apply list_elem_of_In.
Qed.

(** What the test [guard_skips_none] says of each new entry. *)
Lemma guard_skips_none_spec stored live :
  guard_skips_none stored live = true →
  ∀ id s, id ∈ computeNew stored live → live !! id = Some s →
    (∀ i r, stored !! i = Some r → same_slot s r = false) ∧
    (∀ j s', j ∈ computeNew stored live → j ≠ id → live !! j = Some s' →
             same_slot s s' = false).
Proof.
  unfold guard_skips_none. cbv zeta. rewrite forallb_forall.
  intros Hall id s Hid Hs.
  specialize (Hall id). rewrite Hs in Hall.
  apply andb_true_iff in Hall as [Hstored Hnew]; [|by apply list_elem_of_In].
  split.
  - intros i r Hr. apply negb_true_iff in Hstored. by eapply any_row_false.
  - intros j s' Hj Hne Hs'. rewrite forallb_forall in Hnew.
    specialize (Hnew j). rewrite Hs' in Hnew.
    apply orb_true_iff in Hnew as [Heq|Hn]; [| |by apply list_elem_of_In].
    + by apply bool_decide_eq_true in Heq.
    + by apply negb_true_iff in Hn.
Qed.

(** A trace with an error line is not free of errors. *)
Lemma error_logged t msg t' : only is_error (t ++ EvLog ERROR msg :: t') ≠ [].
Proof. rewrite only_app. cbn. by destruct (only is_error t). Qed.

Lemma only_nil_app p a b : only p (a ++ b) = [] ↔ only p a = [] ∧ only p b = [].
Proof. rewrite only_app. apply app_nil. Qed.

Section SecondRun.
Context `{PD : PyDatetime} (env : Env) (id_ apple_calendar : string).

#[local] Abbreviation add_one := (Database.add_one env apple_calendar).
#[local] Abbreviation add_events := (Database.add_events env id_ apple_calendar).
#[local] Abbreviation get_live := (Database.get_live env id_).
#[local] Abbreviation run := (Database.run env id_ apple_calendar).
#[local] Abbreviation written_row :=
  (λ (row : Series) (event_id : cell),
     Pd.reindex Database.columns (<["event_id" := event_id]> row)).

(** A round of [add_events] that logs no error, on an id that is free and
    a row that no stored row shadows, stores the row. *)
Lemma add_one_stores id s counts st :
  wp (add_one (id, s) counts) st (λ r s' ev,
    only is_error ev = [] →
    df st !! id = None →
    (∀ i r, df st !! i = Some r → same_slot s r = false) →
    ∃ event_id, df s' = <[id := written_row s event_id]> (df st)).
Proof.
  unfold Database.add_one. destruct counts as [success_count error_count].
  wp_step. wp_step. wp_step.
  destruct (Pd.attr s "title") as [title|e] eqn:Ht; cycle 1.
  { wp_step. wp_step. wp_step. intros Herr. by apply (error_logged [] _ []) in Herr. }
  wp_step. wp_step.
  destruct (Pd.attr s "start_date") as [start_date|e] eqn:Hs; cycle 1.
  { wp_step. wp_step. wp_step. intros Herr. by apply (error_logged [] _ []) in Herr. }
  wp_step. wp_step.
  destruct (Pd.attr s "end_date") as [end_date|e] eqn:He; cycle 1.
  { wp_step. wp_step. wp_step. intros Herr. by apply (error_logged [] _ []) in Herr. }
  apply attr_col in Ht, Hs, He.
  wp_step. wp_step.
  destruct (Pd.any_row _ _) eqn:Hguard.
  { wp_step. wp_step. wp_step. intros _ _ Hnone.
    apply any_row_true in Hguard as (i & r & Hr & Hm).
    specialize (Hnone i r Hr). unfold same_slot in Hnone.
    rewrite Ht, Hs, He in Hnone. congruence. }
  destruct (bool_decide (id ∈ dom (df st))) eqn:Hid.
  { wp_step. wp_step. wp_step. intros _ Hfree _.
    apply bool_decide_eq_true in Hid. by apply not_elem_of_dom in Hfree. }
  wp_step. wp_step. eapply wp_conseq; [apply add_event_spec|].
  intros r s1 ev (Hdf & Hcsv & Hev). destruct r as [event_id|e]; cycle 1.
  { wp_step. wp_step. wp_step. intros Herr. rewrite app_nil_r in Herr.
    by apply error_logged in Herr. }
  destruct (negb (Pd.truthy event_id)).
  { wp_step. wp_step. wp_step. wp_step. intros Herr.
    rewrite app_nil_r in Herr. by apply error_logged in Herr. }
  wp_step. apply wp_set_row. cbv beta iota.
  wp_step. wp_step. wp_step. apply wp_save. cbv beta iota. wp_step.
  intros _ _ _. exists event_id. by rewrite Hdf.
Qed.


Lemma same_slot_written_r s b event_id :
  same_slot s (written_row b event_id) = same_slot s b.
Proof. by rewrite same_slot_sym, same_slot_written_l, same_slot_sym. Qed.

(** The loop of [add_events], when it logs no error, stores every row it is
    given, provided the ids are distinct and free, and no row is shadowed
    by a stored row or by another row of the list. *)
Lemma add_loop_stores rows counts st :
  wp (for_fold rows counts add_one) st (λ r s' ev,
    only is_error ev = [] →
    NoDup rows.*1 →
    (∀ id s, (id, s) ∈ rows → df st !! id = None) →
    (∀ id s i r, (id, s) ∈ rows → df st !! i = Some r → same_slot s r = false) →
    (∀ id s id' s', (id, s) ∈ rows → (id', s') ∈ rows → id ≠ id' →
                    same_slot s s' = false) →
    ∀ id s, (id, s) ∈ rows → id ∈ dom (df s')).
Proof.
  revert counts st.
  induction rows as [|[i s] rows IH]; intros counts st; cbn [for_fold].
  - wp_step. intros _ _ _ _ _ id s Hin. by apply elem_of_nil in Hin.
  - wp_step.
    eapply wp_conseq; [apply wp_and; [apply add_one_spec | apply add_one_stores]|].
    intros r s1 ev ((Hok & _) & Hone). destruct r as [counts'|]; [|done].
    eapply wp_conseq; [apply wp_and; [apply add_loop_spec | apply IH]|].
    intros r' s2 ev' ((_ & Hkept & _) & Hrest) Herr Hnodup Hfree Hstored Hnew.
    rewrite only_app in Herr. apply app_nil in Herr as [Herr1 Herr2].
    rewrite fmap_cons in Hnodup. apply NoDup_cons in Hnodup as [Hi Hnodup].
    destruct Hone as [eid Hdf1]; [done | | |].
    { eapply Hfree. left. }
    { intros k r. eapply Hstored. left. }
    assert (∀ id s', (id, s') ∈ rows → id ≠ i) as Hother.
    { intros id s' Hin ->. apply Hi. apply list_elem_of_fmap. by exists (i, s'). }
    intros id s' [[= -> ->]|Hin]%elem_of_cons.
    + apply elem_of_dom. destruct (Hkept i) as [-> | [Hnone _]].
      * rewrite Hdf1, lookup_insert_eq. eauto.
      * rewrite Hdf1, lookup_insert_eq in Hnone. done.
    + eapply Hrest; [done | done | | | | exact Hin].
      * intros k r Hk. rewrite Hdf1, lookup_insert_ne.
        -- eapply Hfree. by right.
        -- intros <-. by eapply Hother.
      * intros k r j b Hk Hj. rewrite Hdf1 in Hj.
        destruct (decide (i = j)) as [<-|Hne].
        -- rewrite lookup_insert_eq in Hj. injection Hj as <-.
           rewrite same_slot_written_r.
           eapply (Hnew k r i s); [by right | left |]. by eapply Hother.
        -- rewrite lookup_insert_ne in Hj by done.
           eapply Hstored; [by right | done].
      * intros k r k2 r2 Hk Hk2. eapply Hnew; by right.
Qed.

Lemma loc_list_fst (live : DataFrame) list_id rows :
  Pd.loc_list live list_id = Ok rows → rows.*1 = list_id.
Proof.
  revert rows. induction list_id as [|i l IH]; simpl; intros rows Hrows.
  - by injection Hrows as <-.
  - destruct (live !! i) as [r|]; [|done].
    destruct (Pd.loc_list live l) as [rs|]; [|done].
    injection Hrows as <-. cbn. f_equal. by apply IH.
Qed.

(** When [add_events] logs no error on the new entries of the snapshot,
    none of which the duplicate guard skips, each of them is stored. *)
Lemma add_events_stores_new live st :
  wp (add_events (computeNew (df st) live) (Some live)) st (λ r s' ev,
    only is_error ev = [] →
    guard_skips_none (df st) live = true →
    ∀ id, id ∈ computeNew (df st) live → id ∈ dom (df s')).
Proof.
  unfold Database.add_events, Database.or_live.
  destruct (computeNew (df st) live) as [|i l] eqn:El.
  { wp_step. intros _ _ id Hid. by apply elem_of_nil in Hid. }
  rewrite <- El. clear El i l.
  wp_step. wp_step. wp_step. wp_step.
  destruct (Pd.loc_list live (computeNew (df st) live)) as [rows|e] eqn:Hrows.
  2:{ intros _ _ id _.
      assert (is_ok (Pd.loc_list live (computeNew (df st) live)) = true) as Hok.
      { apply loc_list_ok. by intros j [? _]%elem_of_index_difference. }
      by rewrite Hrows in Hok. }
  wp_step.
  eapply wp_conseq; [apply wp_and; [apply add_loop_spec | apply add_loop_stores]|].
  intros r s1 ev ((Hok & _) & Hstores).
  destruct r as [[success_count error_count]|]; [|done].
  assert (only is_error ev = [] → guard_skips_none (df st) live = true →
          ∀ id, id ∈ computeNew (df st) live → id ∈ dom (df s1)) as Hall.
  { intros Herr Hguard id Hid.
    pose proof (loc_list_fst _ _ _ Hrows) as Hfst.
    assert (∃ s, (id, s) ∈ rows) as [s Hin].
    { rewrite <- Hfst in Hid. apply list_elem_of_fmap in Hid as [[j s] [-> Hin]].
      by exists s. }
    eapply Hstores; [done | | | | | exact Hin].
    - rewrite Hfst. apply NoDup_index_difference.
    - intros j s' Hj. destruct (loc_list_rows _ _ _ Hrows _ _ Hj) as [Hnew _].
      apply elem_of_index_difference in Hnew as [_ Hnot].
      by apply not_elem_of_dom.
    - intros j s' k r Hj Hk.
      destruct (loc_list_rows _ _ _ Hrows _ _ Hj) as [Hnew Hlive].
      destruct (guard_skips_none_spec _ _ Hguard j s' Hnew Hlive) as [Hst _].
      by eapply Hst.
    - intros j s' j' s'' Hj Hj' Hne.
      destruct (loc_list_rows _ _ _ Hrows _ _ Hj) as [Hnew Hlive].
      destruct (loc_list_rows _ _ _ Hrows _ _ Hj') as [Hnew' Hlive'].
      destruct (guard_skips_none_spec _ _ Hguard j s' Hnew Hlive) as [_ Hothers].
      eapply Hothers; [exact Hnew' | done | done]. }
  destruct (_ || _); wp_step; intros Herr; apply Hall;
    rewrite ?only_nil_app in Herr; tauto.
Qed.


Lemma add_events_stores live st :
  wp (add_events (computeNew (df st) live) (Some live)) st (λ r s' ev,
    only is_error ev = [] →
    guard_skips_none (df st) live = true →
    dom live ⊆ dom (df s')).
Proof.
  eapply wp_conseq;
    [apply wp_and; [apply add_events_spec | apply add_events_stores_new]|].
  intros r s' ev ((Hrows & _) & Hstores) Herr Hguard id Hid.
  destruct (decide (id ∈ dom (df st))) as [Hin|Hout].
  - apply elem_of_dom in Hin as [row Hrow]. apply elem_of_dom.
    destruct (Hrows id) as [E | (Hnone & _)]; [|congruence].
    rewrite E, Hrow. eauto.
  - apply (Hstores Herr Hguard id). by apply elem_of_index_difference.
Qed.


(** A run that completes without logging an error, and in which the
    duplicate guard skips no new entry, ends with every entry of the
    snapshot in the table. *)
Lemma run_stores live st :
  result (get_live st) = Ok live →
  result (run st) = Ok tt →
  only is_error (events (run st)) = [] →
  guard_skips_none (df st) live = true →
  dom live ⊆ dom (df (final (run st))).
Proof.
  intros Hlive Hok Herr Hguard. revert Hok Herr.
  change (wp run st (λ r s ev,
    r = Ok tt → only is_error ev = [] → dom live ⊆ dom (df s))).
  unfold Database.run. wp_step.
  eapply wp_conseq; [apply wp_and; [apply wp_self | apply get_live_spec]|].
  intros r s0 ev0 ((-> & _ & _) & Hdf0 & _). rewrite Hlive. wp_step.
  eapply wp_conseq; [apply get_new_spec|]. intros ? ? ev1 (-> & -> & _).
  rewrite <- Hdf0 in Hguard.
  wp_step. eapply wp_conseq; [apply (add_events_stores live s0)|].
  intros r s1 ev2 Hstored. destruct r as [[]|e]; [|done].
  wp_step. eapply wp_conseq; [apply get_deleted_spec|]. intros ? ? ev3 (-> & -> & _).
  wp_step. eapply wp_conseq; [apply remove_events_spec|].
  intros r s2 ev4 (_ & Hrem). destruct r as [[]|e]; [|done].
  destruct Hrem as (_ & Hdf2 & _).
  { apply NoDup_index_difference. }
  { by intros id [? _]%elem_of_index_difference. }
  wp_step. eapply wp_conseq; [apply get_modified_spec|]. intros ? ? ev5 (-> & -> & _).
  eapply wp_conseq; [apply modify_events_spec|].
  intros r s3 ev6 (_ & _ & Hany & _) _ Herr id Hid.
  rewrite !only_nil_app in Herr.
  assert (id ∈ dom (df s1)) as [row Hrow]%elem_of_dom by (apply Hstored; tauto).
  assert (df s2 !! id = Some row) as Hrow2.
  { rewrite Hdf2, decide_False; [done|].
    by intros [_ ?]%elem_of_index_difference. }
  apply elem_of_dom.
  destruct (Hany id) as [-> | (_ & ? & ? & _ & ->)]; eauto.
Qed.

(** C4, amended.  If a run completes with every calendar operation
    succeeding (it logs no error), the duplicate guard of [add_events]
    skips none of the new entries (none has the title, start and end of a
    stored row or of another new entry), and the next run is given the same
    live snapshot, then that next run computes empty sets of new, deleted
    and modified entries, runs no script on the calendar and leaves the
    table as it is. *)
Theorem second_run_is_idle live st :
  result (get_live st) = Ok live →
  result (run st) = Ok tt →
  only is_error (events (run st)) = [] →
  guard_skips_none (df st) live = true →
  result (get_live (final (run st))) = Ok live →
  computeNew (df (final (run st))) live = [] ∧
  computeDeleted (df (final (run st))) live = [] ∧
  computeModified (df (final (run st))) live = [] ∧
  result (run (final (run st))) = Ok tt ∧
  mutations (events (run (final (run st)))) = [] ∧
  df (final (run (final (run st)))) = df (final (run st)).
Proof.
  intros Hlive Hok Herr Hguard Hsame.
  destruct (run_settles env id_ apple_calendar live st Hlive Hok) as [Hsub Hrows].
  apply idle_run; [done | | done].
  apply set_eq. intros id. split; [apply Hsub|].
  by apply run_stores.
Qed.

End SecondRun.

(** ** Texts *)

Lemma len_app a b : Py.len (a +:+ b) = (Py.len a + Py.len b)%nat.
Proof.
  induction a as [|c a IH]; [done|].
  change (String c a +:+ b) with (String c (a +:+ b)).
  unfold Py.len in *. cbn. by rewrite IH.
Qed.

Lemma len_take n s : Py.len (Py.take n s) = (n `min` Py.len s)%nat.
Proof.
  revert s. induction n as [|n IH]; intros [|a s];
    unfold Py.len in *; cbn; rewrite ?IH; lia.
Qed.

Lemma len_drop n s : Py.len (Py.drop n s) = (Py.len s - n)%nat.
Proof.
  revert s. induction n as [|n IH]; intros [|a s];
    unfold Py.len in *; cbn; rewrite ?IH; lia.
Qed.

Lemma take_len_app a b : Py.take (Py.len a) (a +:+ b) = a.
Proof.
  induction a as [|c a IH]; [done|].
  change (String c a +:+ b) with (String c (a +:+ b)).
  unfold Py.len in *. cbn. by rewrite IH.
Qed.

Lemma take_len a : Py.take (Py.len a) a = a.
Proof.
  induction a as [|c a IH]; [done|]. unfold Py.len in *. cbn. by rewrite IH.
Qed.

Lemma startswith_len p s : Py.startswith p s = true → (Py.len p ≤ Py.len s)%nat.
Proof.
  revert s. induction p as [|a p IH]; intros [|b s]; cbn; try done.
  - unfold Py.len. cbn. lia.
  - destruct (decide (a = b)); [|done]. intros Hp%IH. unfold Py.len in *. cbn. lia.
Qed.

Lemma len_replace_go fuel old new s :
  (Py.len new ≤ Py.len old)%nat →
  (Py.len (Py.replace_go fuel old new s) ≤ Py.len s)%nat.
Proof.
  intros Hnew. revert s. induction fuel as [|fuel IH]; intros s; [done|].
  cbn [Py.replace_go]. destruct s as [|a s]; [done|].
  destruct (Py.startswith old (String a s)) eqn:Hp.
  - rewrite len_app. apply startswith_len in Hp.
    specialize (IH (Py.drop (Py.len old) (String a s))).
    rewrite len_drop in IH. lia.
  - specialize (IH s). unfold Py.len in *. cbn. lia.
Qed.

Lemma len_expand f k s :
  (∀ a, (Py.len (f a) ≤ k)%nat) → (Py.len (expand f s) ≤ k * Py.len s)%nat.
Proof.
  intros Hf. induction s as [|a s IH]; [cbn; unfold Py.len; cbn; lia|].
  cbn [expand]. rewrite len_app. specialize (Hf a).
  unfold Py.len in *. cbn [String.length]. lia.
Qed.

Lemma expand_expand f g s :
  expand g (expand f s) = expand (λ a, expand g (f a)) s.
Proof.
  induction s as [|a s IH]; [done|]. cbn [expand]. by rewrite expand_app, IH.
Qed.

(** A pattern that does not occur is not replaced. *)
Lemma replace_go_absent fuel old new s :
  Py.contains old s = false → Py.replace_go fuel old new s = s.
Proof.
  revert s. induction fuel as [|fuel IH]; intros s; [done|].
  destruct s as [|a s]; [done|]. cbn [Py.replace_go Py.contains].
  intros [Hp Hs]%orb_false_iff. rewrite Hp. by rewrite IH.
Qed.

Lemma replace_absent old new s :
  Py.contains old s = false → Py.replace old new s = s.
Proof. apply replace_go_absent. Qed.

Lemma startswith_shorter c p s :
  Py.startswith (String c p) s = true → Py.startswith (String c "") s = true.
Proof.
  destruct s as [|b s]; [done|]. cbn. by destruct (decide (c = b)).
Qed.

Lemma contains_longer c p s :
  Py.contains (String c "") s = false → Py.contains (String c p) s = false.
Proof.
  induction s as [|b s IH]; [done|].
  cbn [Py.contains]. intros [Hp Hs]%orb_false_iff.
  apply orb_false_iff. split; [|by apply IH].
  destruct (Py.startswith (String c p) (String b s)) eqn:E; [|done].
  apply startswith_shorter in E. congruence.
Qed.

(** Whether a character occurs in a text. *)
Lemma contains_char c s :
  Py.contains (String c "") s = true ↔ c ∈ chars s.
Proof.
  induction s as [|b s IH].
  - cbn. split; [done|]. by intros ?%elem_of_nil.
  - cbn [Py.contains Py.startswith]. unfold chars in *.
    cbn [String.list_ascii_of_string]. rewrite elem_of_cons, <- IH.
    destruct (decide (c = b)) as [->|Hne]; cbn; [tauto|].
    split; [by right | by intros [|]].
Qed.

Lemma contains_char_false c s :
  Py.contains (String c "") s = false ↔ c ∉ chars s.
Proof. rewrite <- contains_char. by destruct (Py.contains _ _). Qed.

Lemma chars_take n s : chars (Py.take n s) ⊆ chars s.
Proof.
  revert s. induction n as [|n IH]; intros [|a s]; cbn; try done.
  - apply list_subseteq_nil.
  - unfold chars in *. cbn. intros x [->|Hx]%elem_of_cons; [left|].
    right. by apply IH.
Qed.

(** ** More on the escaped text *)

Lemma len_truncated s max_length :
  (Py.len (if (max_length <? Py.len s)%nat
           then Py.take max_length s +:+ "..." else s) ≤ max_length + 3)%nat.
Proof.
  destruct (max_length <? Py.len s)%nat eqn:E.
  - rewrite len_app, len_take. unfold Py.len at 2. cbn. lia.
  - apply Nat.ltb_ge in E. lia.
Qed.

(** X20.  The escaped text is at most twice as long as the truncated one:
    its length never exceeds [2 * (max_length + 3)], whatever the length of
    the text given. *)
Theorem applescript_escape_length_bound s max_length :
  (Py.len (CalendarClient.applescript_escape_len s max_length)
   ≤ 2 * (max_length + 3))%nat.
Proof.
  unfold CalendarClient.applescript_escape_len.
  pose proof (len_truncated (Pd.str s) max_length) as Hcut.
  set (t := if (max_length <? Py.len (Pd.str s))%nat then _ else _) in *.
  pose proof (len_replace_go (Py.len t) (Py.backslash +:+ "n") " " t) as H1.
  fold (Py.replace (Py.backslash +:+ "n") " " t) in H1.
  set (t1 := Py.replace (Py.backslash +:+ "n") " " t) in *.
  unfold Py.newline, Py.cr, Py.backslash, Py.dquote. rewrite !replace_char.
  pose proof (len_expand (replacing "010"%char " ") 1 t1) as H2.
  set (t2 := expand (replacing "010"%char " ") t1) in *.
  pose proof (len_expand (replacing "013"%char "") 1 t2) as H3.
  set (t3 := expand (replacing "013"%char "") t2) in *.
  rewrite expand_expand.
  etrans; [apply (len_expand _ 2)|].
  - intros a. unfold replacing at 2.
    destruct (decide ("092"%char = a)) as [<-|Hb].
    + vm_compute. lia.
    + cbn [expand]. unfold replacing.
      destruct (decide ("034"%char = a)); vm_compute; lia.
  - assert (Py.len t1 ≤ Py.len t)%nat by (apply H1; vm_compute; lia).
    assert (Py.len t2 ≤ 1 * Py.len t1)%nat.
    { apply H2. intros a. unfold replacing.
      destruct (decide _); vm_compute; lia. }
    assert (Py.len t3 ≤ 1 * Py.len t2)%nat.
    { apply H3. intros a. unfold replacing.
      destruct (decide _); vm_compute; lia. }
    lia.
Qed.

Lemma expand_absent c new s :
  c ∉ chars s → expand (replacing c new) s = s.
Proof.
  induction s as [|a s IH]; [done|]. unfold chars in *. cbn.
  intros [Hne Hs]%not_elem_of_cons. unfold replacing at 1.
  rewrite decide_False by done. cbn. by rewrite IH.
Qed.

(** X21.  A text that holds no newline, no carriage return, no backslash
    and no double quote comes out of the escaping unchanged if it has at
    most [max_length] characters; a longer one comes out as its first
    [max_length] characters followed by three dots. *)
Theorem applescript_escape_of_plain_text s max_length :
  Py.contains Py.newline s = false → Py.contains Py.cr s = false →
  Py.contains Py.backslash s = false → Py.contains Py.dquote s = false →
  CalendarClient.applescript_escape_len (Str s) max_length
  = if (max_length <? Py.len s)%nat then Py.take max_length s +:+ "..." else s.
Proof.
  unfold Py.newline, Py.cr, Py.backslash, Py.dquote.
  rewrite !contains_char_false. intros Hnl Hcr Hb Hq.
  unfold CalendarClient.applescript_escape_len. cbn [Pd.str].
  set (t := if (max_length <? Py.len s)%nat then _ else _).
  assert (∀ c, c ∉ chars s → c ∉ chars "..." → c ∉ chars t) as Hkeep.
  { intros c Hc Hdots. unfold t. destruct (_ <? _)%nat; [|done].
    rewrite chars_app. intros [Hin%chars_take|]%elem_of_app; done. }
  assert (∀ c, c ≠ "."%char → c ∉ chars "...") as Hdots.
  { intros c Hc. unfold chars. cbn. by intros [|[|[|?%elem_of_nil]%elem_of_cons]%elem_of_cons]%elem_of_cons. }
  unfold Py.newline, Py.cr, Py.backslash, Py.dquote.
  rewrite (replace_absent _ _ t).
  2:{ apply contains_longer, contains_char_false. by apply Hkeep, Hdots. }
  rewrite !replace_char.
  rewrite (expand_absent "010"%char _ t) by (by apply Hkeep, Hdots).
  rewrite (expand_absent "013"%char _ t) by (by apply Hkeep, Hdots).
  rewrite (expand_absent "092"%char _ t) by (by apply Hkeep, Hdots).
  rewrite (expand_absent "034"%char _ t) by (by apply Hkeep, Hdots).
  done.
Qed.

Lemma unescape_expand s :
  unescape
    (expand (replacing "034"%char (Py.backslash +:+ Py.dquote))
       (expand (replacing "092"%char (Py.backslash +:+ Py.backslash)) s)) = s.
Proof.
  induction s as [|a s IH]; [done|].
  cbn [expand]. rewrite expand_app.
  destruct (decide (a = "092"%char)) as [->|Hb];
    [exact (f_equal (String "092"%char) IH)|].
  destruct (decide (a = "034"%char)) as [->|Hq];
    [exact (f_equal (String "034"%char) IH)|].
  unfold replacing at 2. rewrite decide_False by congruence.
  cbn [expand]. unfold replacing at 1. rewrite decide_False by congruence.
  change (unescape
    (String a (expand (replacing "034"%char (Py.backslash +:+ Py.dquote))
       (expand (replacing "092"%char (Py.backslash +:+ Py.backslash)) s))) = String a s).
  cbn [unescape]. rewrite decide_False by done. by rewrite IH.
Qed.

(** X22.  The escaping loses nothing of a single-line text: if the text
    has at most [max_length] characters and holds no newline, no carriage
    return and no backslash followed by the letter n, then reading the
    escaped text back as a quoted literal gives the text itself, quotes
    and backslashes included. *)
Theorem unescape_applescript_escape s max_length :
  Py.contains Py.newline s = false → Py.contains Py.cr s = false →
  Py.contains (Py.backslash +:+ "n") s = false →
  (Py.len s ≤ max_length)%nat →
  unescape (CalendarClient.applescript_escape_len (Str s) max_length) = s.
Proof.
  intros Hnl Hcr Hbn Hlen.
  unfold CalendarClient.applescript_escape_len. cbn [Pd.str].
  apply Nat.ltb_ge in Hlen. rewrite Hlen.
  rewrite (replace_absent _ _ s) by done.
  rewrite (replace_absent _ _ s) by done.
  rewrite (replace_absent _ _ s) by done.
  unfold Py.backslash, Py.dquote. rewrite !replace_char.
  apply unescape_expand.
Qed.

(** ** Splitting *)

Lemma string_rev_app_app s t u : String.rev_app s t +:+ u = String.rev_app s (t +:+ u).
Proof. revert t. induction s as [|a s IH]; intros t; [done|]. cbn. by rewrite IH. Qed.

Lemma string_rev_cons a s : String.rev (String a s) = String.rev s +:+ String a "".
Proof. unfold String.rev. cbn. by rewrite string_rev_app_app. Qed.

Lemma string_app_nil s : s +:+ "" = s.
Proof.
  induction s as [|a s IH]; [done|].
  change (String a (s +:+ "") = String a s). by rewrite IH.
Qed.

(** The first piece of a split runs up to the first separator. *)
Lemma split_go_prefix sep cur a rest :
  Py.contains (String sep "") a = false →
  Py.split_go sep cur (a +:+ String sep rest)
  = (String.rev cur +:+ a) :: Py.split_go sep "" rest.
Proof.
  revert cur. induction a as [|x a IH]; intros cur.
  - intros _. change ("" +:+ String sep rest) with (String sep rest).
    cbn [Py.split_go]. rewrite decide_True by done. by rewrite string_app_nil.
  - cbn [Py.contains Py.startswith]. intros [Hx Ha]%orb_false_iff.
    change (String x a +:+ String sep rest) with (String x (a +:+ String sep rest)).
    cbn [Py.split_go]. destruct (decide (x = sep)) as [->|Hne].
    { by rewrite decide_True in Hx. }
    rewrite IH by done. by rewrite string_rev_cons, string_app_assoc.
Qed.

Lemma split_go_whole sep cur a :
  Py.contains (String sep "") a = false →
  Py.split_go sep cur a = [String.rev cur +:+ a].
Proof.
  revert cur. induction a as [|x a IH]; intros cur.
  - intros _. cbn [Py.split_go]. by rewrite string_app_nil.
  - cbn [Py.contains Py.startswith]. intros [Hx Ha]%orb_false_iff.
    cbn [Py.split_go]. destruct (decide (x = sep)) as [->|Hne].
    { by rewrite decide_True in Hx. }
    rewrite IH by done. by rewrite string_rev_cons, string_app_assoc.
Qed.

Lemma split_go_head sep cur s :
  ∃ h tl, Py.split_go sep cur s = (String.rev cur +:+ h) :: tl.
Proof.
  revert cur. induction s as [|x s IH]; intros cur.
  - exists "", []. cbn [Py.split_go]. by rewrite string_app_nil.
  - cbn [Py.split_go]. destruct (decide (x = sep)).
    + exists "". eexists. by rewrite string_app_nil.
    + destruct (IH (String x cur)) as (h & tl & ->).
      exists (String x h), tl. by rewrite string_rev_cons, string_app_assoc.
Qed.

Lemma split_go_head_prefix sep cur a rest :
  Py.contains (String sep "") a = false →
  ∃ h tl, Py.split_go sep cur (a +:+ rest) = (String.rev cur +:+ a +:+ h) :: tl.
Proof.
  revert cur. induction a as [|x a IH]; intros cur.
  - intros _. change ("" +:+ rest) with rest.
    destruct (split_go_head sep cur rest) as (h & tl & ->).
    by exists h, tl.
  - cbn [Py.contains Py.startswith]. intros [Hx Ha]%orb_false_iff.
    change (String x a +:+ rest) with (String x (a +:+ rest)).
    cbn [Py.split_go]. destruct (decide (x = sep)) as [->|Hne].
    { by rewrite decide_True in Hx. }
    destruct (IH (String x cur) Ha) as (h & tl & ->).
    exists h, tl. by rewrite string_rev_cons, string_app_assoc.
Qed.

(** ** Dates of Notion *)

Section ConvertFacts.
Context `{PD : PyDatetime}.

(** X23.  What follows the seconds in a date with a time (a fraction, a
    time zone) is ignored: the text is converted as if it ended after the
    eight characters of the time. *)
Theorem convert_datetime_ignores_what_follows_the_seconds date time rest :
  Py.contains "T" date = false → Py.contains "T" time = false →
  Py.len time = 8%nat →
  NotionClient._convert_datetime (Some (date +:+ "T" +:+ time +:+ rest))
  = NotionClient._convert_datetime (Some (date +:+ "T" +:+ time)).
Proof.
  intros Hd Ht Hlen. unfold NotionClient._convert_datetime, Py.split.
  change ("T" +:+ time +:+ rest) with (String "T"%char (time +:+ rest)).
  change ("T" +:+ time) with (String "T"%char time).
  rewrite !split_go_prefix by done.
  rewrite (split_go_whole _ _ time) by done.
  destruct (split_go_head_prefix "T"%char "" time rest Ht) as (h & tl & ->).
  change (String.rev "" +:+ time +:+ h) with (time +:+ h).
  change (String.rev "" +:+ time) with time.
  by rewrite <- Hlen, take_len_app, take_len.
Qed.

(** X24.  A date without a time is converted as midnight of that date. *)
Theorem convert_datetime_of_a_date_is_its_midnight date :
  Py.contains "T" date = false →
  NotionClient._convert_datetime (Some date)
  = NotionClient._convert_datetime (Some (date +:+ "T00:00:00")).
Proof.
  intros Hd. unfold NotionClient._convert_datetime, Py.split.
  change ("T00:00:00") with (String "T"%char "00:00:00").
  rewrite split_go_prefix, split_go_whole by done. done.
Qed.

End ConvertFacts.

(** ** Words *)

Lemma string_rev_nonempty c : c ≠ "" → String.rev c ≠ "".
Proof.
  destruct c as [|a c]; [done|]. intros _ E.
  apply (f_equal Py.len) in E. rewrite string_rev_cons, len_app in E.
  unfold Py.len in E. cbn in E. lia.
Qed.

Lemma split_ws_go_nonempty cur s :
  Forall (λ w, w ≠ "") (Py.split_ws_go cur s).
Proof.
  revert cur. induction s as [|a s IH]; intros cur; cbn [Py.split_ws_go].
  - destruct cur; [constructor|].
    constructor; [by apply string_rev_nonempty | constructor].
  - destruct (Py.isspace a); [|apply IH].
    apply Forall_app. split; [|apply IH].
    destruct cur; [constructor|].
    constructor; [by apply string_rev_nonempty | constructor].
Qed.

Lemma last_token_nonempty s w : CalendarClient.last_token s = Ok w → w ≠ "".
Proof.
  unfold CalendarClient.last_token, Py.split_ws.
  destruct (last _) as [w'|] eqn:E; [|done]. intros [= <-].
  pose proof (split_ws_go_nonempty "" (Py.strip s)) as Hall.
  rewrite Forall_forall in Hall. apply Hall.
  apply last_Some in E as [l ->]. apply elem_of_app. right. left.
Qed.

Lemma truthy_false s : Py.truthy s = false ↔ s = "".
Proof. by destruct s. Qed.

(** ** Creating an event *)

Section AddEventResult.
Context `{PD : PyDatetime} (env : Env) (name : string).

#[local] Abbreviation add_event := (CalendarClient.add_event env name).
#[local] Abbreviation add_event_script := (CalendarClient.add_event_script name).

(** Whether the end of the event can be built: for an all-day event the
    end date is read, the next day exists and the midnight text is read;
    otherwise the end date with the end time, or with 23:59:59 in place of
    a midnight end time, is read. *)
Lemma end_of_event_is_ok ed stime etime st :
  is_ok (result (CalendarClient.end_of_event ed stime etime st)) =
  (if bool_decide (stime = "00:00:00") && bool_decide (etime = "00:00:00") then
     match strptime ed "%Y-%m-%d" with
     | Ok d => is_ok (Calendar.add_timedelta d 1 0)
               && is_ok (strptime "00:00:00" "%H:%M:%S")
     | Raise _ => false
     end
   else
     is_ok (strptime
              (fstr [ed; " ";
                     if bool_decide (etime = "00:00:00") then "23:59:59" else etime])
              "%Y-%m-%d %H:%M:%S")).
Proof.
  change (wp (CalendarClient.end_of_event ed stime etime) st (λ r _ _,
    is_ok r =
    (if bool_decide (stime = "00:00:00") && bool_decide (etime = "00:00:00") then
       match strptime ed "%Y-%m-%d" with
       | Ok d => is_ok (Calendar.add_timedelta d 1 0)
                 && is_ok (strptime "00:00:00" "%H:%M:%S")
       | Raise _ => false
       end
     else
       is_ok (strptime
                (fstr [ed; " ";
                       if bool_decide (etime = "00:00:00") then "23:59:59" else etime])
                "%Y-%m-%d %H:%M:%S")))).
  unfold CalendarClient.end_of_event.
  destruct (_ && _).
  - wp_step. wp_step. destruct (strptime ed _); [|done].
    wp_step. wp_step. destruct (Calendar.add_timedelta _ _ _); [|done].
    wp_step. wp_step. destruct (strptime _ _); [|done].
    by wp_step.
  - wp_step. wp_step. destruct (strptime _ _); [|done]. by wp_step.
Qed.

(** X25.  [add_event] hands a script to AppleScript if and only if both
    dates of the event can be built, and then just one.  The start is
    built when [strptime] reads the start date with the start time.  The
    end of an all-day event (both times are midnight) is built when
    [strptime] reads the end date, the day after it exists (adding a day
    to 9999-12-31 raises [OverflowError]) and the midnight text is read;
    any other end is built when [strptime] reads the end date with the end
    time, 23:59:59 taking the place of a midnight end time.  When a date
    cannot be built, [add_event] raises at once, with no script run and no
    line logged. *)
Theorem add_event_runs_a_script_iff_the_dates_are_built
    title sd ed stime etime url_str descr st :
  let start_built :=
    is_ok (strptime (fstr [sd; " "; stime]) "%Y-%m-%d %H:%M:%S") in
  let end_built :=
    if bool_decide (stime = "00:00:00") && bool_decide (etime = "00:00:00") then
      match strptime ed "%Y-%m-%d" with
      | Ok d => is_ok (Calendar.add_timedelta d 1 0)
                && is_ok (strptime "00:00:00" "%H:%M:%S")
      | Raise _ => false
      end
    else
      is_ok (strptime
               (fstr [ed; " ";
                      if bool_decide (etime = "00:00:00") then "23:59:59" else etime])
               "%Y-%m-%d %H:%M:%S") in
  length (mutations (events (add_event title sd ed stime etime url_str descr st)))
    = (if start_built && end_built then 1 else 0)%nat ∧
  (start_built && end_built = false →
   is_ok (result (add_event title sd ed stime etime url_str descr st)) = false ∧
   final (add_event title sd ed stime etime url_str descr st) = st ∧
   events (add_event title sd ed stime etime url_str descr st) = []).
Proof.
  intros start_built end_built. subst start_built end_built.
  rewrite <- (end_of_event_is_ok ed stime etime st).
  destruct (strptime (fstr [sd; " "; stime]) "%Y-%m-%d %H:%M:%S")
    as [start_dt|e] eqn:Hstart; cbn [is_ok andb].
  - destruct (result (CalendarClient.end_of_event ed stime etime st))
      as [[end_dt etime']|e] eqn:Hend; cbn [is_ok].
    + split; [|done].
      by rewrite (add_event_runs env name title sd ed stime etime url_str descr st
                    start_dt end_dt etime' Hstart Hend).
    + change (wp (add_event title sd ed stime etime url_str descr) st (λ r s ev,
        length (mutations ev) = 0%nat ∧
        (false = false → is_ok r = false ∧ s = st ∧ ev = []))).
      unfold CalendarClient.add_event. wp_step. wp_step. rewrite Hstart.
      wp_step.
      eapply wp_conseq; [apply wp_and; [apply wp_self | apply end_of_event_spec]|].
      intros ? ? ? ((-> & _ & _) & -> & ->). by rewrite Hend.
  - change (wp (add_event title sd ed stime etime url_str descr) st (λ r s ev,
      length (mutations ev) = 0%nat ∧
      (false = false → is_ok r = false ∧ s = st ∧ ev = []))).
    unfold CalendarClient.add_event. wp_step. wp_step. by rewrite Hstart.
Qed.

(** X26.  What [add_event] returns once its script has run.  It returns
    [None] only if the answer has neither error nor output; it returns a
    text only if the answer has no error, and the text is then the last
    word of the output, which is not empty; it raises if the answer
    carries an error, whatever the output, and also (an [IndexError]) if
    the output holds nothing but blanks. *)
Theorem add_event_returns_the_last_word_of_the_output
    title sd ed stime etime url_str descr st start_dt end_dt etime' :
  strptime (fstr [sd; " "; stime]) "%Y-%m-%d %H:%M:%S" = Ok start_dt →
  result (CalendarClient.end_of_event ed stime etime st) = Ok (end_dt, etime') →
  let cmd :=
    add_event_script title start_dt end_dt
      (bool_decide (stime = "00:00:00") && bool_decide (etime' = "00:00:00"))
      url_str descr in
  let r := applescript_run env (scripts st) cmd in
  match result (add_event title sd ed stime etime url_str descr st) with
  | Ok Null => err r = "" ∧ out r = ""
  | Ok (Str w) =>
      err r = "" ∧ w ≠ "" ∧ last (Py.split_ws (Py.strip (out r))) = Some w
  | Ok (Ts _) => False
  | Raise e =>
      err r ≠ "" ∧
      e = Exn "Exception" (fstr ["Failed to add event to "; name; " calendar"])
      ∨ err r = "" ∧ out r ≠ "" ∧ Py.split_ws (Py.strip (out r)) = [] ∧
        exn_class e = "IndexError"
  end.
Proof.
  intros Hstart Hend cmd r.
  change (wp (add_event title sd ed stime etime url_str descr) st (λ res _ _,
    match res with
    | Ok Null => err r = "" ∧ out r = ""
    | Ok (Str w) =>
        err r = "" ∧ w ≠ "" ∧ last (Py.split_ws (Py.strip (out r))) = Some w
    | Ok (Ts _) => False
    | Raise e =>
        err r ≠ "" ∧
        e = Exn "Exception" (fstr ["Failed to add event to "; name; " calendar"])
        ∨ err r = "" ∧ out r ≠ "" ∧ Py.split_ws (Py.strip (out r)) = [] ∧
          exn_class e = "IndexError"
    end)).
  unfold CalendarClient.add_event. wp_step. wp_step. rewrite Hstart.
  wp_step.
  eapply wp_conseq; [apply wp_and; [apply wp_self | apply end_of_event_spec]|].
  intros ? ? ? ((-> & _ & _) & -> & ->). rewrite Hend.
  repeat wp_step. apply wp_run_script. cbv beta iota. fold cmd. fold r.
  destruct (Py.truthy (err r)) eqn:Herr.
  { repeat wp_step. left. split; [|done]. intros E. by rewrite E in Herr. }
  apply truthy_false in Herr.
  destruct (Py.truthy (out r)) eqn:Hout.
  2:{ apply truthy_false in Hout. by repeat wp_step. }
  wp_step. wp_step.
  destruct (CalendarClient.last_token (out r)) as [w|e] eqn:Hw.
  - repeat wp_step. split; [done|]. split; [by eapply last_token_nonempty|].
    unfold CalendarClient.last_token in Hw. by destruct (last _); simplify_eq.
  - repeat wp_step. right. split; [done|].
    split; [intros E; by rewrite E in Hout|].
    unfold CalendarClient.last_token in Hw.
    destruct (last _) eqn:El; simplify_eq. split; [|done].
    by apply last_None.
Qed.

End AddEventResult.

(** ** The details handed to the calendar *)

Section DetailsFacts.
Context `{PD : PyDatetime} (env : Env).

Lemma validated_ok text format fallback :
  is_ok (strptime fallback format) = true →
  is_ok (strptime (Database.validated text format fallback) format) = true.
Proof.
  intros Hf. unfold Database.validated.
  by destruct (is_ok (strptime text format)) eqn:E.
Qed.

Lemma start_of_card_ok card_serie default_date default_time :
  is_ok (strptime default_date "%Y-%m-%d") = true →
  is_ok (strptime default_time "%H:%M:%S") = true →
  is_ok (strptime (Database.start_of_card card_serie default_date default_time).1
           "%Y-%m-%d") = true ∧
  is_ok (strptime (Database.start_of_card card_serie default_date default_time).2
           "%H:%M:%S") = true.
Proof.
  intros Hd Ht. unfold Database.start_of_card.
  destruct (Pd.isna _); [done|].
  destruct (_ && _).
  - destruct (Py.split _ _) as [|sd [|stime ?]]; cbn [fst snd];
      auto using validated_ok.
  - cbn [fst snd]. auto using validated_ok.
Qed.

Lemma end_of_card_ok card_serie start_date start_time :
  Pd.isna (Pd.getattr card_serie "end_date" Null) = false →
  is_ok (strptime start_date "%Y-%m-%d") = true →
  is_ok (strptime "23:59:59" "%H:%M:%S") = true →
  is_ok (strptime (Database.end_of_card card_serie start_date start_time).1
           "%Y-%m-%d") = true ∧
  is_ok (strptime (Database.end_of_card card_serie start_date start_time).2
           "%H:%M:%S") = true.
Proof.
  intros Hend Hd Ht. unfold Database.end_of_card. rewrite Hend.
  destruct (Py.contains " " _ && negb _ && negb _).
  - destruct (Py.split _ _) as [|ed [|etime ?]]; cbn [fst snd];
      auto using validated_ok.
  - cbn [fst snd]. auto using validated_ok.
Qed.

(** X27.  Whatever the cells of the row hold, [_get_card_for_calendar]
    returns a start date and a start time that [strptime] reads in the
    formats [add_event] expects, and so are the end date and the end time
    when the row has an end date: a text that does not read is replaced by
    today's date, by the start date, by 00:00:00 or by 23:59:59.  (It is
    assumed that [strptime] reads today's date as [strftime] writes it, and
    the two constant times.) *)
Theorem calendar_details_are_readable card_serie :
  is_ok (strptime (strftime (now env) "%Y-%m-%d") "%Y-%m-%d") = true →
  is_ok (strptime "00:00:00" "%H:%M:%S") = true →
  is_ok (strptime "23:59:59" "%H:%M:%S") = true →
  is_ok (strptime (Database.e_start_date
                     (Database._get_card_for_calendar env card_serie))
           "%Y-%m-%d") = true ∧
  is_ok (strptime (Database.e_start_time
                     (Database._get_card_for_calendar env card_serie))
           "%H:%M:%S") = true ∧
  (Pd.isna (Pd.getattr card_serie "end_date" Null) = false →
   is_ok (strptime (Database.e_end_date
                      (Database._get_card_for_calendar env card_serie))
            "%Y-%m-%d") = true ∧
   is_ok (strptime (Database.e_end_time
                      (Database._get_card_for_calendar env card_serie))
            "%H:%M:%S") = true).
Proof.
  intros Htoday Hmidnight Hlast.
  pose proof (start_of_card_ok card_serie _ "00:00:00" Htoday Hmidnight)
    as [Hsd Hst].
  unfold Database._get_card_for_calendar.
  destruct (Database.start_of_card _ _ _) as [start_date start_time].
  cbn [fst snd] in Hsd, Hst.
  destruct (Database.end_of_card card_serie start_date start_time)
    as [end_date end_time] eqn:Eend.
  cbn. do 2 (split; [done|]). intros Hend.
  pose proof (end_of_card_ok card_serie start_date start_time Hend Hsd Hlast)
    as [Hed Het].
  by rewrite Eend in Hed, Het.
Qed.

End DetailsFacts.

(** ** The deletion script *)

Lemma startswith_app_same a b c :
  Py.startswith b c = true → Py.startswith (a +:+ b) (a +:+ c) = true.
Proof.
  intros Hb. induction a as [|x a IH]; [done|].
  change (Py.startswith (String x (a +:+ b)) (String x (a +:+ c)) = true).
  cbn [Py.startswith]. by rewrite decide_True by done.
Qed.

Lemma startswith_contains p s : Py.startswith p s = true → Py.contains p s = true.
Proof. intros Hp. destruct s; cbn [Py.contains]; by rewrite Hp. Qed.

Lemma fstr_cons piece rest : fstr (piece :: rest) = piece +:+ fstr rest.
Proof. done. Qed.

Section DeleteScript.
Context `{PD : PyDatetime} (env : Env) (name : string).

(** The script of [delete_event] names the calendar and the handle as they
    are given. *)
Lemma delete_event_script h st :
  wp (CalendarClient.delete_event env name h) st (λ _ _ ev,
    ∃ cmd,
      mutations ev = [EvAppleScript DeleteEvent cmd (applescript_run env (scripts st) cmd)] ∧
      Py.contains (fstr ["tell calendar "; Py.dquote; name; Py.dquote]) cmd = true ∧
      Py.contains (fstr ["delete event id "; Py.dquote; Pd.str h; Py.dquote]) cmd
        = true).
Proof.
  unfold CalendarClient.delete_event. cbv zeta.
  set (cmd := fstr (Py.newline :: _)).
  assert (Py.contains (fstr ["tell calendar "; Py.dquote; name; Py.dquote]) cmd = true
          ∧ Py.contains (fstr ["delete event id "; Py.dquote; Pd.str h; Py.dquote]) cmd
            = true) as Hcmd.
  { unfold cmd. split.
    - do 6 apply contains_fstr_skip.
      rewrite (fstr_cons "            tell calendar ").
      change "            tell calendar " with ("            " +:+ "tell calendar ").
      rewrite string_app_assoc. apply contains_app_r, startswith_contains.
      rewrite !fstr_cons. do 4 apply startswith_app_same. done.
    - do 11 apply contains_fstr_skip.
      rewrite (fstr_cons "            delete event id ").
      change "            delete event id "
        with ("            " +:+ "delete event id ").
      rewrite string_app_assoc. apply contains_app_r, startswith_contains.
      rewrite !fstr_cons. do 4 apply startswith_app_same. done. }
  clearbody cmd.
  wp_step. apply wp_run_script. cbv beta iota.
  destruct (Py.truthy _); wp_step; by exists cmd.
Qed.

End DeleteScript.

Section RemoveScript.
Context `{PD : PyDatetime} (env : Env) (apple_calendar : string).

(** X28.  To remove an entry, [remove_events] runs one script, which asks
    the calendar of the client to delete the event whose id is the handle
    stored in the row of the entry. *)
Theorem remove_events_deletes_the_event_of_the_stored_handle id row st :
  df st !! id = Some row →
  ∃ cmd,
    mutations (events (Database.remove_events env apple_calendar [id] st))
      = [EvAppleScript DeleteEvent cmd (applescript_run env (scripts st) cmd)] ∧
    Py.contains (fstr ["tell calendar "; Py.dquote; apple_calendar; Py.dquote]) cmd
      = true ∧
    Py.contains (fstr ["delete event id "; Py.dquote;
                       Pd.str (Pd.col row "event_id"); Py.dquote]) cmd = true.
Proof.
  intros Hrow.
  change (wp (Database.remove_events env apple_calendar [id]) st (λ _ _ ev,
    ∃ cmd,
      mutations ev = [EvAppleScript DeleteEvent cmd (applescript_run env (scripts st) cmd)] ∧
      Py.contains (fstr ["tell calendar "; Py.dquote; apple_calendar; Py.dquote]) cmd
        = true ∧
      Py.contains (fstr ["delete event id "; Py.dquote;
                         Pd.str (Pd.col row "event_id"); Py.dquote]) cmd = true)).
  unfold Database.remove_events. wp_step. cbn [for_each]. wp_step.
  unfold Database.remove_event, Pd.loc_cell, Pd.drop.
  wp_step. wp_step. wp_step. wp_step. rewrite Hrow.
  wp_step.
  eapply wp_conseq; [apply wp_and; [apply delete_event_script | apply delete_event_spec]|].
  intros r s1 ev ((cmd & Hmut & Hname & Hid) & -> & Hdf & _).
  wp_step. wp_step. wp_step. wp_step. rewrite Hdf, Hrow.
  wp_step. wp_step. wp_step. wp_step. apply wp_save.
  exists cmd. split; [|done].
  unfold mutations in *. rewrite !only_app, Hmut. done.
Qed.

End RemoveScript.

(** ** Updates and doubles *)

Lemma makes_without_deletions ev :
  only is_delete ev = [] → length (only is_make ev) = length (mutations ev).
Proof.
  unfold mutations, only. induction ev as [|e ev IH]; [done|].
  destruct e as [| [] | |]; cbn; try done; auto.
Qed.

Section UpdateFacts.
Context `{PD : PyDatetime} (env : Env) (id_ apple_calendar : string).

#[local] Abbreviation add_events := (Database.add_events env id_ apple_calendar).
#[local] Abbreviation modify_event := (Database.modify_event env apple_calendar).
#[local] Abbreviation modify_events := (Database.modify_events env id_ apple_calendar).
#[local] Abbreviation written_row :=
  (λ (row : Series) (event_id : cell),
     Pd.reindex Database.columns (<["event_id" := event_id]> row)).

(** When [add_event] returns, it has run one script, which creates an
    event. *)
Lemma add_event_ok_one_script title sd ed stime etime url_str descr st :
  wp (CalendarClient.add_event env apple_calendar title sd ed stime etime url_str descr)
    st (λ r _ ev,
      is_ok r = true →
      length (only is_make ev) = 1%nat ∧ only is_delete ev = [] ∧ only is_save ev = []).
Proof.
  eapply wp_conseq; [apply wp_and; [apply wp_self | apply add_event_spec]|].
  intros r s ev ((-> & _ & ->) & _ & _ & Hev) Hok.
  assert (only is_delete
            (events (CalendarClient.add_event env apple_calendar title sd ed stime
                       etime url_str descr st)) = []) as Hdel.
  { apply only_nil_iff. eapply Forall_impl; [exact Hev|]. by intros e (_ & ? & _). }
  split; [|split; [done | by apply creation_no_save]].
  rewrite makes_without_deletions by done.
  destruct (strptime (fstr [sd; " "; stime]) "%Y-%m-%d %H:%M:%S")
    as [start_dt|e] eqn:Hstart.
  - destruct (result (CalendarClient.end_of_event ed stime etime st))
      as [[end_dt etime']|e] eqn:Hend.
    + by rewrite (add_event_runs env apple_calendar title sd ed stime etime url_str
                    descr st start_dt end_dt etime' Hstart Hend).
    + exfalso. revert Hok.
      change (wp (CalendarClient.add_event env apple_calendar title sd ed stime
                    etime url_str descr) st (λ r _ _, is_ok r = true → False)).
      unfold CalendarClient.add_event. wp_step. wp_step. rewrite Hstart. wp_step.
      eapply wp_conseq; [apply wp_and; [apply wp_self | apply end_of_event_spec]|].
      intros ? ? ? ((-> & _ & _) & -> & ->). by rewrite Hend.
  - exfalso. revert Hok.
    change (wp (CalendarClient.add_event env apple_calendar title sd ed stime
                  etime url_str descr) st (λ r _ _, is_ok r = true → False)).
    unfold CalendarClient.add_event. wp_step. wp_step. by rewrite Hstart.
Qed.

(** A round of [modify_events] that succeeds has run one deletion and one
    creation, and has saved once. *)
Lemma modify_event_counts live id st :
  wp (modify_event live id) st (λ r _ ev,
    is_ok r = true →
    length (only is_delete ev) = 1%nat ∧ length (only is_make ev) = 1%nat ∧
    length (only is_save ev) = 1%nat).
Proof.
  unfold Database.modify_event, Pd.loc, Pd.loc_cell.
  wp_step. wp_step. destruct (live !! id) as [row|]; [|done].
  wp_step. wp_step. wp_step. wp_step.
  destruct (df st !! id) as [old|]; [|done].
  wp_step. eapply wp_conseq; [apply delete_event_spec|].
  intros r s1 ev (-> & Hdf & Hcsv & cmd & lvl & msg & -> & _).
  wp_step. eapply wp_conseq; [apply add_event_ok_one_script|].
  intros r s2 ev Hone. destruct r as [new_event_id|e]; [|done].
  destruct (Hone eq_refl) as (Hmake & Hdel & Hsave).
  wp_step. apply wp_set_row. wp_step. wp_step. apply wp_save. cbv beta iota.
  intros _. rewrite !only_app, !length_app, Hmake, Hdel, Hsave. done.
Qed.

Lemma modify_loop_counts live list_id st :
  wp (for_each list_id (modify_event live)) st (λ r _ ev,
    is_ok r = true →
    length (only is_delete ev) = length list_id ∧
    length (only is_make ev) = length list_id ∧
    length (only is_save ev) = length list_id).
Proof.
  revert st. induction list_id as [|i l IH]; intros st; cbn [for_each].
  - by wp_step.
  - wp_step. eapply wp_conseq; [apply modify_event_counts|].
    intros r s1 ev Hone. destruct r as [[]|e]; [|done].
    destruct (Hone eq_refl) as (Hdel & Hmake & Hsave).
    eapply wp_conseq; [apply IH|].
    intros r' s2 ev' Hrest Hok. destruct (Hrest Hok) as (Hdel' & Hmake' & Hsave').
    rewrite !only_app, !length_app. cbn [length]. lia.
Qed.

(** When [add_event] returns, the trace holds one creation, and the value
    returned is the handle read from the answer of that script. *)
Lemma add_event_ok_handle title sd ed stime etime url_str descr st :
  wp (CalendarClient.add_event env apple_calendar title sd ed stime etime url_str descr)
    st (λ r _ ev,
      ∀ v, r = Ok v →
        ∃ cmd a,
          only is_make ev = [EvAppleScript MakeEvent cmd a] ∧ v = returned_handle a).
Proof.
  unfold CalendarClient.add_event. wp_step. wp_step.
  destruct (strptime _ _); [|done].
  wp_step. eapply wp_conseq; [apply end_of_event_spec|].
  intros r s ev (-> & ->). destruct r as [[end_dt etime']|e]; [|done].
  repeat wp_step. apply wp_run_script. cbv beta iota.
  unfold returned_handle.
  destruct (Py.truthy (err _)); [by repeat wp_step|].
  destruct (Py.truthy (out _)) eqn:Hout.
  - wp_step. wp_step.
    destruct (CalendarClient.last_token _) eqn:Htok; [|by repeat wp_step].
    repeat wp_step. intros v [= <-]. eexists _, _. split; [reflexivity|].
    by rewrite Hout, Htok.
  - repeat wp_step. intros v [= <-]. eexists _, _. split; [reflexivity|].
    by rewrite Hout.
Qed.

(** A round of [modify_events] that succeeds has created one event, and
    has written the row of the snapshot with the handle read from the
    answer of that creation. *)
Lemma modify_event_handle live id st :
  wp (modify_event live id) st (λ r s ev,
    is_ok r = true →
    ∃ row cmd a,
      live !! id = Some row ∧
      only is_make ev = [EvAppleScript MakeEvent cmd a] ∧
      df s = <[id := written_row row (returned_handle a)]> (df st)).
Proof.
  unfold Database.modify_event, Pd.loc, Pd.loc_cell.
  wp_step. wp_step. destruct (live !! id) as [row|]; [|done].
  wp_step. wp_step. wp_step. wp_step.
  destruct (df st !! id) as [old|]; [|done].
  wp_step. eapply wp_conseq; [apply delete_event_spec|].
  intros r s1 ev (-> & Hdf & Hcsv & cmd & lvl & msg & -> & _).
  wp_step.
  eapply wp_conseq; [apply wp_and; [apply add_event_spec | apply add_event_ok_handle]|].
  intros r s2 ev ((Hdf2 & _ & _) & Hhandle). destruct r as [new_event_id|e]; [|done].
  destruct (Hhandle _ eq_refl) as (cmd' & a & Hmake & ->).
  wp_step. apply wp_set_row. wp_step. wp_step. apply wp_save. cbv beta iota.
  intros _. exists row, cmd', a. split; [done|]. split.
  - rewrite !only_app, Hmake. done.
  - cbn [df]. by rewrite Hdf2, Hdf.
Qed.

Lemma modify_loop_handles live list_id st :
  wp (for_each list_id (modify_event live)) st (λ r s ev,
    is_ok r = true → NoDup list_id →
    length (only is_make ev) = length list_id ∧
    ∀ i id, list_id !! i = Some id →
      ∃ row cmd a,
        live !! id = Some row ∧
        only is_make ev !! i = Some (EvAppleScript MakeEvent cmd a) ∧
        df s !! id = Some (written_row row (returned_handle a))).
Proof.
  revert st. induction list_id as [|j l IH]; intros st; cbn [for_each].
  - wp_step. intros _ _. split; [done|]. by intros i id.
  - wp_step.
    eapply wp_conseq; [apply modify_event_handle|].
    intros r s1 ev Hone. destruct r as [[]|e]; [|done].
    destruct (Hone eq_refl) as (row & cmd & a & Hlive & Hmake & Hdf1).
    eapply wp_conseq; [apply wp_and; [apply modify_loop_spec | apply IH]|].
    intros r' s2 ev' ((_ & Hout & _) & Hrest) Hok [Hj Hl]%NoDup_cons.
    destruct (Hrest Hok Hl) as (Hlen & Hrows).
    rewrite only_app, Hmake. cbn [app length]. split; [by rewrite Hlen|].
    intros [|i] id Hid; cbn in Hid.
    + injection Hid as <-. exists row, cmd, a. split; [done|]. split; [done|].
      by rewrite (Hout j Hj), Hdf1, lookup_insert_eq.
    + by apply Hrows.
Qed.

(** X29.  When [modify_events] returns normally on a list without
    repetition, each listed id has given rise to one creation, in the
    order of the list, and the row of the id has been replaced by the row
    of the snapshot with, as [event_id], the handle read from the answer of
    that very creation: the last word of its output, or [None] when the
    output is empty.  The phase has run one deletion and one creation and
    has saved once for each entry of the list. *)
Theorem modify_events_updates_every_listed_row list_id live st :
  result (modify_events list_id (Some live) st) = Ok tt →
  NoDup list_id →
  (∀ i id, list_id !! i = Some id →
     ∃ row cmd a,
       live !! id = Some row ∧
       only is_make (events (modify_events list_id (Some live) st)) !! i
         = Some (EvAppleScript MakeEvent cmd a) ∧
       df (final (modify_events list_id (Some live) st)) !! id
         = Some (written_row row (returned_handle a))) ∧
  length (only is_delete (events (modify_events list_id (Some live) st)))
    = length list_id ∧
  length (only is_make (events (modify_events list_id (Some live) st)))
    = length list_id ∧
  length (only is_save (events (modify_events list_id (Some live) st)))
    = length list_id.
Proof.
  intros Hok Hnodup. revert Hok.
  change (wp (modify_events list_id (Some live)) st (λ r s ev,
    r = Ok tt →
    (∀ i id, list_id !! i = Some id →
       ∃ row cmd a,
         live !! id = Some row ∧
         only is_make ev !! i = Some (EvAppleScript MakeEvent cmd a) ∧
         df s !! id = Some (written_row row (returned_handle a))) ∧
    length (only is_delete ev) = length list_id ∧
    length (only is_make ev) = length list_id ∧
    length (only is_save ev) = length list_id)).
  unfold Database.modify_events, Database.or_live. wp_step. wp_step.
  eapply wp_conseq;
    [apply wp_and; [apply modify_loop_counts | apply modify_loop_handles]|].
  intros r s ev (Hcounts & Hhandles) ->.
  split; [by apply Hhandles|]. by apply Hcounts.
Qed.

(** X30.  An entry of the snapshot whose title, start and end are present
    and equal to those of a stored row is skipped by [add_events]: no
    script is run, nothing is saved, and the table and the file are left
    as they were; the entry is not stored. *)
Theorem add_events_skips_a_double id s j r live st :
  live !! id = Some s → df st !! j = Some r → same_slot s r = true →
  result (add_events [id] (Some live) st) = Ok tt ∧
  final (add_events [id] (Some live) st) = st ∧
  mutations (events (add_events [id] (Some live) st)) = [] ∧
  only is_save (events (add_events [id] (Some live) st)) = [].
Proof.
  intros Hs Hr Hsame.
  unfold same_slot, Database.same_event in Hsame.
  apply andb_true_iff in Hsame as [[Ht Hsd]%andb_true_iff Hed].
  assert (∀ label, Pd.eq (Pd.col r label) (Pd.col s label) = true →
            Pd.attr s label = Ok (Pd.col s label)) as Hattr.
  { intros label Heq. unfold Pd.attr, Pd.col, Pd.getattr in *.
    destruct (s !! label); [done|].
    unfold Pd.eq in Heq. cbn in Heq. by rewrite andb_false_r in Heq. }
  change (wp (add_events [id] (Some live)) st (λ res s' ev,
    res = Ok tt ∧ s' = st ∧ mutations ev = [] ∧ only is_save ev = [])).
  unfold Database.add_events, Database.or_live.
  wp_step. wp_step. wp_step. wp_step. cbn [Pd.loc_list]. rewrite Hs.
  wp_step. cbn [for_fold]. wp_step.
  unfold Database.add_one.
  wp_step. wp_step. wp_step. rewrite (Hattr "title" Ht).
  wp_step. wp_step. rewrite (Hattr "start_date" Hsd).
  wp_step. wp_step. rewrite (Hattr "end_date" Hed).
  wp_step. wp_step.
  assert (Pd.any_row
            (Database.same_event (Pd.col s "title") (Pd.col s "start_date")
               (Pd.col s "end_date")) (df st) = true) as ->.
  { unfold Pd.any_row. apply existsb_exists. exists (j, r). split.
    - apply list_elem_of_In. by apply elem_of_map_to_list.
    - unfold Database.same_event. cbn [snd]. by rewrite Ht, Hsd, Hed. }
  wp_step. wp_step. wp_step. wp_step. cbn. by wp_step.
Qed.

End UpdateFacts.

(** * Scenarios

    Concrete tables and collaborators, run with the executable text layer
    of [Reference]. *)

Module Scenarios.
Import Reference Fixtures.

(** Equations between closed terms are settled by evaluation. *)
Ltac by_evaluation :=
  cbv zeta;
  repeat lazymatch goal with |- _ ∧ _ => split end;
  lazymatch goal with |- ?a = ?b => vm_cast_no_check (@eq_refl _ b) end.

(** Decidable facts about closed terms are settled by evaluation too. *)
Ltac by_decision := apply (bool_decide_unpack _); vm_cast_no_check I.

(** ** An entry without dates, edited but unchanged *)


(** ** An entry recreated under a new id *)

(** C4, as stated, fails: the first run completes, every script it runs
    succeeds and no error is logged, the second run is given the same
    snapshot, and yet the second run finds B new and creates its event.
    B has the title and the dates of the stored X: it was skipped by the
    duplicate guard of the first run, before X was removed. *)
Lemma second_run_creates_the_entry_skipped_before :
  let first := Database.run env_recreated "db" "Home" (state_of stored_trip) in
  let second := Database.run env_recreated "db" "Home" (final first) in
  result (Database.get_live env_recreated "db" (state_of stored_trip))
    = Ok live_trip ∧
  result (Database.get_live env_recreated "db" (final first)) = Ok live_trip ∧
  result first = Ok tt ∧
  only is_error (events first) = [] ∧
  kind <$> mutations (events first) = [Delete] ∧
  guard_skips_none stored_trip live_trip = false ∧
  computeNew (df (final first)) live_trip = ["B"] ∧
  kind <$> mutations (events second) = [Make].
Proof. by_evaluation. Qed.

(** ** Two runs on an unchanged source *)

(** The amended C4 at work: the first run adds B, removes Z and updates A,
    every script succeeding and no entry skipped; the second finds nothing
    to do. *)
Lemma second_run_is_idle_witness :
  let first := Database.run env_two_cards "db" "Home" (state_of stored_two) in
  let second := Database.run env_two_cards "db" "Home" (final first) in
  kind <$> mutations (events first) = [Make; Delete; Delete; Make] ∧
  guard_skips_none stored_two live_two = true ∧
  computeNew (df (final first)) live_two = [] ∧
  computeDeleted (df (final first)) live_two = [] ∧
  computeModified (df (final first)) live_two = [] ∧
  result second = Ok tt ∧
  mutations (events second) = [] ∧
  df (final second) = df (final first).
Proof.
  split; [by_evaluation|]. split; [by_evaluation|].
  apply (second_run_is_idle env_two_cards "db" "Home" live_two (state_of stored_two)).
  - by_evaluation.
  - by_evaluation.
  - by_evaluation.
  - by_evaluation.
  - by_evaluation.
Defined.

(** ** Removing two entries *)

(** C5 fails on [remove_events].  With two entries to remove, both events
    are deleted from the calendar before anything is saved: when the loop
    ends the file still holds the two rows, and the one save of the phase
    comes after it. *)
Theorem remove_events_saves_once_at_the_end :
  let loop :=
    for_each ["A"; "B"] (Database.remove_event env_quiet "Home")
      (state_of stored_pair) in
  let phase :=
    Database.remove_events env_quiet "Home" ["A"; "B"] (state_of stored_pair) in
  kind <$> events loop
    = [Delete; Log INFO; Log INFO; Delete; Log INFO; Log INFO] ∧
  df (final loop) = ∅ ∧ csv (final loop) = stored_pair ∧
  kind <$> events phase
    = [Delete; Log INFO; Log INFO; Delete; Log INFO; Log INFO; Save] ∧
  csv (final phase) = ∅.
Proof. by_evaluation. Qed.

(** ** A creation that fails during an update *)

(** C6 fails on [modify_events].  Both A and B are to be updated; the
    creation for A fails, the exception leaves [modify_events], and B is
    never handled: two scripts were run, both for A, and the table is as
    it was. *)
Theorem modify_events_stops_at_the_first_failure :
  let phase :=
    Database.modify_events env_refusing "db" "Home" ["A"; "B"] (Some live_pair)
      (state_of stored_pair) in
  computeModified stored_pair live_pair = ["A"; "B"] ∧
  result phase
    = Raise (Exn "Exception" "Failed to add event to Home calendar") ∧
  kind <$> mutations (events phase) = [Delete; Make] ∧
  df (final phase) = stored_pair.
Proof. by_evaluation. Qed.

(** [add_events] on a calendar that refuses the first creation: the
    failure for A is logged and counted, and B is still added. *)
Lemma add_events_goes_on_after_a_failure :
  let phase :=
    Database.add_events env_refusing_first "db" "Home" ["A"; "B"]
      (Some live_pair) (state_of ∅) in
  result phase = Ok tt ∧
  kind <$> mutations (events phase) = [Make; Make] ∧
  dom (df (final phase)) = {[ "B" ]} ∧
  last (events phase)
    = Some (EvLog INFO
        "Add events summary: 1 added, 1 failed, 0 skipped (duplicates or already exists)").
Proof. by_evaluation. Qed.

(** ** A deletion that fails *)

(** C7 at work: the deletion of the event of A fails; the failure is
    logged, A is dropped by [remove_events], which goes on with B and
    saves the emptied table, and A is replaced by [modify_events], in the
    table and in the file. *)
Lemma failed_delete_witness :
  let st := state_of stored_pair in
  let deleted :=
    CalendarClient.delete_event env_failing_delete "Home" (Str "h1") st in
  let removed := Database.remove_events env_failing_delete "Home" ["A"; "B"] st in
  let modified :=
    Database.modify_events env_failing_delete "db" "Home" ["A"]
      (Some live_pair) st in
  kind <$> events deleted = [Delete; Log ERROR] ∧
  result deleted = Ok tt ∧
  csv (final deleted) = stored_pair ∧
  result removed = Ok tt ∧
  df (final removed) !! "A" = None ∧
  csv (final removed) !! "A" = None ∧
  only is_save (events removed) = [EvSave (df (final removed))] ∧
  csv (final removed) = ∅ ∧
  result modified = Ok tt ∧
  df (final modified) !! "A"
    = Some (stored_row (ts 2 9) (Str "Trip v2") (ts 5 0) (ts 5 0) "E1") ∧
  csv (final modified) !! "A"
    = Some (stored_row (ts 2 9) (Str "Trip v2") (ts 5 0) (ts 5 0) "E1") ∧
  length (only is_save (events modified)) = 1%nat.
Proof.
  intros st deleted removed modified.
  assert (head (events deleted)
          = Some (EvAppleScript DeleteEvent failed_script
                    {| out := ""; err := "event not found" |})) as Hhead
    by by_evaluation.
  pose proof (failed_delete_is_logged_and_row_still_handled
                env_failing_delete "db" "Home" "A"
                (stored_row (ts 1 8) (Str "Trip") (ts 5 0) (ts 5 0) "h1")
                st failed_script {| out := ""; err := "event not found" |}
                eq_refl Hhead eq_refl) as (Hdel & Hrem & Hmod).
  split; [by_evaluation|].
  destruct Hdel as (Hdel & _ & Hcsv & _).
  split; [exact Hdel|]. split; [exact Hcsv|].
  destruct (Hrem ["B"]) as (_ & _ & _ & Hkept).
  destruct Hkept as (Hres & Hdf & Hfile & _ & Hsave).
  { by_decision. }
  { intros j ->%list_elem_of_singleton. by_decision. }
  split; [exact Hres|]. split; [exact Hdf|]. split; [exact Hfile|].
  split; [exact Hsave|]. split; [by_evaluation|].
  specialize (Hmod live_pair
                (live_row (ts 2 9) (Str "Trip v2") (ts 5 0) (ts 5 0)) eq_refl).
  cbv zeta in Hmod.
  lazymatch type of Hmod with
  | match ?created with _ => _ end =>
      assert (created = Ok (Str "E1")) as Hadd by by_evaluation;
      rewrite Hadd in Hmod
  end.
  destruct Hmod as (Hres' & Hdf' & Hfile' & Hsave').
  split; [exact Hres'|].
  split; [unfold modified; rewrite Hdf'; by_evaluation|].
  split; [unfold modified; rewrite Hfile'; by_evaluation|].
  unfold modified. by rewrite Hsave'.
Defined.

(** ** Creating events *)

(** C8 at work: an all-day entry ending on 28 February 2024 is given an
    end on the 29th and the all-day flag; an entry that starts at nine and
    has no end time ends at 23:59:59 of its end date. *)
Lemma add_event_witness :
  let st := state_of ∅ in
  let all_day :=
    CalendarClient.add_event env_quiet "Home" (Str "Trip")
      "2024-02-28" "2024-02-28" "00:00:00" "00:00:00" "" "" st in
  let timed :=
    CalendarClient.add_event env_quiet "Home" (Str "Trip")
      "2024-02-28" "2024-02-28" "09:00:00" "00:00:00" "" "" st in
  (∃ cmd r,
     mutations (events all_day) = [EvAppleScript MakeEvent cmd r] ∧
     Py.contains "allday event:true" cmd = true ∧
     Py.contains
       (fstr ["set theEndDate to date "; Py.dquote;
              "Thursday, February 29, 2024 at 12:00:00 AM"; Py.dquote])
       cmd = true) ∧
  (∃ cmd r,
     mutations (events timed) = [EvAppleScript MakeEvent cmd r] ∧
     Py.contains "allday event" cmd = false ∧
     Py.contains
       (fstr ["set theEndDate to date "; Py.dquote;
              "Wednesday, February 28, 2024 at 11:59:59 PM"; Py.dquote])
       cmd = true).
Proof.
  intros st all_day timed. split.
  - destruct (add_event_all_day_and_end_of_day env_quiet "Home" (Str "Trip")
                "2024-02-28" "2024-02-28" "00:00:00" "" "" st
                (Datetime 2024 2 28 0 0 0)) as [Hall _];
      [by_evaluation|].
    destruct (Hall eq_refl (Datetime 2024 2 28 0 0 0) (Datetime 2024 2 29 0 0 0)
                (Datetime 1900 1 1 0 0 0)) as [Hrun Hflag];
      [by_evaluation..|].
    eexists _, _. split; [exact Hrun|]. split; [exact Hflag|].
    by_evaluation.
  - destruct (add_event_all_day_and_end_of_day env_quiet "Home" (Str "Trip")
                "2024-02-28" "2024-02-28" "09:00:00" "" "" st
                (Datetime 2024 2 28 9 0 0)) as [_ Htimed];
      [by_evaluation|].
    eexists _, _. split.
    + apply (Htimed ltac:(discriminate) (Datetime 2024 2 28 23 59 59)).
      by_evaluation.
    + by_evaluation.
Defined.

(** ** Escaping *)

(** The literal input of the specification: the quotes are escaped and the
    newline becomes a space. *)
Lemma applescript_escape_quote_and_newline :
  CalendarClient.applescript_escape
    (Str (fstr ["He said "; Py.dquote; "hi"; Py.dquote; Py.newline; "line2"]))
  = fstr ["He said "; Py.backslash; Py.dquote; "hi"; Py.backslash; Py.dquote;
          " line2"].
Proof. reflexivity. Qed.

(** C9 fails on carriage returns.  A newline between two letters becomes
    a space, a carriage return between them is deleted and the letters
    are joined; the comment above the replacement announces a space for
    both. *)
Theorem applescript_escape_deletes_carriage_returns :
  CalendarClient.applescript_escape (Str (fstr ["a"; Py.newline; "b"])) = "a b" ∧
  CalendarClient.applescript_escape (Str (fstr ["a"; Py.cr; "b"])) = "ab".
Proof. split; reflexivity. Qed.

(** ** A card without a title *)

(** C10 fails on a card whose title is empty.  [Card.__init__] leaves its
    title at [None]; the series built from it has the label [title], so
    the fallback of [getattr] is not taken, [_get_card_for_calendar]
    passes [None] on, and the run creates the event with the summary
    None and stores the row without a title. *)
Theorem untitled_card_is_created_as_None :
  ∃ card cmd r,
    NotionClient.Card_init env_untitled untitled_page = Ok card ∧
    NotionClient.title card = Null ∧
    Database.e_title
      (Database._get_card_for_calendar env_untitled (NotionClient.to_dict card))
      = Null ∧
    let ran := Database.run env_untitled "db" "Home" (state_of ∅) in
    result ran = Ok tt ∧
    mutations (events ran) = [EvAppleScript MakeEvent cmd r] ∧
    Py.contains (fstr ["{summary:"; Py.dquote; "None"; Py.dquote; ","]) cmd = true ∧
    Py.contains "Untitled Event" cmd = false ∧
    Pd.loc_cell (df (final ran)) "U" "title" = Ok Null.
Proof.
  eexists _, _, _. split; [reflexivity|]. split; [reflexivity|].
  split; [reflexivity|]. cbv zeta. split; [by_evaluation|].
  split; [vm_compute; reflexivity|]. by_evaluation.
Qed.

(** ** An entry of the past *)

(** The entry A ended long ago: [get_outdated] lists it.  It is still on
    Notion, unchanged, and the run leaves it alone: no script is run and
    the row stays. *)
Lemma run_keeps_entries_of_the_past :
  let st := state_of stored_past in
  result (Database.get_outdated env_past st) = Ok ["A"] ∧
  result (Database.run env_past "db" "Home" st) = Ok tt ∧
  mutations (events (Database.run env_past "db" "Home" st)) = [] ∧
  df (final (Database.run env_past "db" "Home" st)) = stored_past.
Proof. by_evaluation. Qed.

(** ** Further properties at work *)

(** The two pages of [env_two_cards] make the two rows of the live table. *)
Lemma get_live_indexes_the_cards_by_page_id_witness :
  ∃ live,
    result (Database.get_live env_two_cards "db" (state_of stored_two)) = Ok live ∧
    dom live = list_to_set (page_id <$> two_pages) ∧
    ∀ p, p ∈ two_pages →
      ∃ c, NotionClient.Card_init env_two_cards p = Ok c ∧
           live !! page_id p = Some (NotionClient.to_dict c).
Proof.
  apply (get_live_indexes_the_cards_by_page_id env_two_cards "db"
           (state_of stored_two) two_pages).
  - reflexivity.
  - by_decision.
  - repeat (constructor; [by_evaluation|]). constructor.
Defined.

(** The page B gives no end: its row ends when it starts. *)
Lemma live_row_without_end_date_witness :
  ∃ row, live_two !! "B" = Some row ∧
         Pd.col row "end_date" = Pd.col row "start_date".
Proof.
  apply (live_row_without_end_date_ends_at_its_start env_two_cards "db"
           (state_of stored_two) two_pages live_two
           (page "B" "Dentist" "2024-01-03T10:00:00.000Z"
              "2024-01-07T14:30:00.000+01:00")
           (Some "2024-01-07T14:30:00.000+01:00")).
  - reflexivity.
  - by_decision.
  - by_evaluation.
  - set_solver.
  - reflexivity.
Defined.

(** Notion cannot be reached: the run ends after its query. *)
Lemma run_stops_when_the_fetch_fails_witness :
  let ran := Database.run env_offline "db" "Home" (state_of stored_pair) in
  result ran = Raise (Exn "Exception" "Service Unavailable") ∧
  effects (events ran) = [EvQuery "db"] ∧
  df (final ran) = stored_pair ∧ csv (final ran) = stored_pair.
Proof.
  apply (run_stops_when_the_fetch_fails env_offline "db" "Home"
           (state_of stored_pair)).
  by_evaluation.
Defined.

(** The page N has a title and no date, and the debugger finds nothing to
    read: the run fails with [BdbQuit], and the page A that comes before N
    is not added. *)
Lemma one_titled_page_without_date_witness :
  let ran := Database.run env_undated "db" "Home" (state_of ∅) in
  ∃ e,
    result ran = Raise e ∧ exn_class e = "BdbQuit" ∧
    mutations (events ran) = [] ∧
    df (final ran) = ∅ ∧ csv (final ran) = ∅.
Proof.
  apply (one_titled_page_without_date_fails_the_run env_undated "db" "Home"
           (state_of ∅)
           [page "A" "Trip" "2024-01-01T08:00:00.000Z" "2024-01-05"; undated_page]
           undated_page).
  - reflexivity.
  - set_solver.
  - discriminate.
  - reflexivity.
Defined.

(** The three classifications, each fetching its snapshot. *)
Lemma classification_without_a_snapshot_witness :
  let st := state_of stored_two in
  (result (Database.get_new env_two_cards "db" None st)
     = Ok (Database.index_difference live_two stored_two) ∧
   effects (events (Database.get_new env_two_cards "db" None st)) = [EvQuery "db"]) ∧
  (result (Database.get_deleted env_two_cards "db" None st)
     = Ok (Database.index_difference stored_two live_two) ∧
   effects (events (Database.get_deleted env_two_cards "db" None st))
     = [EvQuery "db"]) ∧
  (result (Database.get_modified env_two_cards "db" None st)
     = Ok (Pd.index_where (Database.modified_filter live_two) stored_two) ∧
   effects (events (Database.get_modified env_two_cards "db" None st))
     = [EvQuery "db"]).
Proof.
  apply (classification_without_a_snapshot_fetches_one env_two_cards "db"
           (state_of stored_two) live_two).
  by_evaluation.
Defined.

(** The calendar refuses the first creation and [add_events] returns. *)
Lemma add_events_never_raises_witness :
  result (Database.add_events env_refusing_first "db" "Home" ["A"; "B"]
            (Some live_pair) (state_of ∅)) = Ok tt.
Proof.
  apply (add_events_never_raises env_refusing_first "db" "Home" ["A"; "B"]
           live_pair (state_of ∅)).
  apply Forall_forall. repeat (constructor; [by_decision|]). constructor.
Defined.

(** The snapshot has A and lacks Q: nothing is done, not even for A. *)
Lemma add_events_of_an_unknown_id_witness :
  let phase :=
    Database.add_events env_quiet "db" "Home" ["A"; "Q"] (Some live_pair)
      (state_of ∅) in
  ∃ e, exn_class e = "KeyError" ∧
    result phase = Raise e ∧ final phase = state_of ∅ ∧ events phase = [].
Proof.
  apply (add_events_of_an_unknown_id_does_nothing env_quiet "db" "Home"
           ["A"; "Q"] live_pair (state_of ∅) "Q"); by_decision.
Defined.

(** The two stored entries are removed. *)
Lemma remove_events_removes_the_listed_rows_witness :
  let phase := Database.remove_events env_quiet "Home" ["A"; "B"]
                 (state_of stored_pair) in
  result phase = Ok tt ∧
  (∀ id, df (final phase) !! id
         = if decide (id ∈ ["A"; "B"]) then None else stored_pair !! id) ∧
  csv (final phase) = df (final phase) ∧
  length (only is_delete (events phase)) = 2%nat ∧
  only is_make (events phase) = [].
Proof.
  apply (remove_events_removes_the_listed_rows env_quiet "Home" ["A"; "B"]
           (state_of stored_pair)).
  - by_decision.
  - apply Forall_forall. repeat (constructor; [by_decision|]). constructor.
Defined.

(** A is removed, Q is unknown: B is not reached and nothing is saved. *)
Lemma remove_events_of_an_unknown_id_witness :
  let phase := Database.remove_events env_quiet "Home" ["A"; "Q"; "B"]
                 (state_of stored_pair) in
  result phase = Raise (Exn "KeyError" "Q") ∧
  csv (final phase) = stored_pair ∧
  only is_save (events phase) = [] ∧
  length (mutations (events phase)) = 1%nat ∧
  ∀ i, df (final phase) !! i
       = if decide (i ∈ ["A"]) then None else stored_pair !! i.
Proof.
  apply (remove_events_of_an_unknown_id_saves_nothing env_quiet "Home"
           ["A"] "Q" ["B"] (state_of stored_pair)).
  - by_decision.
  - apply Forall_forall. repeat (constructor; [by_decision|]). constructor.
  - left. by_decision.
Defined.

(** Q is in neither table: A, which follows, is not handled. *)
Lemma modify_events_of_an_unknown_id_witness :
  let phase := Database.modify_events env_quiet "db" "Home" ["Q"; "A"]
                 (Some live_pair) (state_of stored_pair) in
  result phase = Raise (Exn "KeyError" "Q") ∧
  final phase = state_of stored_pair ∧ events phase = [].
Proof.
  apply (modify_events_of_an_unknown_id_runs_no_script env_quiet "db" "Home"
           "Q" ["A"] live_pair (state_of stored_pair)).
  left. reflexivity.
Defined.

(** The entry A of the past is left as it is. *)
Lemma run_leaves_unmodified_entries_alone_witness :
  df (final (Database.run env_past "db" "Home" (state_of stored_past))) !! "A"
  = Some (stored_row (ts 1 8) (Str "Trip") (ts 5 0) (ts 5 0) "h1").
Proof.
  apply (run_leaves_unmodified_entries_alone env_past "db" "Home" live_past
           (state_of stored_past) "A").
  - by_evaluation.
  - reflexivity.
  - by_decision.
  - by_evaluation.
Defined.

(** After adding B, removing Z and updating A, the file holds the table. *)
Lemma run_ends_with_the_table_saved_witness :
  let ran := Database.run env_two_cards "db" "Home" (state_of stored_two) in
  csv (final ran) = df (final ran) ∧
  ∃ live,
    result (Database.get_live env_two_cards "db" (state_of stored_two)) = Ok live ∧
    dom (df (final ran)) ⊆ dom live.
Proof.
  apply (run_ends_with_the_table_saved env_two_cards "db" "Home"
           (state_of stored_two)).
  by_evaluation.
Defined.

(** Nothing to do for the entry of the past: one query, one save. *)
Lemma idle_run_queries_and_saves_once_witness :
  effects (events (Database.run env_past "db" "Home" (state_of stored_past)))
  = [EvQuery "db"; EvSave stored_past].
Proof.
  apply (idle_run_queries_and_saves_once env_past "db" "Home" live_past
           (state_of stored_past)).
  - by_evaluation.
  - by_evaluation.
  - intros id row Hrow. change (stored_past !! id = Some row) in Hrow.
    unfold stored_past in Hrow. apply lookup_singleton_Some in Hrow as [<- <-].
    by_evaluation.
Defined.

(** The page U has no title, and is not found modified. *)
Lemma untitled_page_is_never_classified_modified_witness :
  ∃ modified,
    result (Database.get_modified env_untitled "db" (Some live_of_untitled)
              (state_of ∅)) = Ok modified ∧
    "U" ∉ modified.
Proof.
  apply (untitled_page_is_never_classified_modified env_untitled "db"
           (state_of ∅) [untitled_page] live_of_untitled untitled_page
           (state_of ∅)).
  - reflexivity.
  - by_decision.
  - by_evaluation.
  - set_solver.
  - reflexivity.
Defined.

(** A plain text, cut after three characters and left whole. *)
Lemma applescript_escape_of_plain_text_witness :
  CalendarClient.applescript_escape_len (Str "Dentist") 3 = "Den..." ∧
  CalendarClient.applescript_escape_len (Str "Dentist") 900 = "Dentist".
Proof.
  split.
  - apply (applescript_escape_of_plain_text "Dentist" 3); reflexivity.
  - apply (applescript_escape_of_plain_text "Dentist" 900); reflexivity.
Defined.

(** A text with two quotes and a backslash comes back as it was. *)
Lemma unescape_applescript_escape_witness :
  let text := fstr ["say "; Py.dquote; "hi"; Py.dquote; " to C:"; Py.backslash; "tmp"] in
  unescape (CalendarClient.applescript_escape_len (Str text) 900) = text.
Proof.
  apply (unescape_applescript_escape
           (fstr ["say "; Py.dquote; "hi"; Py.dquote; " to C:"; Py.backslash; "tmp"])
           900).
  - reflexivity.
  - reflexivity.
  - reflexivity.
  - vm_compute. lia.
Defined.

(** The fraction and the offset of a Notion date are ignored. *)
Lemma convert_datetime_ignores_what_follows_the_seconds_witness :
  NotionClient._convert_datetime (Some "2024-01-07T14:30:00.000+01:00")
  = NotionClient._convert_datetime (Some "2024-01-07T14:30:00").
Proof.
  apply (convert_datetime_ignores_what_follows_the_seconds
           "2024-01-07" "14:30:00" ".000+01:00"); reflexivity.
Defined.

(** A date alone is the midnight of that date. *)
Lemma convert_datetime_of_a_date_witness :
  NotionClient._convert_datetime (Some "2024-01-05")
  = NotionClient._convert_datetime (Some "2024-01-05T00:00:00").
Proof.
  apply (convert_datetime_of_a_date_is_its_midnight "2024-01-05"); reflexivity.
Defined.

(** The calendar answers with the words event, id and E0: the handle is E0. *)
Lemma add_event_returns_the_last_word_witness :
  result (CalendarClient.add_event env_quiet "Home" (Str "Trip")
            "2024-02-28" "2024-02-28" "09:00:00" "10:00:00" "" "" (state_of ∅))
  = Ok (Str "E0") ∧
  last (Py.split_ws (Py.strip "event id E0")) = Some "E0".
Proof.
  assert (result (CalendarClient.add_event env_quiet "Home" (Str "Trip")
            "2024-02-28" "2024-02-28" "09:00:00" "10:00:00" "" "" (state_of ∅))
          = Ok (Str "E0")) as Hres by by_evaluation.
  split; [exact Hres|].
  pose proof (add_event_returns_the_last_word_of_the_output env_quiet "Home"
                (Str "Trip") "2024-02-28" "2024-02-28" "09:00:00" "10:00:00"
                "" "" (state_of ∅) (Datetime 2024 2 28 9 0 0)
                (Datetime 2024 2 28 10 0 0) "10:00:00") as Hspec.
  cbv zeta in Hspec. rewrite Hres in Hspec.
  apply Hspec; by_evaluation.
Defined.

(** A start and an end that do not read are replaced by texts that do. *)
Lemma calendar_details_are_readable_witness :
  let d :=
    Database._get_card_for_calendar env_quiet
      (live_row (ts 2 9) (Str "Trip") (Str "soon") (Str "2024-13-45 25:00:00")) in
  is_ok (strptime (Database.e_start_date d) "%Y-%m-%d") = true ∧
  is_ok (strptime (Database.e_start_time d) "%H:%M:%S") = true ∧
  (Pd.isna (Pd.getattr
              (live_row (ts 2 9) (Str "Trip") (Str "soon")
                 (Str "2024-13-45 25:00:00")) "end_date" Null) = false →
   is_ok (strptime (Database.e_end_date d) "%Y-%m-%d") = true ∧
   is_ok (strptime (Database.e_end_time d) "%H:%M:%S") = true).
Proof.
  apply (calendar_details_are_readable env_quiet
           (live_row (ts 2 9) (Str "Trip") (Str "soon") (Str "2024-13-45 25:00:00")));
    by_evaluation.
Defined.

(** The script that removes A names the calendar Home and the handle h1. *)
Lemma remove_events_deletes_the_event_of_the_stored_handle_witness :
  ∃ cmd,
    mutations (events (Database.remove_events env_quiet "Home" ["A"]
                         (state_of stored_pair)))
      = [EvAppleScript DeleteEvent cmd (obliging 0 cmd)] ∧
    Py.contains (fstr ["tell calendar "; Py.dquote; "Home"; Py.dquote]) cmd = true ∧
    Py.contains (fstr ["delete event id "; Py.dquote; "h1"; Py.dquote]) cmd = true.
Proof.
  apply (remove_events_deletes_the_event_of_the_stored_handle env_quiet "Home" "A"
           (stored_row (ts 1 8) (Str "Trip") (ts 5 0) (ts 5 0) "h1")
           (state_of stored_pair)).
  reflexivity.
Defined.

(** Two entries added to an empty table. *)
Lemma add_events_keeps_events_distinct_witness :
  distinct_events
    (df (final (Database.add_events env_quiet "db" "Home" ["A"; "B"]
                  (Some live_pair) (state_of ∅)))).
Proof.
  apply (add_events_keeps_events_distinct env_quiet "db" "Home" ["A"; "B"]
           live_pair (state_of ∅)).
  intros i j a b Ha. change ((∅ : DataFrame) !! i = Some a) in Ha.
  by rewrite lookup_empty in Ha.
Defined.

(** The two stored entries are updated, each with the handle its own
    creation returned: two deletions, two creations, two saves. *)
Lemma modify_events_updates_every_listed_row_witness :
  let phase := Database.modify_events env_quiet "db" "Home" ["A"; "B"]
                 (Some live_pair) (state_of stored_pair) in
  (∀ i id, ["A"; "B"] !! i = Some id →
     ∃ row cmd a,
       live_pair !! id = Some row ∧
       only is_make (events phase) !! i = Some (EvAppleScript MakeEvent cmd a) ∧
       df (final phase) !! id
         = Some (Pd.reindex Database.columns
                   (<["event_id" := returned_handle a]> row))) ∧
  length (only is_delete (events phase)) = 2%nat ∧
  length (only is_make (events phase)) = 2%nat ∧
  length (only is_save (events phase)) = 2%nat.
Proof.
  apply (modify_events_updates_every_listed_row env_quiet "db" "Home" ["A"; "B"]
           live_pair (state_of stored_pair)).
  - by_evaluation.
  - by_decision.
Defined.

(** B has the title and the dates of the stored X, and is skipped. *)
Lemma add_events_skips_a_double_witness :
  let phase := Database.add_events env_recreated "db" "Home" ["B"]
                 (Some live_trip) (state_of stored_trip) in
  result phase = Ok tt ∧ final phase = state_of stored_trip ∧
  mutations (events phase) = [] ∧ only is_save (events phase) = [].
Proof.
  apply (add_events_skips_a_double env_recreated "db" "Home" "B"
           (live_row (Ts (Datetime 2024 1 5 10 0 0)) (Str "Trip") (ts 1 0) (ts 1 0))
           "X" (stored_row (ts 1 8) (Str "Trip") (ts 1 0) (ts 1 0) "h1")
           live_trip (state_of stored_trip)); by_evaluation.
Defined.

(** The last day of the calendar is read, but has no next day: an all-day
    event that ends on it gets no script.  An ordinary event gets one. *)
Lemma add_event_runs_a_script_iff_the_dates_are_built_witness :
  let last_day :=
    CalendarClient.add_event env_quiet "Home" (Str "Trip")
      "9999-12-31" "9999-12-31" "00:00:00" "00:00:00" "" "" (state_of ∅) in
  let plain :=
    CalendarClient.add_event env_quiet "Home" (Str "Trip")
      "2024-02-28" "2024-02-28" "09:00:00" "10:00:00" "" "" (state_of ∅) in
  is_ok (strptime "9999-12-31 00:00:00" "%Y-%m-%d %H:%M:%S") = true ∧
  is_ok (strptime "9999-12-31" "%Y-%m-%d") = true ∧
  exn_class <$> (match result last_day with Raise e => Some e | Ok _ => None end)
    = Some "OverflowError" ∧
  length (mutations (events last_day)) = 0%nat ∧
  events last_day = [] ∧
  length (mutations (events plain)) = 1%nat.
Proof.
  intros last_day plain.
  split; [by_evaluation|]. split; [by_evaluation|]. split; [by_evaluation|].
  pose proof (add_event_runs_a_script_iff_the_dates_are_built env_quiet "Home"
                (Str "Trip") "9999-12-31" "9999-12-31" "00:00:00" "00:00:00"
                "" "" (state_of ∅)) as Hlast.
  pose proof (add_event_runs_a_script_iff_the_dates_are_built env_quiet "Home"
                (Str "Trip") "2024-02-28" "2024-02-28" "09:00:00" "10:00:00"
                "" "" (state_of ∅)) as Hplain.
  cbv zeta in Hlast, Hplain.
  lazymatch type of Hlast with
  | (_ = if ?c then _ else _) ∧ _ =>
      assert (c = false) as Hc by by_evaluation; rewrite Hc in Hlast
  end.
  lazymatch type of Hplain with
  | (_ = if ?c then _ else _) ∧ _ =>
      assert (c = true) as Hc' by by_evaluation; rewrite Hc' in Hplain
  end.
  destruct Hlast as [Hlen Hnone]. destruct (Hnone eq_refl) as (_ & _ & Hev).
  split; [exact Hlen|]. split; [exact Hev|]. apply Hplain.
Defined.

(** The blanks of Python: the characters for which [str.isspace] holds
    among the code points below 256.  The separators U+001C to U+001F, the
    next line U+0085 and the no-break space U+00A0 are blanks: they are
    stripped, and they split words. *)
Lemma blanks_of_python :
  filter (λ n, Py.isspace (ascii_of_nat n) = true) (seq 0 256)
    = [9; 10; 11; 12; 13; 28; 29; 30; 31; 32; 133; 160]%nat ∧
  Py.split_ws (String "a" (String "028" "b")) = ["a"; "b"] ∧
  Py.strip (String "133" (String "x" (String "160" ""))) = "x" ∧
  exn_class <$> (match CalendarClient.last_token (String "028" "") with
                 | Raise e => Some e | Ok _ => None end) = Some "IndexError".
Proof. by_evaluation. Qed.

End Scenarios.
